(** * Sea-surface-temperature downloader: a shallow embedding

    The development follows
    [src/hydrological_toolbox/data/download_sea_surface_temperature.py]:
    the class [SeaSurfaceTempDownloader] (constructors, [read_dataset],
    [get_lat_lon_index], [get_time_index], [remote_to_local_dir_mapping],
    [download_to_local], [download]) and the entry point [download_sst].

    Modelling conventions.
    - Python exceptions are the constructors of [exn]; a computation that can
      raise returns a [result].
    - Code that touches the file system, the network or the warning channel
      runs in the monad [M], which threads a [world].
    - Coordinates (latitudes, longitudes) are rationals [Q], standing for
      the binary64 numbers the arrays hold. Where the code computes with
      them (the subtraction of [read_dataset], the distances of the tree of
      [get_lat_lon_index]) the model computes in binary64, through
      [float_of_Q] and [Q_of_float].
    - Sea-surface temperatures are binary64 floats ([PrimFloat]), so that the
      missing marker is the NaN the code writes and the comparison against
      the threshold is the IEEE comparison Python performs.
    - Calendar dates are proleptic Gregorian ordinals (Python's
      [date.toordinal]), decoded with the algorithm of CPython's [datetime]. *)

From Stdlib Require Import ZArith QArith List String Ascii Bool Lia Lqa PeanoNat Sorted.
From Stdlib Require Import DecimalString DecimalZ.
From Stdlib Require Import Floats Qpower.
Import ListNotations.

Set Implicit Arguments.
Set Warnings "-register-all,-inexact-float".
Close Scope Q_scope.

(* ------------------------------------------------------------------ *)
(** ** Exceptions and results *)

Inductive exn : Type :=
| TypeError
| ValueError
| KeyError
| IndexError
| OverflowError
| URLError
| FileNotFoundError.

Inductive result (A : Type) : Type :=
| Ok (a : A)
| Raise (e : exn).

Arguments Ok {A} a.
Arguments Raise {A} e.

Definition rbind {A B} (r : result A) (k : A -> result B) : result B :=
  match r with
  | Ok a => k a
  | Raise e => Raise e
  end.

Declare Scope result_scope.
Delimit Scope result_scope with res.
Notation "x <-? r ;; k" := (rbind r (fun x => k))
  (at level 61, r at next level, right associativity) : result_scope.

(** Fallible map over a list, left to right (a Python loop that appends). *)
Fixpoint rmap {A B} (f : A -> result B) (l : list A) : result (list B) :=
  match l with
  | [] => Ok []
  | x :: xs =>
      match f x with
      | Raise e => Raise e
      | Ok y =>
          match rmap f xs with
          | Raise e => Raise e
          | Ok ys => Ok (y :: ys)
          end
      end
  end.

(* ------------------------------------------------------------------ *)
(** ** Python dictionaries

    A [dict] keeps its keys in insertion order; assigning to a key that is
    present replaces the value in place. *)

Section Dict.
Variables (K V : Type) (keq : K -> K -> bool).

Definition dict := list (K * V).

Fixpoint dict_get (d : dict) (k : K) : option V :=
  match d with
  | [] => None
  | (k', v) :: d' => if keq k k' then Some v else dict_get d' k
  end.

Fixpoint dict_set (d : dict) (k : K) (v : V) : dict :=
  match d with
  | [] => [(k, v)]
  | (k', v') :: d' =>
      if keq k k' then (k', v) :: d' else (k', v') :: dict_set d' k v
  end.

Definition dict_keys (d : dict) : list K := map fst d.
End Dict.

(** [defaultdict(list)]: [d[k].append(v)] creates the entry on first use. *)
Definition dd_append {K V} (keq : K -> K -> bool)
    (d : dict K (list V)) (k : K) (v : V) : dict K (list V) :=
  match dict_get keq d k with
  | Some l => dict_set keq d k (l ++ [v])
  | None => dict_set keq d k [v]
  end.

(* ------------------------------------------------------------------ *)
(** ** The calendar of [datetime]

    [_is_leap], [_days_before_year], [_days_before_month], [_ymd2ord] and
    [_ord2ymd] as CPython defines them. *)

Open Scope Z_scope.

Definition is_leap (year : Z) : bool :=
  (year mod 4 =? 0) && (negb (year mod 100 =? 0) || (year mod 400 =? 0)).

Definition days_before_year (year : Z) : Z :=
  let y := year - 1 in y * 365 + y / 4 - y / 100 + y / 400.

Definition DAYS_IN_MONTH (month : Z) : Z :=
  match month with
  | 1 => 31 | 2 => 28 | 3 => 31 | 4 => 30 | 5 => 31 | 6 => 30
  | 7 => 31 | 8 => 31 | 9 => 30 | 10 => 31 | 11 => 30 | 12 => 31
  | _ => -1
  end.

Definition DAYS_BEFORE_MONTH (month : Z) : Z :=
  match month with
  | 1 => 0 | 2 => 31 | 3 => 59 | 4 => 90 | 5 => 120 | 6 => 151
  | 7 => 181 | 8 => 212 | 9 => 243 | 10 => 273 | 11 => 304 | 12 => 334
  | _ => -1
  end.

Definition days_before_month (year month : Z) : Z :=
  DAYS_BEFORE_MONTH month + (if (2 <? month) && is_leap year then 1 else 0).

Definition ymd2ord (year month day : Z) : Z :=
  days_before_year year + days_before_month year month + day.

Definition DI400Y : Z := 146097.
Definition DI100Y : Z := 36524.
Definition DI4Y : Z := 1461.

Record ymd : Type := mk_ymd { ymd_year : Z; ymd_month : Z; ymd_day : Z }.

Definition ord2ymd (ordinal : Z) : ymd :=
  let n := ordinal - 1 in
  let n400 := n / DI400Y in
  let n := n mod DI400Y in
  let year := n400 * 400 + 1 in
  let n100 := n / DI100Y in
  let n := n mod DI100Y in
  let n4 := n / DI4Y in
  let n := n mod DI4Y in
  let n1 := n / 365 in
  let n := n mod 365 in
  let year := year + n100 * 100 + n4 * 4 + n1 in
  if (n1 =? 4) || (n100 =? 4) then mk_ymd (year - 1) 12 31
  else
    let leapyear := (n1 =? 3) && (negb (n4 =? 24) || (n100 =? 3)) in
    let month := Z.shiftr (n + 50) 5 in
    let preceding :=
      DAYS_BEFORE_MONTH month + (if (2 <? month) && leapyear then 1 else 0) in
    if n <? preceding then
      let month := month - 1 in
      let preceding :=
        preceding
        - (DAYS_IN_MONTH month + (if (month =? 2) && leapyear then 1 else 0)) in
      mk_ymd year month (n - preceding + 1)
    else mk_ymd year month (n - preceding + 1).

(** [date.min.toordinal()] and [date.max.toordinal()]. *)
Definition MINORDINAL : Z := 1.
Definition MAXORDINAL : Z := 3652059.

Definition valid_ordinal (o : Z) : bool := (MINORDINAL <=? o) && (o <=? MAXORDINAL).

(** [date(1800, 1, 1).toordinal()]. *)
Definition EPOCH_1800 : Z := Eval vm_compute in ymd2ord 1800 1 1.

(** [date(1800, 1, 1) + timedelta(int(t))]: the sum is a date only inside
    [date.min .. date.max]; outside, Python raises [OverflowError]. *)
Definition date_plus_days (t : Z) : result Z :=
  let o := EPOCH_1800 + t in
  if valid_ordinal o then Ok o else Raise OverflowError.

Close Scope Z_scope.

(* ------------------------------------------------------------------ *)
(** ** Strings: [str] of integers, dates and timestamps *)

Open Scope string_scope.

(** [str(n)] and [f'{n}'] for a Python [int]. *)
Definition str_int (z : Z) : string := NilEmpty.string_of_int (Z.to_int z).

Fixpoint zeros (n : nat) : string :=
  match n with
  | O => ""
  | S n' => String "0" (zeros n')
  end.

(** ["%0<width>d"] on the decimal form of a non-negative integer. *)
Definition zfill (width : nat) (s : string) : string :=
  zeros (width - String.length s) ++ s.

(** [date.isoformat], which is [str(date)]: ["%04d-%02d-%02d"]. *)
Definition isoformat (d : ymd) : string :=
  zfill 4 (str_int (ymd_year d)) ++ "-" ++
  zfill 2 (str_int (ymd_month d)) ++ "-" ++
  zfill 2 (str_int (ymd_day d)).

Definition str_date (ordinal : Z) : string := isoformat (ord2ymd ordinal).

(** A pandas [Timestamp] at second resolution: a calendar day and a time of
    day. *)
Record Timestamp : Type := mk_Timestamp {
  ts_ordinal : Z;
  ts_hour : Z;
  ts_minute : Z;
  ts_second : Z
}.

Definition midnight (ordinal : Z) : Timestamp := mk_Timestamp ordinal 0 0 0.

Definition Timestamp_year (ts : Timestamp) : Z := ymd_year (ord2ymd (ts_ordinal ts)).

(** [str(ts)], e.g. ["1985-01-01 00:00:00"]. *)
Definition str_Timestamp (ts : Timestamp) : string :=
  str_date (ts_ordinal ts) ++ " " ++
  zfill 2 (str_int (ts_hour ts)) ++ ":" ++
  zfill 2 (str_int (ts_minute ts)) ++ ":" ++
  zfill 2 (str_int (ts_second ts)).

(** [s.split(' ')[0]]: what precedes the first blank. *)
Fixpoint split_space_head (s : string) : string :=
  match s with
  | EmptyString => EmptyString
  | String c s' =>
      if Ascii.eqb c " " then EmptyString else String c (split_space_head s')
  end.

(** [os.path.join(a, b)] of [posixpath] for two components. *)
Definition ends_with_slash (s : string) : bool :=
  match get (String.length s - 1) s with
  | Some c => Ascii.eqb c "/"
  | None => false
  end.

Definition os_path_join (a b : string) : string :=
  match b with
  | String "/" _ => b
  | _ =>
      if (String.length a =? 0)%nat || ends_with_slash a then a ++ b
      else a ++ "/" ++ b
  end.

Close Scope string_scope.
Open Scope list_scope.

(** [pd.date_range(start, end)]: one timestamp per day, both ends included;
    empty when [end] precedes [start]. *)
Definition date_range (start_date end_date : Z) : list Timestamp :=
  map (fun k => midnight (start_date + Z.of_nat k))
      (seq 0 (Z.to_nat (end_date - start_date + 1))).

(* ------------------------------------------------------------------ *)
(** ** Python values and data frames *)

Inductive label : Type :=
| LInt (n : nat)
| LStr (s : string).

Definition label_eqb (a b : label) : bool :=
  match a, b with
  | LInt n, LInt m => Nat.eqb n m
  | LStr s, LStr t => String.eqb s t
  | _, _ => false
  end.

(** The values a caller can pass as coordinates: numbers, strings, [None],
    lists and tuples. [PyNaN] is [float('nan')]. *)
Inductive pyval : Type :=
| PyNone
| PyInt (z : Z)
| PyFloat (q : Q)
| PyNaN
| PyStr (s : string)
| PyList (items : list pyval)
| PyTuple (items : list pyval).

(** A data frame: column labels and rows of cells. *)
Record DataFrame : Type := mk_DataFrame {
  df_columns : list label;
  df_rows : list (list pyval)
}.

(** What [download_sst] can receive as [locations]. *)
Inductive locations_arg : Type :=
| ArgDataFrame (df : DataFrame)
| ArgValue (v : pyval).

Definition range_labels (n : nat) : list label := map LInt (seq 0 n).

Definition pad_row (width : nat) (row : list pyval) : list pyval :=
  row ++ repeat PyNaN (width - List.length row).

(** [list(s)] for a string: its characters, each a string of length one. *)
Fixpoint str_chars (s : string) : list pyval :=
  match s with
  | EmptyString => []
  | String c s' => PyStr (String c EmptyString) :: str_chars s'
  end.

(** [pd.DataFrame(data)] on a list or tuple of rows: pandas takes [len] of
    each row and then its elements, so that a row is a list, a tuple or a
    string (read as the row of its characters) and anything else is a
    [TypeError]; the frame is as wide as the longest row, shorter rows are
    completed with missing cells, and the columns are labelled
    [0 .. width-1]. *)
Definition row_cells (row : pyval) : result (list pyval) :=
  match row with
  | PyList cells | PyTuple cells => Ok cells
  | PyStr s => Ok (str_chars s)
  | _ => Raise TypeError
  end.

Definition pd_DataFrame (data : pyval) : result DataFrame :=
  match data with
  | PyList rows | PyTuple rows =>
      match rmap row_cells rows with
      | Raise e => Raise e
      | Ok cells =>
          let width := fold_right Nat.max 0 (map (@List.length pyval) cells) in
          Ok (mk_DataFrame (range_labels width) (map (pad_row width) cells))
      end
  | _ => Raise ValueError
  end.

(** [df.columns = names]: the number of names has to be the number of
    columns. *)
Definition set_columns (df : DataFrame) (names : list label) : result DataFrame :=
  if (List.length names =? List.length (df_columns df))%nat
  then Ok (mk_DataFrame names (df_rows df))
  else Raise ValueError.

Fixpoint positions_from (i : nat) (labels : list label) (l : label) : list nat :=
  match labels with
  | [] => []
  | l' :: rest =>
      if label_eqb l l' then i :: positions_from (S i) rest l
      else positions_from (S i) rest l
  end.

(** [df[[a, b]]]: the columns labelled [a] then those labelled [b];
    [KeyError] when a label is absent. *)
Definition select_columns (df : DataFrame) (wanted : list label) : result DataFrame :=
  match
    rmap (fun l =>
            match positions_from 0 (df_columns df) l with
            | [] => Raise KeyError
            | ps => Ok (map (fun p => (l, p)) ps)
            end) wanted
  with
  | Raise e => Raise e
  | Ok found =>
      let cols := List.concat found in
      Ok (mk_DataFrame (map fst cols)
            (map (fun row => map (fun c => nth (snd c) row PyNaN) cols) (df_rows df)))
  end.

(** A cell read as a number, as [KDTree.query] needs it; a cell that is not a
    finite number is refused. *)
Definition as_float (v : pyval) : result Q :=
  match v with
  | PyInt z => Ok (inject_Z z)
  | PyFloat q => Ok q
  | _ => Raise ValueError
  end.

(** The rows of a two-column frame as points. *)
Definition as_points (df : DataFrame) : result (list (Q * Q)) :=
  rmap (fun row =>
          match row with
          | [a; b] =>
              match as_float a, as_float b with
              | Ok x, Ok y => Ok (x, y)
              | Raise e, _ => Raise e
              | _, Raise e => Raise e
              end
          | _ => Raise ValueError
          end) (df_rows df).

(* ------------------------------------------------------------------ *)
(** ** Coordinates as binary64 numbers *)

(** The binary64 nearest to a rational, ties to even: the number an array of
    [float64] holds for it. The quotient is cut to the precision of the
    format and rounded on what is left, as the IEEE division is. *)
Definition SF_of_Q (q : Q) : spec_float :=
  let round (s : bool) (n : positive) :=
    let '(mz, ez, lz) :=
      SFdiv_core_binary prec emax (Zpos n) 0 (Zpos (Qden q)) 0 in
    binary_round_aux prec emax s mz ez lz in
  match Qnum q with
  | Z0 => S754_zero false
  | Zpos n => round false n
  | Zneg n => round true n
  end.

Definition float_of_Q (q : Q) : float := SF2Prim (SF_of_Q q).

(** The rational a finite binary64 is. *)
Definition Q_of_float (f : float) : Q :=
  match Prim2SF f with
  | S754_finite s m e => Qred (inject_Z (cond_Zopp s (Zpos m)) * 2 ^ e)
  | _ => 0%Q
  end.

(* ------------------------------------------------------------------ *)
(** ** Grid files and the outside world *)

(** A three-dimensional [float] array, indexed [time, lat, lon]. *)
Record ndarray3 : Type := mk_ndarray3 {
  shape3 : nat * nat * nat;
  item3 : nat -> nat -> nat -> float
}.

Definition getitem3 (a : ndarray3) (t i j : nat) : result float :=
  let '(nt, ni, nj) := shape3 a in
  if (t <? nt)%nat && (i <? ni)%nat && (j <? nj)%nat
  then Ok (item3 a t i j)
  else Raise IndexError.

(** The variables of one yearly netCDF file, as stored. *)
Record GridFile : Type := mk_GridFile {
  nc_lat : list Q;
  nc_lon : list Q;
  nc_time : list Z;
  nc_sst : ndarray3
}.

(** The dictionary [read_dataset] returns. *)
Record Dataset : Type := mk_Dataset {
  ds_lat : list Q;
  ds_lon : list Q;
  ds_time : list Z;
  ds_sst : ndarray3
}.

Inductive event : Type :=
| EvMkdtemp (dir : string)
| EvExists (path : string)
| EvUrlretrieve (url path : string)
| EvOpenDataset (path : string).

(** What the code can change: local files, the trace of file and network
    operations, and the warnings issued. *)
Record world : Type := mk_world {
  w_files : dict string GridFile;
  w_trace : list event;
  w_warnings : list string
}.

(** What the code cannot change: the remote server, the name
    [tempfile.mkdtemp] hands out, and the order in which a [scipy] tree built
    on more points than fit one leaf compares them with a query point. *)
Record environment : Type := mk_environment {
  env_remote : string -> option GridFile;
  env_tmp : string;
  env_tree_order : list (Q * Q) -> Q * Q -> list nat
}.

Definition M (A : Type) : Type := world -> result A * world.

Definition ret {A} (a : A) : M A := fun w => (Ok a, w).

Definition raise {A} (e : exn) : M A := fun w => (Raise e, w).

Definition bind {A B} (m : M A) (k : A -> M B) : M B :=
  fun w =>
    match m w with
    | (Ok a, w') => k a w'
    | (Raise e, w') => (Raise e, w')
    end.

Definition lift {A} (r : result A) : M A := fun w => (r, w).

Declare Scope M_scope.
Delimit Scope M_scope with M.
Notation "x <- m ;; k" := (bind m (fun x => k))
  (at level 61, m at next level, right associativity) : M_scope.
Notation "m ;;; k" := (bind m (fun _ => k))
  (at level 61, right associativity) : M_scope.

Definition log (e : event) : M unit :=
  fun w => (Ok tt, mk_world (w_files w) (w_trace w ++ [e]) (w_warnings w)).

Definition warnings_warn (msg : string) : M unit :=
  fun w => (Ok tt, mk_world (w_files w) (w_trace w) (w_warnings w ++ [msg])).

Definition write_file (path : string) (g : GridFile) : M unit :=
  fun w => (Ok tt, mk_world (dict_set String.eqb (w_files w) path g)
                            (w_trace w) (w_warnings w)).

Definition read_file (path : string) : M (option GridFile) :=
  fun w => (Ok (dict_get String.eqb (w_files w) path), w).

(** A loop that appends one result per element. *)
Fixpoint mmap {A B} (f : A -> M B) (l : list A) : M (list B) :=
  match l with
  | [] => ret []
  | x :: xs =>
      (y <- f x ;;
       ys <- mmap f xs ;;
       ret (y :: ys))%M
  end.

(* ------------------------------------------------------------------ *)
(** ** numpy helpers *)

(** [np.repeat(xs, n)]: every element [n] times in a row. *)
Definition np_repeat {A} (xs : list A) (n : nat) : list A :=
  flat_map (fun x => repeat x n) xs.

(** [np.tile(xs, n)]: the whole sequence [n] times. *)
Definition np_tile {A} (xs : list A) (n : nat) : list A :=
  List.concat (repeat xs n).

(** [a[idx]] for an index array: [IndexError] past the end. *)
Definition take {A} (a : list A) (idx : list nat) : result (list A) :=
  rmap (fun i => match nth_error a i with
                 | Some x => Ok x
                 | None => Raise IndexError
                 end) idx.

(** [a[ts, is, js]] for three index arrays of one length. *)
Fixpoint take3 (a : ndarray3) (ts ix jx : list nat) : result (list float) :=
  match ts, ix, jx with
  | [], [], [] => Ok []
  | t :: ts', i :: is', j :: js' =>
      match getitem3 a t i j with
      | Raise e => Raise e
      | Ok x =>
          match take3 a ts' is' js' with
          | Raise e => Raise e
          | Ok xs => Ok (x :: xs)
          end
      end
  | _, _, _ => Raise IndexError
  end.

Fixpoint enumerate_from {A} (i : nat) (l : list A) : list (nat * A) :=
  match l with
  | [] => []
  | x :: xs => (i, x) :: enumerate_from (S i) xs
  end.

Definition enumerate {A} (l : list A) : list (nat * A) := enumerate_from 0 l.

(* ------------------------------------------------------------------ *)
(** ** class SeaSurfaceTempDownloader *)

Record SeaSurfaceTempDownloader : Type := mk_SeaSurfaceTempDownloader {
  sst_data_parent_dir : string;
  temp_dir : string;
  locations : DataFrame;
  start_date : Z;
  end_date : Z
}.

Definition LAT_COL : label := LStr "LAT".
Definition LON_COL : label := LStr "LON".

Definition tempfile_mkdtemp (env : environment) : M string :=
  (log (EvMkdtemp (env_tmp env)) ;;; ret (env_tmp env))%M.

(** [__init__]. *)
Definition init (env : environment) (locations : DataFrame)
    (start_date end_date : Z) (lat_col lon_col : label)
  : M SeaSurfaceTempDownloader :=
  (temp_dir <- tempfile_mkdtemp env ;;
   locations <- lift (select_columns locations [lat_col; lon_col]) ;;
   ret (mk_SeaSurfaceTempDownloader
          "ftp://ftp.cdc.noaa.gov/Datasets/noaa.oisst.v2.highres/"
          temp_dir locations start_date end_date))%M.

(** [locations[0]]. *)
Definition getitem0 (v : pyval) : result pyval :=
  match v with
  | PyList (x :: _) | PyTuple (x :: _) => Ok x
  | PyList [] | PyTuple [] => Raise IndexError
  | PyStr (String c _) => Ok (PyStr (String c EmptyString))
  | PyStr EmptyString => Raise IndexError
  | _ => Raise TypeError
  end.

Definition is_tuple_or_list (v : pyval) : bool :=
  match v with
  | PyList _ | PyTuple _ => true
  | _ => false
  end.

Definition is_float_or_int (v : pyval) : bool :=
  match v with
  | PyInt _ | PyFloat _ | PyNaN => true
  | _ => false
  end.

(** [from_tuples]: the frame built from the coordinates, with its columns
    renamed. *)
Definition from_tuples_frame (locations : pyval) : result DataFrame :=
  (location_peek <-? getitem0 locations ;;
   locations_df <-?
     (if is_tuple_or_list location_peek then pd_DataFrame locations
      else if is_float_or_int location_peek
           then pd_DataFrame (PyList [locations])
           else Raise TypeError) ;;
   set_columns locations_df [LAT_COL; LON_COL])%res.

Definition from_tuples (env : environment) (locations : pyval)
    (start_date end_date : Z) : M SeaSurfaceTempDownloader :=
  (locations_df <- lift (from_tuples_frame locations) ;;
   init env locations_df start_date end_date LAT_COL LON_COL)%M.

(** [read_dataset]: longitudes above 180 are brought down by 360, in the
    arithmetic of the array, binary64. *)
Definition normalize_lon (term : Q) : Q :=
  if Qle_bool term 180 then term else Q_of_float (float_of_Q term - 360)%float.

Definition read_dataset (local_data_dir : string) : M Dataset :=
  (log (EvOpenDataset local_data_dir) ;;;
   file <- read_file local_data_dir ;;
   match file with
   | None => raise FileNotFoundError
   | Some sst_data =>
       let lat := nc_lat sst_data in
       let lon := nc_lon sst_data in
       let sst := nc_sst sst_data in
       let time := nc_time sst_data in
       let lon := map normalize_lon lon in
       ret (mk_Dataset lat lon time sst)
   end)%M.

(** [build_2d_meshgrid]: [np.meshgrid(lat, lon)] flattened row by row, that
    is, for each [lon] in turn every [lat]. *)
Definition build_2d_meshgrid {A B} (lat : list A) (lon : list B) : list (A * B) :=
  flat_map (fun y => map (fun x => (x, y)) lat) lon.

(** [scipy]'s squared Euclidean distance between a point of the tree and
    the query point: the sum, from zero, of the squares of the differences,
    every operation in binary64. *)
Definition sqeuclidean (u v : Q * Q) : float :=
  let d0 := (float_of_Q (fst u) - float_of_Q (fst v))%float in
  let d1 := (float_of_Q (snd u) - float_of_Q (snd v))%float in
  (0 + d0 * d0 + d1 * d1)%float.

(** The scan of [KDTree.query] for one neighbour: the points are compared in
    turn with the nearest one so far, and a point takes its place only when
    its distance is strictly smaller ([d < distance_upper_bound]). *)
Fixpoint nearest_from (best : nat) (best_d : float) (visit : list nat)
    (data : list (Q * Q)) (x : Q * Q) : nat :=
  match visit with
  | [] => best
  | i :: rest =>
      match nth_error data i with
      | None => nearest_from best best_d rest data x
      | Some p =>
          let d := sqeuclidean p x in
          if PrimFloat.ltb d best_d
          then nearest_from i d rest data x
          else nearest_from best best_d rest data x
      end
  end.

(** [KDTree(data)] keeps at most [leafsize] points in a leaf. *)
Definition leafsize : nat := 10.

(** The order in which the tree compares its points with [x]. A tree of at
    most [leafsize] points is a single leaf, scanned in the order of the
    data. A larger tree goes through its leaves in an order that depends on
    its layout and on [x], given by the environment; positions left out of
    that order are compared after the others, and a position met again or
    outside the data changes nothing. *)
Definition tree_order (env : environment) (data : list (Q * Q)) (x : Q * Q)
  : list nat :=
  if (List.length data <=? leafsize)%nat then seq 0 (List.length data)
  else env_tree_order env data x ++ seq 0 (List.length data).

(** [KDTree(data).query(x)] for one point: the position in [data] of the
    first point, in the order of the tree, whose squared distance to [x] is
    the least. The search starts from an infinite upper bound, so that a
    point at an infinite (or undefined) distance is never taken: when there
    is no other, the position returned is [len(data)]. *)
Definition KDTree_query (env : environment) (data : list (Q * Q)) (x : Q * Q) : nat :=
  nearest_from (List.length data) infinity (tree_order env data x) data x.

(** [get_lat_lon_index]. *)
Definition get_lat_lon_index (env : environment) (self : SeaSurfaceTempDownloader)
    (lat lon : list Q) : result (list nat * list nat) :=
  let lat_idx := seq 0 (List.length lat) in
  let lon_idx := seq 0 (List.length lon) in
  let lat_lon_matrix := build_2d_meshgrid lat lon in
  let lat_lon_idx_matrix := build_2d_meshgrid lat_idx lon_idx in
  (queries <-? as_points (locations self) ;;
   let idx := map (KDTree_query env lat_lon_matrix) queries in
   locations_in_original_data <-? take lat_lon_idx_matrix idx ;;
   let lat_idx := map fst locations_in_original_data in
   let lon_idx := map snd locations_in_original_data in
   Ok (lat_idx, lon_idx))%res.

(** [get_time_index]: the dictionary comprehension, then the lookups. *)
Fixpoint regular_time_to_index_from (d : dict string nat)
    (items : list (nat * Z)) : result (dict string nat) :=
  match items with
  | [] => Ok d
  | (i, t) :: rest =>
      match date_plus_days t with
      | Raise e => Raise e
      | Ok o => regular_time_to_index_from (dict_set String.eqb d (str_date o) i) rest
      end
  end.

Definition get_time_index (dataset : Dataset)
    (list_of_regular_time : list Timestamp) : result (list nat) :=
  let timeline := ds_time dataset in
  (regular_time_to_index <-? regular_time_to_index_from [] (enumerate timeline) ;;
   rmap (fun regular_time =>
           let regular_time := split_space_head (str_Timestamp regular_time) in
           match dict_get String.eqb regular_time_to_index regular_time with
           | Some i => Ok i
           | None => Raise KeyError
           end) list_of_regular_time)%res.

(** [remote_to_local_dir_mapping]. *)
Definition year_to_timestamp (start_date end_date : Z) : dict Z (list Timestamp) :=
  fold_left (fun d time_stamp => dd_append Z.eqb d (Timestamp_year time_stamp) time_stamp)
            (date_range start_date end_date) [].

Definition file_name (year : Z) : string :=
  ("sst.day.mean." ++ str_int year ++ ".nc")%string.

Definition remote_to_local_dir_mapping (self : SeaSurfaceTempDownloader)
  : dict string (list (string * list Timestamp)) :=
  let year_to_timestamp := year_to_timestamp (start_date self) (end_date self) in
  fold_left
    (fun remote_to_local year =>
       let local_dir := os_path_join (temp_dir self) (file_name year) in
       let remote_url := (sst_data_parent_dir self ++ file_name year)%string in
       let dates := match dict_get Z.eqb year_to_timestamp year with
                    | Some l => l
                    | None => []
                    end in
       dd_append String.eqb remote_to_local remote_url (local_dir, dates))
    (dict_keys year_to_timestamp) [].

(** [download_to_local]: nothing is fetched when the local file exists. *)
Definition download_to_local (env : environment) (link_in dir_out : string) : M unit :=
  (log (EvExists dir_out) ;;;
   file <- read_file dir_out ;;
   match file with
   | Some _ => ret tt
   | None =>
       log (EvUrlretrieve link_in dir_out) ;;;
       match env_remote env link_in with
       | Some g => write_file dir_out g
       | None => raise URLError
       end
   end)%M.

(** One row of the table [download] returns. *)
Record OutputRow : Type := mk_OutputRow {
  DATE : Timestamp;
  LAT : Q;
  LON : Q;
  SST : float
}.

(** [np.array([dates, lat, lon, sst]).T]: one row per position. *)
Fixpoint transpose4 (dates : list Timestamp) (lat lon : list Q) (sst : list float)
  : list OutputRow :=
  match dates, lat, lon, sst with
  | d :: dates', a :: lat', o :: lon', s :: sst' =>
      mk_OutputRow d a o s :: transpose4 dates' lat' lon' sst'
  | _, _, _, _ => []
  end.

(** [pd.concat(result).reset_index(drop=True)]: nothing to concatenate is a
    [ValueError]. *)
Definition pd_concat (frames : list (list OutputRow)) : result (list OutputRow) :=
  match frames with
  | [] => Raise ValueError
  | _ => Ok (List.concat frames)
  end.

(** The Python literal [-9e35], i.e. the binary64 nearest to it. *)
Definition THRESHOLD : float := (-0x1.5aaada1203732p+119)%float.

(** [output.loc[output['SST'] < -9e35, 'SST'] = np.nan] on one row. *)
Definition mask_missing (row : OutputRow) : OutputRow :=
  if PrimFloat.ltb (SST row) THRESHOLD
  then mk_OutputRow (DATE row) (LAT row) (LON row) PrimFloat.nan
  else row.

Definition isnull_count (output : list OutputRow) : nat :=
  List.length (filter (fun row => PrimFloat.is_nan (SST row)) output).

Definition ALL_NULL_WARNING : string :=
  ("all the sst measurements are null values" ++
   "this is usually because the locations you provided are on the land")%string.

(** The body of the loop of [download], for one [(url, bundle)] item. *)
Definition download_year (env : environment) (self : SeaSurfaceTempDownloader)
    (item : string * list (string * list Timestamp)) : M (list OutputRow) :=
  let '(url, bundle) := item in
  match bundle with
  | [] => raise IndexError
  | (local_dir, all_dates_in_that_year) :: _ =>
      (download_to_local env url local_dir ;;;
       dataset <- read_dataset local_dir ;;
       time_index <- lift (get_time_index dataset all_dates_in_that_year) ;;
       lat_lon_index <- lift (get_lat_lon_index env self (ds_lat dataset) (ds_lon dataset)) ;;
       let '(lat_index, lon_index) := lat_lon_index in
       let time_index_stretched_to_match_dim :=
         np_repeat time_index (List.length lat_index) in
       let lat_index_stretched_to_match_dim :=
         np_tile lat_index (List.length time_index) in
       let lon_index_stretched_to_match_dim :=
         np_tile lon_index (List.length time_index) in
       sst <- lift (take3 (ds_sst dataset)
                      time_index_stretched_to_match_dim
                      lat_index_stretched_to_match_dim
                      lon_index_stretched_to_match_dim) ;;
       lat <- lift (take (ds_lat dataset) lat_index_stretched_to_match_dim) ;;
       lon <- lift (take (ds_lon dataset) lon_index_stretched_to_match_dim) ;;
       ret (transpose4 (np_repeat all_dates_in_that_year (List.length lat_index))
                       lat lon sst))%M
  end.

(** [download]. *)
Definition download (env : environment) (self : SeaSurfaceTempDownloader)
  : M (list OutputRow) :=
  (result <- mmap (download_year env self) (remote_to_local_dir_mapping self) ;;
   output <- lift (pd_concat result) ;;
   let null_values := isnull_count output in
   (if (null_values =? List.length output)%nat
    then warnings_warn ALL_NULL_WARNING
    else ret tt) ;;;
   ret (map mask_missing output))%M.

(** [download_sst]. *)
Definition download_sst (env : environment) (locations : locations_arg)
    (start_date end_date : Z) : M (list OutputRow) :=
  match locations with
  | ArgDataFrame df =>
      (downloader <- init env df start_date end_date LAT_COL LON_COL ;;
       download env downloader)%M
  | ArgValue (PyTuple _ as v) | ArgValue (PyList _ as v) =>
      (downloader <- from_tuples env v start_date end_date ;;
       download env downloader)%M
  | ArgValue (PyStr s) =>
      if (String.length s =? 2)%nat then raise TypeError
      else if (2 <? String.length s)%nat then raise TypeError
      else raise TypeError
  | ArgValue _ => raise TypeError
  end.

(* ------------------------------------------------------------------ *)
(** ** Auxiliary definitions used in the proofs *)

Definition month_day (n : Z) (leapyear : bool) : Z * Z :=
  (let month := Z.shiftr (n + 50) 5 in
   let preceding :=
     DAYS_BEFORE_MONTH month + (if (2 <? month) && leapyear then 1 else 0) in
   if n <? preceding then
     let month := month - 1 in
     let preceding :=
       preceding
       - (DAYS_IN_MONTH month + (if (month =? 2) && leapyear then 1 else 0)) in
     (month, n - preceding + 1)
   else (month, n - preceding + 1))%Z.

Definition Zrange (lo : Z) (n : nat) : list Z :=
  map (fun k => (lo + Z.of_nat k)%Z) (seq 0 n).

Definition month_day_ok (leapyear : bool) (n : Z) : bool :=
  let '(m, d) := month_day n leapyear in
  ((1 <=? m) && (m <=? 12) && (1 <=? d) && (d <=? 31))%Z.

Definition month_day_inv_ok (leapyear : bool) (n : Z) : bool :=
  let '(m, d) := month_day n leapyear in
  (DAYS_BEFORE_MONTH m + (if (2 <? m) && leapyear then 1 else 0) + d =? n + 1)%Z.

Fixpoint has_space (s : string) : bool :=
  match s with
  | EmptyString => false
  | String c s' => Ascii.eqb c " " || has_space s'
  end.

Definition unpad (s : string) : option Z :=
  option_map Z.of_uint (NilEmpty.uint_of_string s).

Definition zfill_ok (width : nat) (z : Z) : bool :=
  (String.length (zfill width (str_int z)) =? width)%nat &&
  match unpad (zfill width (str_int z)) with
  | Some z' => Z.eqb z' z
  | None => false
  end.

Definition ymd_in_range (d : ymd) : Prop :=
  (0 <= ymd_year d < 10000 /\ 0 <= ymd_month d < 100 /\ 0 <= ymd_day d < 100)%Z.

Definition decoded_date (t : Z) : ymd := ord2ymd (EPOCH_1800 + t).
Definition calendar_date (ts : Timestamp) : ymd := ord2ymd (ts_ordinal ts).
Definition time_axis_valid (dataset : Dataset) : Prop :=
  Forall (fun t => valid_ordinal (EPOCH_1800 + t) = true) (ds_time dataset).
Definition timestamps_valid (dates : list Timestamp) : Prop :=
  Forall (fun ts => valid_ordinal (ts_ordinal ts) = true) dates.
(** Index [i] of the time axis holds the day of timestamp [ts]. *)
Definition points_at (dataset : Dataset) (ts : Timestamp) (i : nat) : Prop :=
  exists t, nth_error (ds_time dataset) i = Some t /\ decoded_date t = calendar_date ts.

(** The work unit of one year: the remote file, and the local path with the
    year's dates. *)
Definition work_unit (self : SeaSurfaceTempDownloader) (entry : Z * list Timestamp)
  : string * list (string * list Timestamp) :=
  ((sst_data_parent_dir self ++ file_name (fst entry))%string,
   [(os_path_join (temp_dir self) (file_name (fst entry)), snd entry)]).

(** A rational that is a binary64 number: the conversion gives it back. *)
Definition binary64 (q : Q) : Prop := (Q_of_float (float_of_Q q) == q)%Q.

(** The order of binary64 numbers that are not NaN, as an order of triples:
    the sign class, then the exponent, then the mantissa. *)
Definition SFkey (x : spec_float) : Z * Z * Z :=
  match x with
  | S754_infinity true => (-2, 0, 0)
  | S754_finite true m e => (-1, - e, - Zpos m)
  | S754_zero _ => (0, 0, 0)
  | S754_finite false m e => (1, e, Zpos m)
  | S754_infinity false => (2, 0, 0)
  | S754_nan => (3, 0, 0)
  end%Z.

Definition key_lt (a b : Z * Z * Z) : Prop :=
  (fst (fst a) < fst (fst b) \/
   fst (fst a) = fst (fst b) /\
   (snd (fst a) < snd (fst b) \/ snd (fst a) = snd (fst b) /\ snd a < snd b))%Z.

(** The squared Euclidean distance of two points, in exact arithmetic. *)
Definition dist2 (p q : Q * Q) : Q :=
  ((fst p - fst q) * (fst p - fst q) + (snd p - snd q) * (snd p - snd q))%Q.

(** The point [q] has a cell of the grid at a finite computed distance. *)
Definition within_reach (lat lon : list Q) (q : Q * Q) : Prop :=
  exists a b,
    In a lat /\ In b lon /\ PrimFloat.ltb (sqeuclidean (a, b) q) infinity = true.

(** Cell [(i, j)] of the grid is a nearest one to the point [q], as far as
    the distances computed in binary64 tell: its distance is finite, and no
    cell has a smaller one. *)
Definition nearest_cell (lat lon : list Q) (q : Q * Q) (c : nat * nat) : Prop :=
  exists a b,
    nth_error lat (fst c) = Some a /\ nth_error lon (snd c) = Some b /\
    PrimFloat.ltb (sqeuclidean (a, b) q) infinity = true /\
    forall a' b', In a' lat -> In b' lon ->
                  PrimFloat.ltb (sqeuclidean (a', b') q) (sqeuclidean (a, b) q) = false.

(** The dictionary [read_dataset] builds from the variables of a file. *)
Definition dataset_of (g : GridFile) : Dataset :=
  mk_Dataset (nc_lat g) (map normalize_lon (nc_lon g)) (nc_time g) (nc_sst g).

(** The rows of one year, date by date and, within a date, cell by cell:
    [time_index] holds the time index of each date, [cells] the grid cell of
    each query location. *)
Definition year_rows (dataset : Dataset) (dates : list Timestamp)
    (time_index : list nat) (cells : list (nat * nat)) : list OutputRow :=
  flat_map
    (fun dt =>
       map (fun c =>
              mk_OutputRow (fst dt)
                (nth (fst c) (ds_lat dataset) 0%Q)
                (nth (snd c) (ds_lon dataset) 0%Q)
                (item3 (ds_sst dataset) (snd dt) (fst c) (snd c)))
           cells)
    (combine dates time_index).

(** The table [download] holds in [output] after [pd.concat], before the
    count of missing values and the translation of the sentinel. *)
Definition extracted_output (env : environment) (self : SeaSurfaceTempDownloader)
  : M (list OutputRow) :=
  (result <- mmap (download_year env self) (remote_to_local_dir_mapping self) ;;
   lift (pd_concat result))%M.

(** [frame] is the table of the year [entry]: read from some grid file [g]
    with the time index of each date of the year and the grid cell of each
    query location. *)
Definition year_frame (env : environment) (self : SeaSurfaceTempDownloader)
    (entry : Z * list Timestamp) (frame : list OutputRow) : Prop :=
  exists g time_index cells,
    get_time_index (dataset_of g) (snd entry) = Ok time_index /\
    get_lat_lon_index env self (nc_lat g) (map normalize_lon (nc_lon g))
    = Ok (map fst cells, map snd cells) /\
    List.length cells = List.length (df_rows (locations self)) /\
    frame = year_rows (dataset_of g) (snd entry) time_index cells.

(** The number of query locations. *)
Definition n_locations (self : SeaSurfaceTempDownloader) : nat :=
  List.length (df_rows (locations self)).

(** The fill value of the data set, the binary64 nearest to
    [-9.96921e+36]. *)
Definition SENTINEL : float := (-0x1.e000001989713p+122)%float.

(** How a row of the returned table relates to the row extracted for it:
    same date and cell; a value below the threshold has become NaN, a value
    at or above it is unchanged and is not NaN. *)
Definition translated (raw row : OutputRow) : Prop :=
  DATE row = DATE raw /\ LAT row = LAT raw /\ LON row = LON raw /\
  (PrimFloat.ltb (SST raw) THRESHOLD = true ->
   SST row = PrimFloat.nan /\ PrimFloat.is_nan (SST row) = true) /\
  (PrimFloat.leb THRESHOLD (SST raw) = true ->
   SST row = SST raw /\ PrimFloat.is_nan (SST row) = false).

(** What grouping by [key] has achieved after the elements [l]: the keys of
    the dictionary are distinct, each holds the elements of [l] with that key
    in order (there is one at least), and every element of [l] has its key
    in the dictionary. *)
Definition grouped {A K} (keq : K -> K -> bool) (key : A -> K)
    (d : dict K (list A)) (l : list A) : Prop :=
  NoDup (dict_keys d) /\
  (forall k vs, dict_get keq d k = Some vs ->
                vs <> [] /\ vs = filter (fun x => keq (key x) k) l) /\
  (forall x, In x l -> In (key x) (dict_keys d)).

(** The last key of the dictionary is above all the others. *)
Definition last_key_max {A} (d : dict Z (list A)) : Prop :=
  d = [] \/
  exists d' k vs, d = d' ++ [(k, vs)] /\ forall k', In k' (dict_keys d') -> (k' < k)%Z.

(** Grouping a list whose keys never decrease cuts it into consecutive
    runs. *)
Definition chunked {A} (key : A -> Z) (d : dict Z (list A)) (l : list A) : Prop :=
  List.concat (map snd d) = l /\
  (forall k, In k (dict_keys d) -> exists x, In x l /\ key x = k) /\
  last_key_max d.

(** The downloader [self] with the rows [rows] for its locations. *)
Definition with_locations (self : SeaSurfaceTempDownloader) (rows : list (list pyval))
  : SeaSurfaceTempDownloader :=
  mk_SeaSurfaceTempDownloader
    (sst_data_parent_dir self) (temp_dir self)
    (mk_DataFrame (df_columns (locations self)) rows)
    (start_date self) (end_date self).

(** Every one of the points [queries] has a cell of the grid of [g] at a
    finite computed distance. *)
Definition grid_reaches (g : GridFile) (queries : list (Q * Q)) : Prop :=
  Forall (within_reach (nc_lat g) (map normalize_lon (nc_lon g))) queries.

(** The grid file [g] can serve the dates [dates]: it has cells, its time
    axis decodes and holds each of the dates, and its temperatures have the
    shape of its three axes. *)
Definition grid_serves (g : GridFile) (dates : list Timestamp) : Prop :=
  nc_lat g <> [] /\ nc_lon g <> [] /\
  time_axis_valid (dataset_of g) /\
  (forall ts, In ts dates -> exists i, points_at (dataset_of g) ts i) /\
  shape3 (nc_sst g)
  = (List.length (nc_time g), List.length (nc_lat g), List.length (nc_lon g)).

(* ------------------------------------------------------------------ *)
(** ** A small world to run the code in

    A two by two grid (latitudes 0 and 1, raw longitudes 0 and 190) with
    365 days per yearly file, served for 2010 and 2011. *)

Definition NOAA_DIR : string := "ftp://ftp.cdc.noaa.gov/Datasets/noaa.oisst.v2.highres/".

Definition year_axis (year : Z) : list Z :=
  map (fun k => (ymd2ord year 1 1 - EPOCH_1800 + Z.of_nat k)%Z) (seq 0 365).

Definition example_grid (year : Z) (sst : nat -> nat -> nat -> float) : GridFile :=
  mk_GridFile [0%Q; 1%Q] [0%Q; 190%Q] (year_axis year)
              (mk_ndarray3 (365, 2, 2)%nat sst).

Definition example_env (sst : nat -> nat -> nat -> float) : environment :=
  mk_environment
    (fun url =>
       if String.eqb url (NOAA_DIR ++ "sst.day.mean.2010.nc")%string
       then Some (example_grid 2010 sst)
       else if String.eqb url (NOAA_DIR ++ "sst.day.mean.2011.nc")%string
            then Some (example_grid 2011 sst)
            else None)
    "/tmp/tmpsst"
    (fun _ _ => []).

Definition empty_world : world := mk_world [] [] [].

(** Sea everywhere but at the cell (0, 0). *)
Definition mixed_sst (t i j : nat) : float :=
  if ((i =? 0) && (j =? 0))%nat then SENTINEL else 20.5%float.

(** Land everywhere: every cell holds the fill value. *)
Definition land_sst (t i j : nat) : float := SENTINEL.

(** Every cell holds exactly the threshold. *)
Definition boundary_sst (t i j : nat) : float := THRESHOLD.

Definition example_locations : pyval :=
  PyList [PyTuple [PyInt 1; PyFloat (-169 # 1)]; PyTuple [PyInt 0; PyInt 0]].

Definition example_self : SeaSurfaceTempDownloader :=
  mk_SeaSurfaceTempDownloader NOAA_DIR "/tmp/tmpsst"
    (mk_DataFrame [LAT_COL; LON_COL]
                  [[PyInt 1; PyFloat (-169 # 1)]; [PyInt 0; PyInt 0]])
    (ymd2ord 2010 12 30) (ymd2ord 2011 1 2).

Definition example_table : list OutputRow :=
  Eval vm_compute in
    match fst (download (example_env mixed_sst) example_self empty_world) with
    | Ok table => table
    | Raise _ => []
    end.

Definition example_world' : world :=
  Eval vm_compute in snd (download (example_env mixed_sst) example_self empty_world).

(** One location, one day. *)
Definition one_day_self : SeaSurfaceTempDownloader :=
  mk_SeaSurfaceTempDownloader NOAA_DIR "/tmp/tmpsst"
    (mk_DataFrame [LAT_COL; LON_COL] [[PyInt 0; PyInt 0]])
    (ymd2ord 2010 12 30) (ymd2ord 2010 12 30).

Definition one_day_row (sst : float) : OutputRow :=
  mk_OutputRow (midnight (ymd2ord 2010 12 30)) 0%Q 0%Q sst.

(** A time axis of three days from 2010-12-30 on, and a request for the
    second of them at noon. *)
Definition three_days : Dataset :=
  mk_Dataset [] []
    [(ymd2ord 2010 12 30 - EPOCH_1800)%Z;
     (ymd2ord 2010 12 31 - EPOCH_1800)%Z;
     (ymd2ord 2011 1 1 - EPOCH_1800)%Z]
    (mk_ndarray3 (3, 0, 0)%nat (fun _ _ _ => SENTINEL)).

Definition noon_of_new_years_eve : Timestamp :=
  mk_Timestamp (ymd2ord 2010 12 31) 12 0 0.

(* ------------------------------------------------------------------ *)
(** ** Auxiliary definitions: the loop of [download] and its effects *)

(** The local path and the remote address that
    [remote_to_local_dir_mapping] gives the file of a year. *)
Definition local_path (self : SeaSurfaceTempDownloader) (year : Z) : string :=
  os_path_join (temp_dir self) (file_name year).

Definition remote_url (self : SeaSurfaceTempDownloader) (year : Z) : string :=
  (sst_data_parent_dir self ++ file_name year)%string.

(** What the body of the loop of [download] does once [read_dataset] has
    returned: the lines from [get_time_index] to the data frame, which have
    no effect on the world. *)
Definition year_table (env : environment) (self : SeaSurfaceTempDownloader)
    (dataset : Dataset)
    (all_dates_in_that_year : list Timestamp) : result (list OutputRow) :=
  (time_index <-? get_time_index dataset all_dates_in_that_year ;;
   lat_lon_index <-? get_lat_lon_index env self (ds_lat dataset) (ds_lon dataset) ;;
   let '(lat_index, lon_index) := lat_lon_index in
   let time_index_stretched_to_match_dim :=
     np_repeat time_index (List.length lat_index) in
   let lat_index_stretched_to_match_dim :=
     np_tile lat_index (List.length time_index) in
   let lon_index_stretched_to_match_dim :=
     np_tile lon_index (List.length time_index) in
   sst <-? take3 (ds_sst dataset)
             time_index_stretched_to_match_dim
             lat_index_stretched_to_match_dim
             lon_index_stretched_to_match_dim ;;
   lat <-? take (ds_lat dataset) lat_index_stretched_to_match_dim ;;
   lon <-? take (ds_lon dataset) lon_index_stretched_to_match_dim ;;
   Ok (transpose4 (np_repeat all_dates_in_that_year (List.length lat_index))
                  lat lon sst))%res.

(** The grid file the loop body reads for a year: the local file when there
    is one, what the server has under the address otherwise. *)
Definition available (env : environment) (w : world) (url local_dir : string)
  : option GridFile :=
  match dict_get String.eqb (w_files w) local_dir with
  | Some g => Some g
  | None => env_remote env url
  end.

(** The outcome of the loop body for the year [entry], in a world where the
    files are those of [w]. *)
Definition year_result (env : environment) (self : SeaSurfaceTempDownloader)
    (w : world) (entry : Z * list Timestamp) : result (list OutputRow) :=
  match available env w (remote_url self (fst entry)) (local_path self (fst entry)) with
  | Some g => year_table env self (dataset_of g) (snd entry)
  | None => Raise URLError
  end.

(** The world the loop body leaves for one year. *)
Definition after_year (env : environment) (url local_dir : string) (w : world) : world :=
  match dict_get String.eqb (w_files w) local_dir with
  | Some _ =>
      mk_world (w_files w)
               (w_trace w ++ [EvExists local_dir; EvOpenDataset local_dir])
               (w_warnings w)
  | None =>
      match env_remote env url with
      | Some g =>
          mk_world (dict_set String.eqb (w_files w) local_dir g)
                   (w_trace w ++ [EvExists local_dir; EvUrlretrieve url local_dir;
                                  EvOpenDataset local_dir])
                   (w_warnings w)
      | None =>
          mk_world (w_files w)
                   (w_trace w ++ [EvExists local_dir; EvUrlretrieve url local_dir])
                   (w_warnings w)
      end
  end.

(** The file and network operations of the loop body for the year [entry],
    seen from the world [w] the loop started in: the retrieval takes place
    only when the year's local file is not there. *)
Definition year_events (self : SeaSurfaceTempDownloader) (w : world)
    (entry : Z * list Timestamp) : list event :=
  let local_dir := local_path self (fst entry) in
  EvExists local_dir ::
  match dict_get String.eqb (w_files w) local_dir with
  | Some _ => []
  | None => [EvUrlretrieve (remote_url self (fst entry)) local_dir]
  end ++ [EvOpenDataset local_dir].

(** The table [download] returns, from the tables of the years. *)
Definition assemble (frames : list (list OutputRow)) : result (list OutputRow) :=
  (output <-? pd_concat frames ;; Ok (map mask_missing output))%res.

(** [row] is the list or the tuple of the two values [cells]. *)
Definition is_pair (row : pyval) (cells : list pyval) : Prop :=
  (row = PyList cells \/ row = PyTuple cells) /\ List.length cells = 2.

(** The world after [tempfile.mkdtemp]. *)
Definition after_mkdtemp (env : environment) (w : world) : world :=
  mk_world (w_files w) (w_trace w ++ [EvMkdtemp (env_tmp env)]) (w_warnings w).

(** [rows] is the group of rows of the date [d] in a run that left the
    files [files]: one row per query location, in the order of the
    locations, each read from the year's local file, in the grid cell
    [get_lat_lon_index] gives for that location and at the time index
    [get_time_index] gives for the date. *)
Definition date_group (env : environment) (self : SeaSurfaceTempDownloader)
    (files : dict string GridFile) (d : Timestamp) (rows : list OutputRow) : Prop :=
  exists g t cells,
    dict_get String.eqb files (local_path self (Timestamp_year d)) = Some g /\
    get_time_index (dataset_of g) [d] = Ok [t] /\
    get_lat_lon_index env self (nc_lat g) (map normalize_lon (nc_lon g))
    = Ok (map fst cells, map snd cells) /\
    List.length cells = n_locations self /\
    rows = map (fun c =>
                  mk_OutputRow d
                    (nth (fst c) (nc_lat g) 0%Q)
                    (nth (snd c) (map normalize_lon (nc_lon g)) 0%Q)
                    (item3 (nc_sst g) t (fst c) (snd c)))
               cells.

(** More of the small world. *)

(** A world whose temporary directory already holds a file for 2010, with
    land in every cell. *)
Definition cached_world : world :=
  mk_world [("/tmp/tmpsst/sst.day.mean.2010.nc"%string, example_grid 2010 land_sst)]
           [] [].

(** A server that has nothing. *)
Definition dead_env : environment := mk_environment (fun _ => None) "/tmp/other" (fun _ _ => []).

(** The last day of 2011 and the first of 2012; the server of the small
    world has no file for 2012. *)
Definition new_year_2012_self : SeaSurfaceTempDownloader :=
  mk_SeaSurfaceTempDownloader NOAA_DIR "/tmp/tmpsst"
    (mk_DataFrame [LAT_COL; LON_COL] [[PyInt 0; PyInt 0]])
    (ymd2ord 2011 12 31) (ymd2ord 2012 1 1).

(** A server whose file for the leap year 2012 has 365 days only: the 31st
    of December is not on its time axis. *)
Definition short_leap_year_env : environment :=
  mk_environment
    (fun url =>
       if String.eqb url (NOAA_DIR ++ "sst.day.mean.2012.nc")%string
       then Some (example_grid 2012 mixed_sst)
       else None)
    "/tmp/tmpsst"
    (fun _ _ => []).

Definition end_of_2012_self : SeaSurfaceTempDownloader :=
  mk_SeaSurfaceTempDownloader NOAA_DIR "/tmp/tmpsst"
    (mk_DataFrame [LAT_COL; LON_COL] [[PyInt 0; PyInt 0]])
    (ymd2ord 2012 12 30) (ymd2ord 2012 12 31).

(** The dates the wrong way round. *)
Definition reversed_self : SeaSurfaceTempDownloader :=
  mk_SeaSurfaceTempDownloader NOAA_DIR "/tmp/tmpsst"
    (mk_DataFrame [LAT_COL; LON_COL] [[PyInt 0; PyInt 0]])
    (ymd2ord 2011 1 2) (ymd2ord 2010 12 30).

(** No location at all. *)
Definition nowhere_self : SeaSurfaceTempDownloader :=
  mk_SeaSurfaceTempDownloader NOAA_DIR "/tmp/tmpsst"
    (mk_DataFrame [LAT_COL; LON_COL] [])
    (ymd2ord 2010 12 30) (ymd2ord 2011 1 2).

(** A frame of stations with a name, the longitude and the latitude. *)
Definition stations : DataFrame :=
  mk_DataFrame [LStr "name"; LStr "LON"; LStr "LAT"]
               [[PyStr "buoy"; PyFloat (-169 # 1); PyInt 1];
                [PyStr "pier"; PyInt 0; PyInt 0]].

(** A time axis on which the 31st of December 2010 stands twice. *)
Definition repeated_day : Dataset :=
  mk_Dataset [] []
    [(ymd2ord 2010 12 30 - EPOCH_1800)%Z;
     (ymd2ord 2010 12 31 - EPOCH_1800)%Z;
     (ymd2ord 2010 12 31 - EPOCH_1800)%Z]
    (mk_ndarray3 (3, 0, 0)%nat (fun _ _ _ => SENTINEL)).

(** Two latitudes, the binary64 numbers written -0.2 and 1.2, one longitude,
    and a location half-way between the two latitudes as they are written. *)
Definition near_tie_lat : list Q :=
  Eval vm_compute in [Q_of_float (-0.2)%float; Q_of_float 1.2%float].

Definition near_tie_self : SeaSurfaceTempDownloader :=
  mk_SeaSurfaceTempDownloader NOAA_DIR "/tmp/tmpsst"
    (mk_DataFrame [LAT_COL; LON_COL] [[PyFloat (1 # 2); PyInt 0]])
    (ymd2ord 2010 12 30) (ymd2ord 2010 12 30).


(** A four by four grid of quarter degrees around the point (10, 20), which
    is at the same distance of its four middle cells; and an environment in
    which the tree comes to the cell (1, 2), at position 9, first. *)
Definition quarter_degree_lat : list Q := [77 # 8; 79 # 8; 81 # 8; 83 # 8]%Q.
Definition quarter_degree_lon : list Q := [157 # 8; 159 # 8; 161 # 8; 163 # 8]%Q.

Definition centre_self : SeaSurfaceTempDownloader :=
  mk_SeaSurfaceTempDownloader NOAA_DIR "/tmp/tmpsst"
    (mk_DataFrame [LAT_COL; LON_COL] [[PyInt 10; PyInt 20]])
    (ymd2ord 2010 12 30) (ymd2ord 2010 12 30).

Definition ninth_first_env : environment :=
  mk_environment (fun _ => None) "/tmp/other" (fun _ _ => [9%nat]).

(* ------------------------------------------------------------------ *)
(** * Properties

    First the calendar and the strings the code relies on, then each method
    of the class in turn, then [download] as a whole. *)

(** ** The calendar *)




Section CalendarFacts.
Open Scope Z_scope.

Lemma Zrange_In lo n z : lo <= z < lo + Z.of_nat n -> In z (Zrange lo n).
Proof.
  intros H. unfold Zrange. apply in_map_iff.
  exists (Z.to_nat (z - lo)). split; [lia|]. apply in_seq. lia.
Qed.

Lemma Zrange_forallb (P : Z -> bool) lo hi :
  forallb P (Zrange lo (Z.to_nat (hi - lo))) = true ->
  forall z, lo <= z < hi -> P z = true.
Proof.
  intros H z Hz. rewrite forallb_forall in H. apply H, Zrange_In. lia.
Qed.

Lemma year_bracket o :
  days_before_year (ymd_year (ord2ymd o)) < o
  <= days_before_year (ymd_year (ord2ymd o) + 1).
Proof.
  unfold ord2ymd, days_before_year, DI400Y, DI100Y, DI4Y.
  cbv zeta.
  match goal with |- context [if ?c then _ else _] => destruct c eqn:E end.
  - cbn [ymd_year]. apply orb_true_iff in E. rewrite !Z.eqb_eq in E.
    Z.to_euclidean_division_equations; lia.
  - apply orb_false_iff in E. rewrite !Z.eqb_neq in E.
    match goal with |- context [if ?c then _ else _] => destruct c end;
      cbn [ymd_year]; Z.to_euclidean_division_equations; lia.
Qed.

Lemma days_before_year_mono y1 y2 :
  y1 <= y2 -> days_before_year y1 <= days_before_year y2.
Proof.
  unfold days_before_year. cbv zeta. intros H.
  Z.to_euclidean_division_equations; lia.
Qed.

Lemma ord2ymd_year_mono o1 o2 :
  o1 <= o2 -> ymd_year (ord2ymd o1) <= ymd_year (ord2ymd o2).
Proof.
  intros H.
  destruct (Z_le_gt_dec (ymd_year (ord2ymd o1)) (ymd_year (ord2ymd o2))) as [|G]; [assumption|].
  pose proof (year_bracket o1) as [B1 _].
  pose proof (year_bracket o2) as [_ B2].
  assert (days_before_year (ymd_year (ord2ymd o2) + 1)
          <= days_before_year (ymd_year (ord2ymd o1)))
    by (apply days_before_year_mono; lia).
  lia.
Qed.

Lemma ord2ymd_year_range o :
  valid_ordinal o = true -> 1 <= ymd_year (ord2ymd o) <= 9999.
Proof.
  unfold valid_ordinal, MINORDINAL, MAXORDINAL. intros H.
  apply andb_true_iff in H. rewrite !Z.leb_le in H.
  pose proof (year_bracket o) as [B1 B2].
  split.
  - destruct (Z_lt_le_dec (ymd_year (ord2ymd o)) 1) as [G|]; [|assumption].
    assert (days_before_year (ymd_year (ord2ymd o) + 1) <= days_before_year 1)
      by (apply days_before_year_mono; lia).
    change (days_before_year 1) with 0 in *. lia.
  - destruct (Z_lt_le_dec 9999 (ymd_year (ord2ymd o))) as [G|]; [|assumption].
    assert (days_before_year 10000 <= days_before_year (ymd_year (ord2ymd o)))
      by (apply days_before_year_mono; lia).
    change (days_before_year 10000) with 3652059 in *. lia.
Qed.


Lemma month_day_range leapyear n :
  0 <= n < 365 ->
  1 <= fst (month_day n leapyear) <= 12 /\ 1 <= snd (month_day n leapyear) <= 31.
Proof.
  intros H.
  assert (month_day_ok leapyear n = true) as C.
  { apply (@Zrange_forallb (month_day_ok leapyear) 0 365); [|lia].
    destruct leapyear; vm_compute; reflexivity. }
  unfold month_day_ok in C. destruct (month_day n leapyear) as [m d].
  rewrite !andb_true_iff, !Z.leb_le in C. cbn. lia.
Qed.

Lemma ord2ymd_month_day_range o :
  1 <= ymd_month (ord2ymd o) <= 12 /\ 1 <= ymd_day (ord2ymd o) <= 31.
Proof.
  unfold ord2ymd, DI400Y, DI100Y, DI4Y. cbv zeta.
  match goal with |- context [if ?c then _ else _] => destruct c eqn:E end.
  - cbn. lia.
  - match goal with
    | |- context [Z.shiftr (?n + 50) 5] =>
        match goal with
        | |- context [(if (_ <? _) && ?l then 1 else 0)] =>
            pose proof (@month_day_range l n) as R
        end
    end.
    unfold month_day in R. cbv zeta in R.
    match type of R with ?A -> _ => assert A as HA by (apply Z.mod_pos_bound; lia) end.
    specialize (R HA). clear HA.
    match goal with |- context [if ?c then _ else _] => destruct c end; cbn in *; exact R.
Qed.

End CalendarFacts.
Section CalendarRoundTrip.
Open Scope Z_scope.


Lemma month_day_inverse leapyear n :
  0 <= n < 365 ->
  DAYS_BEFORE_MONTH (fst (month_day n leapyear))
  + (if (2 <? fst (month_day n leapyear)) && leapyear then 1 else 0)
  + snd (month_day n leapyear) = n + 1.
Proof.
  intros H.
  assert (month_day_inv_ok leapyear n = true) as C.
  { apply (@Zrange_forallb (month_day_inv_ok leapyear) 0 365); [|lia].
    destruct leapyear; vm_compute; reflexivity. }
  unfold month_day_inv_ok in C. destruct (month_day n leapyear) as [m d].
  cbn. now apply Z.eqb_eq in C.
Qed.

Lemma is_leap_spec y :
  is_leap y = true <-> (y mod 4 = 0 /\ (y mod 100 <> 0 \/ y mod 400 = 0)).
Proof.
  unfold is_leap.
  rewrite andb_true_iff, orb_true_iff, negb_true_iff, Z.eqb_neq, !Z.eqb_eq.
  tauto.
Qed.

Lemma ord2ymd_unfold o :
  ord2ymd o =
  let n400 := (o - 1) / 146097 in
  let r400 := (o - 1) mod 146097 in
  let n100 := r400 / 36524 in
  let r100 := r400 mod 36524 in
  let n4 := r100 / 1461 in
  let r4 := r100 mod 1461 in
  let n1 := r4 / 365 in
  let n := r4 mod 365 in
  let year := n400 * 400 + 1 + n100 * 100 + n4 * 4 + n1 in
  if (n1 =? 4) || (n100 =? 4) then mk_ymd (year - 1) 12 31
  else
    let leapyear := (n1 =? 3) && (negb (n4 =? 24) || (n100 =? 3)) in
    mk_ymd year (fst (month_day n leapyear)) (snd (month_day n leapyear)).
Proof.
  unfold ord2ymd, month_day, DI400Y, DI100Y, DI4Y. cbv zeta.
  repeat match goal with |- context [if ?c then _ else _] => destruct c end;
    reflexivity.
Qed.

Lemma ymd2ord_ord2ymd o :
  ymd2ord (ymd_year (ord2ymd o)) (ymd_month (ord2ymd o)) (ymd_day (ord2ymd o)) = o.
Proof.
  rewrite ord2ymd_unfold. cbv zeta.
  set (n400 := (o - 1) / 146097).
  set (r400 := (o - 1) mod 146097).
  set (n100 := r400 / 36524).
  set (r100 := r400 mod 36524).
  set (n4 := r100 / 1461).
  set (r4 := r100 mod 1461).
  set (n1 := r4 / 365).
  set (n := r4 mod 365).
  assert (o - 1 = 146097 * n400 + r400 /\ 0 <= r400 < 146097) as [E400 B400]
    by (subst n400 r400; split; [apply Z.div_mod; lia | apply Z.mod_pos_bound; lia]).
  assert (r400 = 36524 * n100 + r100 /\ 0 <= r100 < 36524) as [E100 B100]
    by (subst n100 r100; split; [apply Z.div_mod; lia | apply Z.mod_pos_bound; lia]).
  assert (r100 = 1461 * n4 + r4 /\ 0 <= r4 < 1461) as [E4 B4]
    by (subst n4 r4; split; [apply Z.div_mod; lia | apply Z.mod_pos_bound; lia]).
  assert (r4 = 365 * n1 + n /\ 0 <= n < 365) as [E1 B1]
    by (subst n1 n; split; [apply Z.div_mod; lia | apply Z.mod_pos_bound; lia]).
  clearbody n400 r400 n100 r100 n4 r4 n1 n.
  destruct ((n1 =? 4) || (n100 =? 4))%bool eqn:E.
  - cbn [ymd_year ymd_month ymd_day]. unfold ymd2ord, days_before_month.
    apply orb_true_iff in E. rewrite !Z.eqb_eq in E.
    match goal with |- context [is_leap ?y] =>
      assert (is_leap y = true) as L
    end.
    { apply is_leap_spec. Z.to_euclidean_division_equations; lia. }
    rewrite L. cbn. unfold days_before_year. cbv zeta.
    Z.to_euclidean_division_equations; lia.
  - apply orb_false_iff in E. rewrite !Z.eqb_neq in E.
    cbn [ymd_year ymd_month ymd_day].
    set (leapyear := ((n1 =? 3) && (negb (n4 =? 24) || (n100 =? 3)))%bool).
    pose proof (@month_day_inverse leapyear n B1) as R.
    unfold ymd2ord, days_before_month.
    match goal with |- context [is_leap ?y] =>
      assert (is_leap y = leapyear) as L
    end.
    { subst leapyear. apply eq_true_iff_eq.
      rewrite is_leap_spec, andb_true_iff, orb_true_iff, negb_true_iff,
        Z.eqb_neq, !Z.eqb_eq.
      Z.to_euclidean_division_equations; lia. }
    rewrite L. unfold days_before_year. cbv zeta.
    Z.to_euclidean_division_equations; lia.
Qed.

Lemma ord2ymd_inj o1 o2 : ord2ymd o1 = ord2ymd o2 -> o1 = o2.
Proof.
  intros H. rewrite <- (ymd2ord_ord2ymd o1), <- (ymd2ord_ord2ymd o2), H.
  reflexivity.
Qed.
End CalendarRoundTrip.

(** ** Binary64 arithmetic *)

Section Binary64Facts.
Open Scope Z_scope.

Lemma digits2_pos_bounds n :
  2 ^ (Zpos (digits2_pos n) - 1) <= Zpos n < 2 ^ Zpos (digits2_pos n).
Proof.
  induction n as [n IH|n IH|]; cbn [digits2_pos].
  - rewrite Pos2Z.inj_succ.
    replace (Z.succ (Zpos (digits2_pos n)) - 1) with (Z.succ (Zpos (digits2_pos n) - 1))
      by lia.
    rewrite !Z.pow_succ_r by lia. lia.
  - rewrite Pos2Z.inj_succ.
    replace (Z.succ (Zpos (digits2_pos n)) - 1) with (Z.succ (Zpos (digits2_pos n) - 1))
      by lia.
    rewrite !Z.pow_succ_r by lia. lia.
  - cbn. lia.
Qed.

Lemma digits2_pos_le n k : 0 <= k -> Zpos n < 2 ^ k -> Zpos (digits2_pos n) <= k.
Proof.
  intros K L. pose proof (digits2_pos_bounds n) as [Lo _].
  destruct (Z_le_gt_dec (Zpos (digits2_pos n)) k) as [|G]; [assumption|].
  assert (2 ^ k <= 2 ^ (Zpos (digits2_pos n) - 1)) by (apply Z.pow_le_mono_r; lia).
  lia.
Qed.

Lemma iter_xO_mul n k : Zpos (Pos.iter xO n k) = Zpos n * 2 ^ Zpos k.
Proof.
  induction k as [|k IH] using Pos.peano_ind.
  - cbn. lia.
  - rewrite Pos.iter_succ, Pos2Z.inj_xO, IH, Pos2Z.inj_succ, Z.pow_succ_r by lia. lia.
Qed.

Lemma digits2_pos_iter n k :
  digits2_pos (Pos.iter xO n k) = (digits2_pos n + k)%positive.
Proof.
  induction k as [|k IH] using Pos.peano_ind.
  - cbn. lia.
  - rewrite Pos.iter_succ. cbn [digits2_pos]. rewrite IH. lia.
Qed.

(** Rounding a number that fits the format changes nothing but its
    representation. *)
Lemma binary_round_aux_exact s n e :
  Zpos (digits2_pos n) = 53 -> -1074 <= e <= 971 ->
  binary_round_aux prec emax s (Zpos n) e loc_Exact = S754_finite s n e.
Proof.
  intros D E. unfold binary_round_aux.
  assert (shr_fexp prec emax (Zpos n) e loc_Exact
          = ({| shr_m := Zpos n; shr_r := false; shr_s := false |}, e)) as Sh.
  { unfold shr_fexp, shr. cbn [Zdigits2 shr_record_of_loc]. rewrite D.
    unfold fexp, emin, prec, emax.
    replace (Z.max (53 + e - 53) (3 - 1024 - 53) - e) with 0 by lia. reflexivity. }
  rewrite Sh. cbn [shr_m loc_of_shr_record round_nearest_even]. rewrite Sh.
  cbn [shr_m]. unfold prec, emax.
  destruct (Z.leb_spec e (1024 - 53)); [reflexivity|lia].
Qed.

Lemma binary_round_exact s n e :
  Zpos (digits2_pos n) <= 53 ->
  -1074 <= e - (53 - Zpos (digits2_pos n)) -> e - (53 - Zpos (digits2_pos n)) <= 971 ->
  exists n' e',
    binary_round prec emax s n e = S754_finite s n' e' /\
    e' <= e /\ Zpos n' = Zpos n * 2 ^ (e - e').
Proof.
  intros D Lo Hi. unfold binary_round.
  assert (fexp prec emax (Zpos (digits2_pos n) + e) = e - (53 - Zpos (digits2_pos n)))
    as -> by (unfold fexp, emin, prec, emax; lia).
  unfold shl_align.
  destruct (e - (53 - Zpos (digits2_pos n)) - e) as [|p|p] eqn:S.
  - exists n, e. rewrite binary_round_aux_exact by lia.
    split; [reflexivity|]. split; [lia|]. rewrite Z.sub_diag. cbn. lia.
  - lia.
  - exists (Pos.iter xO n p), (e - (53 - Zpos (digits2_pos n))).
    rewrite binary_round_aux_exact.
    + split; [reflexivity|]. split; [lia|]. rewrite iter_xO_mul. f_equal. f_equal. lia.
    + rewrite digits2_pos_iter. lia.
    + lia.
Qed.

End Binary64Facts.


Section Binary64Order.

Lemma SFltb_key x y :
  SFltb x y = true <->
  x <> S754_nan /\ y <> S754_nan /\ key_lt (SFkey x) (SFkey y).
Proof.
  unfold SFltb, SFcompare, key_lt.
  destruct x as [sx|sx| |sx mx ex]; destruct y as [sy|sy| |sy my ey];
    try destruct sx; try destruct sy; cbn [SFkey fst snd];
    try (split; [discriminate|intros (_ & _ & K); lia]);
    try (split; [intros _; repeat split; try discriminate; lia|reflexivity]);
    try (split; [discriminate|intros (N1 & N2 & _); congruence]).
  - rewrite Pos.compare_cont_spec. cbn [Pos.switch_Eq].
    destruct (Z.compare_spec ex ey); destruct (Pos.compare_spec mx my); cbn [CompOpp];
      (split; [try discriminate; intros _; repeat split; try discriminate; lia
              |try reflexivity; intros (_ & _ & K); lia]).
  - rewrite Pos.compare_cont_spec. cbn [Pos.switch_Eq].
    destruct (Z.compare_spec ex ey); destruct (Pos.compare_spec mx my);
      (split; [try discriminate; intros _; repeat split; try discriminate; lia
              |try reflexivity; intros (_ & _ & K); lia]).
Qed.

Lemma SFltb_trans x y z :
  SFltb x y = true -> SFltb y z = true -> SFltb x z = true.
Proof.
  rewrite !SFltb_key. unfold key_lt. intros (Nx & _ & A) (_ & Nz & B).
  split; [exact Nx|]. split; [exact Nz|]. lia.
Qed.

Lemma SFltb_irrefl x : SFltb x x = false.
Proof.
  destruct (SFltb x x) eqn:E; [|reflexivity].
  apply SFltb_key in E as (_ & _ & K). unfold key_lt in K. lia.
Qed.

Lemma ltb_trans x y z :
  PrimFloat.ltb x y = true -> PrimFloat.ltb y z = true -> PrimFloat.ltb x z = true.
Proof. rewrite !ltb_spec. apply SFltb_trans. Qed.

Lemma ltb_irrefl x : PrimFloat.ltb x x = false.
Proof. rewrite ltb_spec. apply SFltb_irrefl. Qed.

Lemma ltb_asym x y : PrimFloat.ltb x y = true -> PrimFloat.ltb y x = false.
Proof.
  intros H. destruct (PrimFloat.ltb y x) eqn:E; [|reflexivity].
  now rewrite <- (ltb_irrefl x), (ltb_trans H E).
Qed.

(** A finite binary64 is a zero or a number with a mantissa. *)
Lemma is_finite_SF x :
  PrimFloat.is_finite x = true ->
  (exists s, Prim2SF x = S754_zero s) \/ (exists s m e, Prim2SF x = S754_finite s m e).
Proof.
  unfold PrimFloat.is_finite, PrimFloat.is_nan, PrimFloat.is_infinity.
  rewrite !eqb_spec, abs_spec. change (Prim2SF infinity) with (S754_infinity false).
  destruct (Prim2SF x) as [s|s| |s m e] eqn:E.
  - eauto.
  - destruct s; discriminate.
  - discriminate.
  - eauto 6.
Qed.

Lemma sub_diag x : PrimFloat.is_finite x = true -> (x - x)%float = 0%float.
Proof.
  intros F. apply Prim2SF_inj. rewrite sub_spec. change (Prim2SF 0) with (S754_zero false).
  destruct (@is_finite_SF x F) as [[s E]|(s & m & e & E)]; rewrite E.
  - now destruct s.
  - unfold SF64sub, SFsub. rewrite Z.min_id. unfold shl_align.
    replace (e - e)%Z with 0%Z by lia. cbn [fst].
    replace (cond_Zopp s (Z.pos m) - cond_Zopp s (Z.pos m))%Z with 0%Z by lia.
    reflexivity.
Qed.

End Binary64Order.

Section Longitude.
Open Scope Z_scope.

Lemma valid_finite_mantissa x s m e :
  Prim2SF x = S754_finite s m e ->
  Zpos m < 2 ^ 53 /\ -1074 <= e <= 971 /\ (2 ^ 52 <= Zpos m \/ e = -1074).
Proof.
  intros E. pose proof (Prim2SF_valid x) as V. rewrite E in V.
  cbn [valid_binary] in V. unfold bounded, canonical_mantissa, fexp, emin, prec, emax in V.
  apply andb_true_iff in V as [C B]. apply Z.eqb_eq in C. apply Z.leb_le in B.
  pose proof (digits2_pos_bounds m) as [Lo Hi].
  assert (Zpos (digits2_pos m) <= 53) as D by lia.
  split.
  - eapply Z.lt_le_trans; [exact Hi|]. apply Z.pow_le_mono_r; lia.
  - split; [lia|].
    destruct (Z.eq_dec e (-1074)) as [->|N]; [now right|left].
    assert (Zpos (digits2_pos m) = 53) as D53 by lia.
    rewrite D53 in Lo. exact Lo.
Qed.

Lemma scaled_value (n n' : positive) e e' :
  e' <= e -> Zpos n' = Zpos n * 2 ^ (e - e') ->
  (inject_Z (Zpos n') * 2 ^ e' == inject_Z (Zpos n) * 2 ^ e)%Q.
Proof.
  intros L ->. rewrite inject_Z_mult, Zpower_Qpower by lia.
  replace e with ((e - e') + e') at 2 by lia.
  rewrite Qpower_plus by discriminate. change (inject_Z 2) with 2%Q.
  now rewrite Qmult_assoc.
Qed.


Lemma pow2_neg46 : (2 ^ (-46) == 1 # 70368744177664)%Q.
Proof. reflexivity. Qed.

Lemma pow2_neg43 : (2 ^ (-43) == 1 # 8796093022208)%Q.
Proof. reflexivity. Qed.

(** A binary64 strictly between 180 and 360 has exponent -45 or -44. *)
Lemma lon_exponent (m : positive) e :
  Zpos m < 2 ^ 53 -> (2 ^ 52 <= Zpos m \/ e = -1074) -> -1074 <= e <= 971 ->
  (180 < inject_Z (Zpos m) * 2 ^ e)%Q -> (inject_Z (Zpos m) * 2 ^ e < 360)%Q ->
  (e = -45 /\ 6333186975989760 < Zpos m) \/ (e = -44 /\ Zpos m < 6333186975989760).
Proof.
  intros Hi Lo E G L.
  assert (0 < inject_Z (Zpos m))%Q as Pa by (rewrite <- (Zlt_Qlt 0); lia).
  assert (inject_Z (Zpos m) < inject_Z (2 ^ 53))%Q as Ha by (rewrite <- Zlt_Qlt; exact Hi).
  destruct (Z_le_gt_dec e (-46)) as [Small|NotSmall].
  { exfalso.
    assert (2 ^ e <= 2 ^ (-46))%Q as P by (apply Qpower_le_compat_l; [lia|discriminate]).
    rewrite pow2_neg46 in P.
    assert (inject_Z (Zpos m) * 2 ^ e <= inject_Z (Zpos m) * (1 # 70368744177664))%Q as Q1
      by (apply Qmult_le_l; assumption).
    assert (inject_Z (Zpos m) * (1 # 70368744177664)
            < inject_Z (2 ^ 53) * (1 # 70368744177664))%Q as Q2
      by (apply Qmult_lt_r; [reflexivity|exact Ha]).
    assert (inject_Z (2 ^ 53) * (1 # 70368744177664) == 128)%Q as Q3 by reflexivity.
    lra. }
  destruct (Z_le_gt_dec (-43) e) as [Big|NotBig].
  { exfalso. destruct Lo as [Lo|Lo]; [|lia].
    assert (2 ^ (-43) <= 2 ^ e)%Q as P by (apply Qpower_le_compat_l; [lia|discriminate]).
    rewrite pow2_neg43 in P.
    assert (inject_Z (Zpos m) * (1 # 8796093022208) <= inject_Z (Zpos m) * 2 ^ e)%Q as Q1
      by (apply Qmult_le_l; assumption).
    assert (inject_Z (2 ^ 52) <= inject_Z (Zpos m))%Q as Hb by (rewrite <- Zle_Qle; exact Lo).
    assert (inject_Z (2 ^ 52) * (1 # 8796093022208)
            <= inject_Z (Zpos m) * (1 # 8796093022208))%Q as Q2
      by (apply Qmult_le_r; [reflexivity|exact Hb]).
    assert (inject_Z (2 ^ 52) * (1 # 8796093022208) == 512)%Q as Q3 by reflexivity.
    lra. }
  assert (e = -45 \/ e = -44) as [-> | ->] by lia.
  - left. split; [reflexivity|].
    unfold Qlt in G. cbn in G. lia.
  - right. split; [reflexivity|].
    unfold Qlt in L. cbn in L. lia.
Qed.


Lemma Q_of_float_finite x s m e :
  Prim2SF x = S754_finite s m e ->
  (Q_of_float x == inject_Z (cond_Zopp s (Zpos m)) * 2 ^ e)%Q.
Proof. intros E. unfold Q_of_float. rewrite E. apply Qred_correct. Qed.

Lemma float_lon_cases x term :
  (Q_of_float x == term)%Q -> (180 < term)%Q -> (term < 360)%Q ->
  exists m,
    (Prim2SF x = S754_finite false m (-45) /\ 6333186975989760 < Zpos m < 2 ^ 53) \/
    (Prim2SF x = S754_finite false m (-44) /\ Zpos m < 6333186975989760).
Proof.
  intros V G L. rewrite <- V in G, L. clear V term.
  destruct (Prim2SF x) as [s|s| |s m e] eqn:E;
    try (unfold Q_of_float in G; rewrite E in G; discriminate).
  rewrite (@Q_of_float_finite _ _ _ _ E) in G, L.
  destruct (@valid_finite_mantissa _ _ _ _ E) as (Hi & Be & Lo).
  destruct s; cbn [cond_Zopp] in G, L.
  - exfalso. pose proof (Qpower_0_lt 2 e eq_refl) as P.
    assert (inject_Z (Z.neg m) * 2 ^ e <= 0 * 2 ^ e)%Q as N.
    { apply Qmult_le_r; [exact P|]. unfold Qle. cbn. lia. }
    rewrite Qmult_0_l in N. apply (Qlt_irrefl 0).
    eapply Qlt_le_trans; [|exact N]. eapply Qlt_trans; [|exact G]. reflexivity.
  - exists m. destruct (@lon_exponent m e Hi Lo Be G L) as [[-> B]|[-> B]]; [left|right]; auto.
Qed.


(** Between 180 and 360 the difference with 360 is a binary64: the
    subtraction rounds nothing away. *)
Lemma sub_360_exact x m :
  (Prim2SF x = S754_finite false m (-45) /\ 6333186975989760 < Zpos m < 2 ^ 53) \/
  (Prim2SF x = S754_finite false m (-44) /\ Zpos m < 6333186975989760) ->
  (Q_of_float (x - 360) == Q_of_float x - 360)%Q.
Proof.
  intros Cases.
  assert (exists (n : positive) e0,
             Prim2SF (x - 360) = binary_round prec emax true n e0 /\
             (e0 = -45 \/ e0 = -44) /\ Zpos n < 2 ^ 53 /\
             (inject_Z (Z.neg n) * 2 ^ e0 == Q_of_float x - 360)%Q) as (n & e0 & R & E0 & Hn & V).
  { rewrite sub_spec. change (Prim2SF 360) with (S754_finite false 6333186975989760 (-44)).
    destruct Cases as [[E [Lo Hi]]|[E Hi]]; pose proof (@Q_of_float_finite _ _ _ _ E) as Vx;
      rewrite E.
    - change (SF64sub (S754_finite false m (-45)) (S754_finite false 6333186975989760 (-44)))
        with (binary_normalize prec emax (Z.pos m - 12666373951979520) (-45) false).
      assert (exists p, Z.pos m - 12666373951979520 = Z.neg p) as [p S]
        by (exists (Z.to_pos (12666373951979520 - Z.pos m)); lia).
      rewrite S. exists p, (-45).
      split; [reflexivity|]. split; [now left|]. split; [lia|].
      rewrite <- S, Vx. change (2 ^ (-45))%Q with (1 # 35184372088832)%Q.
      unfold Qeq, Qminus, Qplus, Qopp, Qmult, inject_Z. cbn [Qnum Qden cond_Zopp]. lia.
    - change (SF64sub (S754_finite false m (-44)) (S754_finite false 6333186975989760 (-44)))
        with (binary_normalize prec emax (Z.pos m - 6333186975989760) (-44) false).
      assert (exists p, Z.pos m - 6333186975989760 = Z.neg p) as [p S]
        by (exists (Z.to_pos (6333186975989760 - Z.pos m)); lia).
      rewrite S. exists p, (-44).
      split; [reflexivity|]. split; [now right|]. split; [lia|].
      rewrite <- S, Vx. change (2 ^ (-44))%Q with (1 # 17592186044416)%Q.
      unfold Qeq, Qminus, Qplus, Qopp, Qmult, inject_Z. cbn [Qnum Qden cond_Zopp]. lia. }
  assert (Z.pos (digits2_pos n) <= 53) as D by (apply digits2_pos_le; lia).
  destruct (@binary_round_exact true n e0) as (n' & e' & R' & Le & Sc).
  - exact D.
  - destruct E0; subst e0; lia.
  - destruct E0; subst e0; lia.
  - rewrite R' in R. rewrite (@Q_of_float_finite _ _ _ _ R). cbn [cond_Zopp].
    rewrite <- V. change (Z.neg n') with (- Zpos n'). change (Z.neg n) with (- Zpos n).
    rewrite !inject_Z_opp.
    setoid_replace (- inject_Z (Z.pos n') * 2 ^ e')%Q
      with (- (inject_Z (Z.pos n') * 2 ^ e'))%Q by ring.
    rewrite (@scaled_value _ _ _ _ Le Sc). ring.
Qed.

End Longitude.

(** ** Strings of dates *)




Section StringFacts.
Open Scope string_scope.

Lemma has_space_app a b : has_space (a ++ b) = has_space a || has_space b.
Proof.
  induction a as [|c a IH]; cbn; [reflexivity|].
  now rewrite IH, orb_assoc.
Qed.

Lemma has_space_uint d : has_space (NilEmpty.string_of_uint d) = false.
Proof. induction d; cbn; auto. Qed.

Lemma has_space_str_int z : has_space (str_int z) = false.
Proof.
  unfold str_int. destruct (Z.to_int z); cbn; apply has_space_uint.
Qed.

Lemma has_space_zeros n : has_space (zeros n) = false.
Proof. induction n; cbn; auto. Qed.

Lemma has_space_zfill w z : has_space (zfill w (str_int z)) = false.
Proof.
  unfold zfill. now rewrite has_space_app, has_space_zeros, has_space_str_int.
Qed.

Lemma has_space_isoformat d : has_space (isoformat d) = false.
Proof.
  unfold isoformat. now rewrite !has_space_app, !has_space_zfill.
Qed.

Lemma split_space_head_app a b :
  has_space a = false -> split_space_head (a ++ " " ++ b) = a.
Proof.
  induction a as [|c a IH]; cbn; [reflexivity|].
  intros H. apply orb_false_iff in H as [H1 H2].
  rewrite H1. f_equal. now apply IH.
Qed.

(** The key [get_time_index] looks up for a timestamp is the ISO form of its
    calendar day. *)
Lemma split_space_head_str_Timestamp ts :
  split_space_head (str_Timestamp ts) = str_date (ts_ordinal ts).
Proof.
  unfold str_Timestamp. apply split_space_head_app, has_space_isoformat.
Qed.

Lemma append_inj_length a a' b b' :
  String.length a = String.length a' -> a ++ b = a' ++ b' -> a = a' /\ b = b'.
Proof.
  revert a'. induction a as [|c a IH]; intros [|c' a'] L E; cbn in *;
    try discriminate; [auto|].
  injection E as -> E. injection L as L.
  destruct (IH _ L E) as [-> ->]. auto.
Qed.

Lemma zfill4_ok z : (0 <= z < 10000)%Z -> zfill_ok 4 z = true.
Proof.
  apply (@Zrange_forallb (zfill_ok 4) 0 10000).
  vm_compute. reflexivity.
Qed.

Lemma zfill2_ok z : (0 <= z < 100)%Z -> zfill_ok 2 z = true.
Proof.
  apply (@Zrange_forallb (zfill_ok 2) 0 100).
  vm_compute. reflexivity.
Qed.

Lemma zfill_ok_length w z :
  zfill_ok w z = true -> String.length (zfill w (str_int z)) = w.
Proof.
  unfold zfill_ok. intros H. apply andb_true_iff in H as [H _].
  now apply Nat.eqb_eq.
Qed.

Lemma zfill_ok_inj w z1 z2 :
  zfill_ok w z1 = true -> zfill_ok w z2 = true ->
  zfill w (str_int z1) = zfill w (str_int z2) -> z1 = z2.
Proof.
  unfold zfill_ok. intros H1 H2 E.
  apply andb_true_iff in H1 as [_ H1]. apply andb_true_iff in H2 as [_ H2].
  rewrite E in H1.
  destruct (unpad (zfill w (str_int z2))); [|discriminate].
  apply Z.eqb_eq in H1, H2. congruence.
Qed.


Lemma isoformat_inj d1 d2 :
  ymd_in_range d1 -> ymd_in_range d2 -> isoformat d1 = isoformat d2 -> d1 = d2.
Proof.
  intros (Y1 & M1 & D1) (Y2 & M2 & D2). unfold isoformat. intros E.
  apply zfill4_ok in Y1, Y2. apply zfill2_ok in M1, M2, D1, D2.
  apply append_inj_length in E as [Ey E];
    [|now rewrite !zfill_ok_length].
  apply (@append_inj_length "-" "-") in E as [_ E]; [|reflexivity].
  apply append_inj_length in E as [Em E];
    [|now rewrite !zfill_ok_length].
  apply (@append_inj_length "-" "-") in E as [_ E]; [|reflexivity].
  apply zfill_ok_inj in Ey, Em, E; try assumption.
  destruct d1, d2; cbn in *; congruence.
Qed.

Lemma ord2ymd_in_range o : valid_ordinal o = true -> ymd_in_range (ord2ymd o).
Proof.
  intros H. pose proof (ord2ymd_year_range o H).
  pose proof (ord2ymd_month_day_range o). unfold ymd_in_range. lia.
Qed.

(** Two valid dates print alike only when they are the same day. *)
Lemma str_date_inj o1 o2 :
  valid_ordinal o1 = true -> valid_ordinal o2 = true ->
  str_date o1 = str_date o2 -> o1 = o2.
Proof.
  intros V1 V2 E. apply ord2ymd_inj.
  apply isoformat_inj; auto using ord2ymd_in_range.
Qed.

Lemma str_int_inj z1 z2 : str_int z1 = str_int z2 -> z1 = z2.
Proof.
  unfold str_int. intros E. apply DecimalZ.to_int_inj.
  assert (NilEmpty.int_of_string (NilEmpty.string_of_int (Z.to_int z1))
          = NilEmpty.int_of_string (NilEmpty.string_of_int (Z.to_int z2)))
    as E' by now rewrite E.
  rewrite !NilEmpty.isi in E'. congruence.
Qed.

Lemma append_inj_l a b b' : a ++ b = a ++ b' -> b = b'.
Proof. induction a; cbn; intros E; [assumption|]. injection E. auto. Qed.

End StringFacts.

(** ** Loops that may raise, dictionaries, and the time index dictionary *)
Section ResultFacts.
Context {A B : Type}.

Lemma rmap_Ok (f : A -> result B) l ys :
  rmap f l = Ok ys -> Forall2 (fun x y => f x = Ok y) l ys.
Proof.
  revert ys. induction l as [|x l IH]; cbn; intros ys H.
  - injection H as <-. constructor.
  - destruct (f x) eqn:Fx; [|discriminate].
    destruct (rmap f l) eqn:R; [|discriminate].
    injection H as <-. constructor; auto.
Qed.

Lemma rmap_Forall2 (f : A -> result B) l ys :
  Forall2 (fun x y => f x = Ok y) l ys -> rmap f l = Ok ys.
Proof.
  induction 1 as [|x y l ys Fx _ IH]; cbn; [reflexivity|].
  now rewrite Fx, IH.
Qed.

Lemma rmap_total (f : A -> result B) l :
  (forall x, In x l -> exists y, f x = Ok y) -> exists ys, rmap f l = Ok ys.
Proof.
  induction l as [|x l IH]; cbn; intros H; [eauto|].
  destruct (H x (or_introl eq_refl)) as [y ->].
  destruct IH as [ys ->]; eauto.
Qed.

Lemma rmap_length (f : A -> result B) l ys :
  rmap f l = Ok ys -> List.length ys = List.length l.
Proof.
  intros H. apply rmap_Ok in H. symmetry. eapply Forall2_length; eauto.
Qed.

(** When [e] is the only exception [f] raises on [l] and it does raise on
    some element, the loop ends with [e]. *)
Lemma rmap_Raise (f : A -> result B) l e :
  (forall x, In x l -> (exists y, f x = Ok y) \/ f x = Raise e) ->
  (exists x, In x l /\ f x = Raise e) ->
  rmap f l = Raise e.
Proof.
  induction l as [|x l IH]; cbn; intros H [x0 [I F]]; [contradiction|].
  destruct (H x (or_introl eq_refl)) as [[y Fx]| Fx]; rewrite Fx; [|reflexivity].
  destruct I as [->|I]; [congruence|].
  rewrite IH; eauto.
Qed.
End ResultFacts.

Section DictFacts.
Variables (K V : Type) (keq : K -> K -> bool).
Hypothesis keq_spec : forall a b, keq a b = true <-> a = b.

Lemma keq_refl k : keq k k = true.
Proof. now apply keq_spec. Qed.

Lemma keq_neq a b : a <> b -> keq a b = false.
Proof.
  intros N. destruct (keq a b) eqn:E; [|reflexivity].
  apply keq_spec in E. contradiction.
Qed.

Lemma dict_get_set_same (d : dict K V) k v :
  dict_get keq (dict_set keq d k v) k = Some v.
Proof.
  induction d as [|[k' v'] d IH]; cbn.
  - now rewrite keq_refl.
  - destruct (keq k k') eqn:E; cbn; rewrite E; auto.
Qed.

Lemma dict_get_set_other (d : dict K V) k v k' :
  k' <> k -> dict_get keq (dict_set keq d k v) k' = dict_get keq d k'.
Proof.
  intros N. induction d as [|[k0 v0] d IH]; cbn.
  - now rewrite (keq_neq N).
  - destruct (keq k k0) eqn:E; cbn.
    + apply keq_spec in E as <-. now rewrite (keq_neq N).
    + now rewrite IH.
Qed.

Lemma dict_get_In (d : dict K V) k v :
  dict_get keq d k = Some v -> In (k, v) d.
Proof.
  induction d as [|[k0 v0] d IH]; cbn; [discriminate|].
  destruct (keq k k0) eqn:E.
  - apply keq_spec in E as ->. intros [= ->]. auto.
  - auto.
Qed.

Lemma dict_get_None (d : dict K V) k :
  dict_get keq d k = None <-> ~ In k (dict_keys d).
Proof.
  induction d as [|[k0 v0] d IH]; cbn; [tauto|].
  destruct (keq k k0) eqn:E.
  - apply keq_spec in E as ->. split; [discriminate|tauto].
  - rewrite IH. split; [|tauto].
    intros N [->|I]; [|auto]. rewrite keq_refl in E. discriminate.
Qed.

Lemma dict_set_absent (d : dict K V) k v :
  dict_get keq d k = None -> dict_set keq d k v = d ++ [(k, v)].
Proof.
  induction d as [|[k0 v0] d IH]; cbn; [reflexivity|].
  destruct (keq k k0); [discriminate|]. intros H. now rewrite IH.
Qed.

Lemma dict_get_NoDup (d : dict K V) k v :
  NoDup (dict_keys d) -> In (k, v) d -> dict_get keq d k = Some v.
Proof.
  induction d as [|[k0 v0] d IH]; cbn; [contradiction|].
  intros ND [E|I].
  - injection E as -> ->. now rewrite keq_refl.
  - inversion ND as [|? ? N ND']; subst.
    rewrite keq_neq; [auto|].
    intros ->. apply N. change (In k0 (map fst d)).
    apply in_map_iff. exists (k0, v). auto.
Qed.
End DictFacts.

Lemma string_eqb_spec' a b : String.eqb a b = true <-> a = b.
Proof. apply String.eqb_eq. Qed.

Lemma Z_eqb_spec' a b : Z.eqb a b = true <-> a = b.
Proof. apply Z.eqb_eq. Qed.

Section TimeIndexFacts.

Lemma enumerate_from_In {A} (l : list A) i0 i x :
  In (i, x) (enumerate_from i0 l) <-> (i0 <= i)%nat /\ nth_error l (i - i0) = Some x.
Proof.
  revert i0. induction l as [|y l IH]; intros i0; cbn.
  - split; [contradiction|]. intros [_ H]. destruct (i - i0)%nat; discriminate.
  - rewrite IH. split.
    + intros [E|[L N]].
      * injection E as -> ->. rewrite Nat.sub_diag. auto with arith.
      * split; [lia|]. replace (i - i0)%nat with (S (i - S i0)) by lia. exact N.
    + intros [L N]. destruct (i - i0)%nat as [|n] eqn:D.
      * left. injection N as ->. f_equal. lia.
      * right. split; [lia|]. replace (i - S i0)%nat with n by lia. exact N.
Qed.

Lemma enumerate_In {A} (l : list A) i x :
  In (i, x) (enumerate l) <-> nth_error l i = Some x.
Proof.
  unfold enumerate. rewrite enumerate_from_In, Nat.sub_0_r.
  split; [tauto|]. split; [lia|assumption].
Qed.

Lemma date_plus_days_Ok t o :
  date_plus_days t = Ok o <-> (o = EPOCH_1800 + t)%Z /\ valid_ordinal o = true.
Proof.
  unfold date_plus_days. cbv zeta.
  remember (EPOCH_1800 + t)%Z as o' eqn:Eo. clear Eo.
  destruct (valid_ordinal o') eqn:V; split; intros H.
  - injection H as <-. split; [reflexivity|exact V].
  - destruct H as [-> _]. reflexivity.
  - discriminate H.
  - destruct H as [-> V']. rewrite V in V'. discriminate V'.
Qed.

(** What the dictionary comprehension leaves under each key. *)
Lemma regular_time_to_index_from_spec items :
  forall d0 d,
    regular_time_to_index_from d0 items = Ok d ->
    forall s,
      match dict_get String.eqb d s with
      | Some i =>
          dict_get String.eqb d0 s = Some i \/
          exists t o, In (i, t) items /\ date_plus_days t = Ok o /\ str_date o = s
      | None =>
          dict_get String.eqb d0 s = None /\
          forall i t o, In (i, t) items -> date_plus_days t = Ok o -> str_date o <> s
      end.
Proof.
  induction items as [|[i t] items IH]; cbn [regular_time_to_index_from];
    intros d0 d H s.
  - injection H as <-. destruct (dict_get String.eqb d0 s); [auto|].
    split; [reflexivity|]. intros ? ? ? [].
  - destruct (date_plus_days t) as [o|] eqn:D; [|discriminate].
    specialize (IH _ _ H s).
    destruct (dict_get String.eqb d s) as [j|].
    + destruct IH as [G|(t' & o' & I & D' & S)].
      * destruct (String.eqb_spec s (str_date o)) as [->|N].
        -- rewrite (@dict_get_set_same _ _ _ string_eqb_spec') in G.
           injection G as <-. right. exists t, o.
           split; [left; reflexivity|split; [assumption|reflexivity]].
        -- rewrite (@dict_get_set_other _ _ _ string_eqb_spec') in G by assumption. auto.
      * right. exists t', o'. split; [right; assumption|split; assumption].
    + destruct IH as [G N].
      destruct (String.eqb_spec s (str_date o)) as [->|N'].
      * rewrite (@dict_get_set_same _ _ _ string_eqb_spec') in G. discriminate.
      * rewrite (@dict_get_set_other _ _ _ string_eqb_spec') in G by assumption.
        split; [assumption|].
        intros i' t' o' [E|I] D'.
        -- injection E as <- <-. rewrite D in D'. injection D' as <-. auto.
        -- eauto.
Qed.

Lemma regular_time_to_index_from_total items :
  forall d0,
    (forall i t, In (i, t) items -> valid_ordinal (EPOCH_1800 + t) = true) ->
    exists d, regular_time_to_index_from d0 items = Ok d.
Proof.
  induction items as [|[i t] items IH]; cbn [regular_time_to_index_from];
    intros d0 H; [eauto|].
  unfold date_plus_days at 1. cbv zeta. rewrite (H i t) by (left; reflexivity).
  apply IH. intros i' t' I. apply (H i' t'). right. exact I.
Qed.

End TimeIndexFacts.

(** ** The monad *)

Section MonadFacts.

Lemma bind_Ok {A B} (m : M A) (k : A -> M B) w b w' :
  bind m k w = (Ok b, w') ->
  exists a w1, m w = (Ok a, w1) /\ k a w1 = (Ok b, w').
Proof.
  unfold bind. destruct (m w) as [[a|e] w1]; [eauto|discriminate].
Qed.

Lemma lift_Ok {A} (r : result A) w a w' :
  lift r w = (Ok a, w') -> r = Ok a /\ w' = w.
Proof. unfold lift. now intros [= -> ->]. Qed.

Lemma ret_Ok {A} (a : A) w b w' : ret a w = (Ok b, w') -> b = a /\ w' = w.
Proof. unfold ret. now intros [= -> ->]. Qed.

Lemma mmap_Ok {A B} (f : A -> M B) l :
  forall w ys w',
    mmap f l w = (Ok ys, w') ->
    Forall2 (fun x y => exists w1 w2, f x w1 = (Ok y, w2)) l ys.
Proof.
  induction l as [|x l IH]; cbn [mmap]; intros w ys w' H.
  - apply ret_Ok in H as [-> _]. constructor.
  - apply bind_Ok in H as (y & w1 & Hx & H).
    apply bind_Ok in H as (ys' & w2 & Hl & H).
    apply ret_Ok in H as [-> _]. constructor; eauto.
Qed.

End MonadFacts.

Ltac inv_bind H :=
  let a := fresh "a" in
  let w := fresh "w" in
  let Ha := fresh "Step" in
  apply bind_Ok in H as (a & w & Ha & H).


(** ** get_time_index *)


Section GetTimeIndex.

Lemma Forall2_impl_In {A B} (R S : A -> B -> Prop) l l' :
  (forall x y, In x l -> R x y -> S x y) -> Forall2 R l l' -> Forall2 S l l'.
Proof.
  intros H F. induction F as [|x y l l' Rxy F IH]; constructor.
  - apply H; [left; reflexivity|assumption].
  - apply IH. intros x' y' I. apply H. right. exact I.
Qed.

Variable dataset : Dataset.
Variable d : dict string nat.
Hypothesis Hd : regular_time_to_index_from [] (enumerate (ds_time dataset)) = Ok d.

Lemma lookup_Some ts i :
  valid_ordinal (ts_ordinal ts) = true ->
  dict_get String.eqb d (str_date (ts_ordinal ts)) = Some i ->
  points_at dataset ts i.
Proof.
  intros V G.
  pose proof (regular_time_to_index_from_spec _ _ Hd (str_date (ts_ordinal ts))) as S.
  rewrite G in S. destruct S as [S|(t & o & I & D & E)]; [discriminate S|].
  apply enumerate_In in I. apply date_plus_days_Ok in D as [-> Vo].
  exists t. split; [assumption|].
  unfold decoded_date, calendar_date. f_equal. now apply str_date_inj.
Qed.

Lemma lookup_None ts :
  time_axis_valid dataset ->
  dict_get String.eqb d (str_date (ts_ordinal ts)) = None ->
  forall i, ~ points_at dataset ts i.
Proof.
  intros TV G i (t & N & E).
  pose proof (regular_time_to_index_from_spec _ _ Hd (str_date (ts_ordinal ts))) as S.
  rewrite G in S. destruct S as [_ S].
  apply (S i t (EPOCH_1800 + t)%Z).
  - now apply enumerate_In.
  - apply date_plus_days_Ok. split; [reflexivity|].
    unfold time_axis_valid in TV. rewrite Forall_forall in TV.
    apply TV. eapply nth_error_In; eauto.
  - unfold str_date. unfold decoded_date, calendar_date in E. now rewrite E.
Qed.

End GetTimeIndex.

Section GetTimeIndexCases.

Variables (dataset : Dataset) (dates : list Timestamp).
Hypothesis TV : time_axis_valid dataset.
Hypothesis DV : timestamps_valid dates.

Lemma regular_time_to_index_built :
  exists d, regular_time_to_index_from [] (enumerate (ds_time dataset)) = Ok d.
Proof.
  apply regular_time_to_index_from_total.
  intros i t I. apply enumerate_In in I.
  unfold time_axis_valid in TV. rewrite Forall_forall in TV.
  apply TV. eapply nth_error_In; eauto.
Qed.

(** The indices returned point at the requested dates. *)
Lemma get_time_index_sound idx :
  get_time_index dataset dates = Ok idx -> Forall2 (points_at dataset) dates idx.
Proof.
  destruct regular_time_to_index_built as [d Hd].
  unfold timestamps_valid in DV. rewrite Forall_forall in DV.
  unfold get_time_index. cbv zeta. rewrite Hd. cbn [rbind].
  intros R. apply rmap_Ok in R.
  eapply Forall2_impl_In; [|exact R].
  intros ts i I. cbv beta. rewrite split_space_head_str_Timestamp.
  destruct (dict_get String.eqb d (str_date (ts_ordinal ts))) as [j|] eqn:G;
    [|discriminate].
  intros [= <-]. eapply lookup_Some; eauto.
Qed.

(** When every requested date is on the axis, indices are returned. *)
Lemma get_time_index_total :
  (forall ts, In ts dates -> exists i, points_at dataset ts i) ->
  exists idx, get_time_index dataset dates = Ok idx.
Proof.
  intros All. destruct regular_time_to_index_built as [d Hd].
  unfold get_time_index. cbv zeta. rewrite Hd. cbn [rbind].
  apply rmap_total. intros ts I. rewrite split_space_head_str_Timestamp.
  destruct (dict_get String.eqb d (str_date (ts_ordinal ts))) as [j|] eqn:G;
    [eauto|].
  destruct (All ts I) as [i P].
  exfalso. eapply lookup_None; eauto.
Qed.

(** When a requested date is not on the axis, the lookup fails. *)
Lemma get_time_index_missing :
  (exists ts, In ts dates /\ forall i, ~ points_at dataset ts i) ->
  get_time_index dataset dates = Raise KeyError.
Proof.
  intros (ts & I & Miss). destruct regular_time_to_index_built as [d Hd].
  unfold timestamps_valid in DV. rewrite Forall_forall in DV.
  unfold get_time_index. cbv zeta. rewrite Hd. cbn [rbind].
  apply rmap_Raise.
  - intros x _.
    destruct (dict_get String.eqb d (split_space_head (str_Timestamp x)));
      [left; eauto|right; reflexivity].
  - exists ts. split; [assumption|].
    rewrite split_space_head_str_Timestamp.
    destruct (dict_get String.eqb d (str_date (ts_ordinal ts))) as [j|] eqn:G;
      [|reflexivity].
    exfalso. apply (Miss j). eapply lookup_Some; eauto.
Qed.

End GetTimeIndexCases.

(** C6. With a time axis of decodable day offsets and requested timestamps
    that are dates, [get_time_index] strips the time of day and returns, for
    each requested date in order, an index of the time axis whose decoded
    date (1800-01-01 plus the offset) is exactly that date; when a requested
    date is nowhere on the axis the call fails with [KeyError] (the lookup
    error the specification calls DateNotFoundError) and returns no
    indices. *)
Theorem get_time_index_exact_or_KeyError (dataset : Dataset) (dates : list Timestamp) :
  time_axis_valid dataset ->
  timestamps_valid dates ->
  ((forall ts, In ts dates -> exists i, points_at dataset ts i) ->
   exists idx, get_time_index dataset dates = Ok idx /\
               Forall2 (points_at dataset) dates idx) /\
  ((exists ts, In ts dates /\ forall i, ~ points_at dataset ts i) ->
   get_time_index dataset dates = Raise KeyError) /\
  (forall idx, get_time_index dataset dates = Ok idx ->
               Forall2 (points_at dataset) dates idx).
Proof.
  intros TV DV. split; [|split].
  - intros All. destruct (@get_time_index_total dataset dates TV All) as [idx E].
    exists idx. split; [exact E|]. now apply (@get_time_index_sound dataset dates TV DV).
  - now apply (@get_time_index_missing dataset dates TV DV).
  - intros idx. now apply (@get_time_index_sound dataset dates TV DV).
Qed.

(** ** Grouping with a defaultdict *)

Section GroupFacts.
Variables (A K : Type) (keq : K -> K -> bool) (key : A -> K).
Hypothesis keq_spec : forall a b, keq a b = true <-> a = b.

Local Abbreviation step := (fun (d : dict K (list A)) (x : A) => dd_append keq d (key x) x).

Lemma dict_keys_set_present (V : Type) (d : dict K V) k v v0 :
  dict_get keq d k = Some v0 -> dict_keys (dict_set keq d k v) = dict_keys d.
Proof.
  induction d as [|[k' v'] d IH]; cbn; [discriminate|].
  destruct (keq k k') eqn:E; cbn; [reflexivity|].
  intros H. unfold dict_keys in IH. now rewrite IH.
Qed.

Lemma dict_keys_set_absent (V : Type) (d : dict K V) k v :
  dict_get keq d k = None -> dict_keys (dict_set keq d k v) = dict_keys d ++ [k].
Proof.
  intros H. rewrite dict_set_absent by assumption.
  unfold dict_keys. now rewrite map_app.
Qed.

Lemma filter_snoc (f : A -> bool) l x :
  filter f (l ++ [x]) = filter f l ++ (if f x then [x] else []).
Proof. rewrite filter_app. reflexivity. Qed.

Local Abbreviation grouped := (grouped keq key).

Lemma grouped_absent d l k :
  grouped d l -> dict_get keq d k = None ->
  filter (fun x => keq (key x) k) l = [].
Proof.
  intros (_ & _ & C) G.
  destruct (filter (fun x => keq (key x) k) l) as [|y ys] eqn:F; [reflexivity|].
  assert (In y (filter (fun x => keq (key x) k) l)) as I by (rewrite F; left; reflexivity).
  apply filter_In in I as [I E]. apply keq_spec in E. subst k.
  apply (dict_get_None keq keq_spec) in G. exfalso. apply G, C, I.
Qed.

Lemma grouped_step d l x : grouped d l -> grouped (step d x) (l ++ [x]).
Proof.
  intros Gr. pose proof Gr as (ND & Sp & Co).
  cbv beta. unfold dd_append.
  destruct (dict_get keq d (key x)) as [vs0|] eqn:G.
  - split; [|split].
    + erewrite dict_keys_set_present by eassumption. assumption.
    + intros k vs. destruct (keq (key x) k) eqn:E.
      * apply keq_spec in E. subst k.
        rewrite (dict_get_set_same keq keq_spec). intros [= <-].
        split; [now destruct vs0|].
        rewrite filter_snoc, (keq_refl keq keq_spec).
        destruct (Sp _ _ G) as [_ <-]. reflexivity.
      * assert (k <> key x) as N.
        { intros ->. rewrite (keq_refl keq keq_spec) in E. discriminate. }
        rewrite (dict_get_set_other keq keq_spec) by assumption.
        intros H. rewrite filter_snoc, E, app_nil_r. now apply Sp.
    + intros y I. erewrite dict_keys_set_present by eassumption.
      apply in_app_iff in I as [I|[<-|[]]]; [now apply Co|].
      apply dict_get_In in G; [|assumption].
      change (In (key x) (map fst d)). apply in_map_iff.
      exists (key x, vs0). auto.
  - split; [|split].
    + rewrite dict_keys_set_absent by assumption.
      apply NoDup_app; [assumption|repeat constructor; intros []|].
      intros k I [<-|[]]. apply (dict_get_None keq keq_spec) in G. contradiction.
    + intros k vs. destruct (keq (key x) k) eqn:E.
      * apply keq_spec in E. subst k.
        rewrite (dict_get_set_same keq keq_spec). intros [= <-].
        split; [discriminate|].
        rewrite filter_snoc, (keq_refl keq keq_spec).
        erewrite grouped_absent by eassumption. reflexivity.
      * assert (k <> key x) as N.
        { intros ->. rewrite (keq_refl keq keq_spec) in E. discriminate. }
        rewrite (dict_get_set_other keq keq_spec) by assumption.
        intros H. rewrite filter_snoc, E, app_nil_r. now apply Sp.
    + intros y I. rewrite dict_keys_set_absent by assumption.
      apply in_app_iff.
      apply in_app_iff in I as [I|[<-|[]]]; [left; now apply Co|].
      right. left. reflexivity.
Qed.

Lemma grouped_fold l : grouped (fold_left step l []) l.
Proof.
  induction l as [|x l IH] using rev_ind.
  - cbn. split; [constructor|]. split; [discriminate|contradiction].
  - rewrite fold_left_app. cbn [fold_left]. now apply grouped_step.
Qed.

Lemma grouped_In d l k vs :
  grouped d l -> In (k, vs) d ->
  vs <> [] /\ vs = filter (fun x => keq (key x) k) l.
Proof.
  intros (ND & Sp & _) I. apply Sp.
  now apply (dict_get_NoDup keq keq_spec).
Qed.
End GroupFacts.

Section SortedGroupFacts.
Variables (A : Type) (key : A -> Z).

Local Abbreviation step := (fun (d : dict Z (list A)) (x : A) => dd_append Z.eqb d (key x) x).

Lemma dict_get_last (V : Type) (d : dict Z V) k v :
  ~ In k (dict_keys d) -> dict_get Z.eqb (d ++ [(k, v)]) k = Some v.
Proof.
  induction d as [|[k' v'] d IH]; cbn; intros N.
  - now rewrite Z.eqb_refl.
  - destruct (Z.eqb_spec k k') as [->|_]; [exfalso; auto|auto].
Qed.

Lemma dict_set_last (V : Type) (d : dict Z V) k v v' :
  ~ In k (dict_keys d) -> dict_set Z.eqb (d ++ [(k, v)]) k v' = d ++ [(k, v')].
Proof.
  induction d as [|[k0 v0] d IH]; cbn; intros N.
  - now rewrite Z.eqb_refl.
  - destruct (Z.eqb_spec k k0) as [->|_]; [exfalso; auto|].
    rewrite IH; auto.
Qed.

Local Abbreviation chunked := (chunked key).

Lemma concat_snoc (B : Type) (ls : list (list B)) (l : list B) :
  List.concat (ls ++ [l]) = List.concat ls ++ l.
Proof. now rewrite concat_app; cbn; rewrite app_nil_r. Qed.

Lemma chunked_step d l x :
  chunked d l -> (forall y, In y l -> (key y <= key x)%Z) ->
  chunked (step d x) (l ++ [x]).
Proof.
  intros (Cc & Src & Last) Le. cbv beta. unfold dd_append.
  assert (forall k, In k (dict_keys d) -> (k <= key x)%Z) as KLe.
  { intros k I. destruct (Src k I) as (y & Iy & <-). auto. }
  destruct (dict_get Z.eqb d (key x)) as [vs0|] eqn:G.
  - destruct Last as [->|(d' & k & vs & -> & Lt)]; [discriminate|].
    assert (key x = k) as Ek.
    { apply dict_get_In in G; [|apply Z.eqb_eq].
      apply in_app_iff in G as [I|[E|[]]]; [|now injection E].
      assert (In (key x) (dict_keys d')) as I'.
      { change (In (key x) (map fst d')). apply in_map_iff.
        exists (key x, vs0). auto. }
      specialize (Lt _ I').
      assert (k <= key x)%Z; [|lia].
      apply KLe. unfold dict_keys. rewrite map_app. apply in_app_iff.
      right. left. reflexivity. }
    assert (~ In k (dict_keys d')) as N.
    { intros I. specialize (Lt _ I). lia. }
    rewrite Ek in *. rewrite dict_get_last in G by assumption.
    injection G as <-. rewrite dict_set_last by assumption.
    split; [|split].
    + rewrite map_app in *. cbn [map snd] in *.
      rewrite concat_snoc in *. rewrite <- Cc. now rewrite app_assoc.
    + intros k' I. unfold dict_keys in I, Src. rewrite map_app in I, Src.
      cbn [map fst] in I, Src. destruct (Src k' I) as (y & Iy & Ey).
      exists y. split; [apply in_app_iff; auto|assumption].
    + right. exists d', k, (vs ++ [x]). auto.
  - rewrite dict_set_absent by assumption.
    apply (dict_get_None Z.eqb Z.eqb_eq) in G.
    split; [|split].
    + rewrite map_app. cbn [map snd]. rewrite concat_snoc. now rewrite Cc.
    + intros k I. unfold dict_keys in I. rewrite map_app in I.
      apply in_app_iff in I as [I|[<-|[]]].
      * destruct (Src k I) as (y & Iy & Ey). exists y.
        split; [apply in_app_iff; auto|assumption].
      * exists x. split; [apply in_app_iff; right; left|]; reflexivity.
    + right. exists d, (key x), [x]. split; [reflexivity|].
      intros k' I. specialize (KLe _ I).
      assert (k' <> key x) by (intros ->; contradiction). lia.
Qed.

Lemma StronglySorted_snoc (R : A -> A -> Prop) l x :
  StronglySorted R (l ++ [x]) ->
  StronglySorted R l /\ forall y, In y l -> R y x.
Proof.
  induction l as [|a l IH]; cbn; intros S.
  - split; [constructor|contradiction].
  - inversion S as [|? ? S' F]; subst. destruct (IH S') as [S1 S2].
    rewrite Forall_forall in F. split.
    + constructor; [assumption|]. apply Forall_forall.
      intros y I. apply F, in_app_iff. auto.
    + intros y [<-|I]; [|auto]. apply F, in_app_iff. right. left. reflexivity.
Qed.

Lemma chunked_fold l :
  StronglySorted (fun a b => (key a <= key b)%Z) l ->
  chunked (fold_left step l []) l.
Proof.
  induction l as [|x l IH] using rev_ind; intros S.
  - cbn. split; [reflexivity|]. split; [contradiction|]. left. reflexivity.
  - apply StronglySorted_snoc in S as [S Le].
    rewrite fold_left_app. cbn [fold_left]. apply chunked_step; auto.
Qed.
End SortedGroupFacts.

Lemma StronglySorted_map_seq {A} (R : A -> A -> Prop) (f : nat -> A) n :
  (forall i j, (i < j)%nat -> R (f i) (f j)) ->
  forall a, StronglySorted R (map f (seq a n)).
Proof.
  intros H. induction n as [|n IH]; intros a; cbn; constructor.
  - apply IH.
  - apply Forall_forall. intros y I. apply in_map_iff in I as (j & <- & I).
    apply in_seq in I. apply H. lia.
Qed.

Lemma date_range_sorted_by_year s e :
  StronglySorted (fun a b => (Timestamp_year a <= Timestamp_year b)%Z) (date_range s e).
Proof.
  unfold date_range. apply StronglySorted_map_seq.
  intros i j L. unfold Timestamp_year, midnight. cbn [ts_ordinal].
  apply ord2ymd_year_mono. lia.
Qed.

Lemma date_range_In s e o :
  In (midnight o) (date_range s e) <-> (s <= o <= e)%Z.
Proof.
  unfold date_range. rewrite in_map_iff. split.
  - intros (k & E & I). apply in_seq in I.
    unfold midnight in E. injection E as E. lia.
  - intros H. exists (Z.to_nat (o - s)). split.
    + f_equal. lia.
    + apply in_seq. lia.
Qed.

Lemma date_range_length s e :
  List.length (date_range s e) = Z.to_nat (e - s + 1).
Proof. unfold date_range. now rewrite length_map, length_seq. Qed.

(** ** remote_to_local_dir_mapping *)

Section MappingFacts.
Open Scope string_scope.

Lemma string_length_append a b :
  String.length (a ++ b) = (String.length a + String.length b)%nat.
Proof. induction a; cbn; auto. Qed.

Lemma append_inj_r a b c : a ++ c = b ++ c -> a = b.
Proof.
  intros E.
  assert (String.length a = String.length b) as L.
  { apply (f_equal String.length) in E. rewrite !string_length_append in E. lia. }
  now apply (append_inj_length _ _ _ _ L) in E.
Qed.

Lemma file_name_inj y1 y2 : file_name y1 = file_name y2 -> y1 = y2.
Proof.
  unfold file_name. intros E.
  apply append_inj_l in E. apply append_inj_r in E. now apply str_int_inj.
Qed.

Lemma remote_url_inj parent y1 y2 :
  parent ++ file_name y1 = parent ++ file_name y2 -> y1 = y2.
Proof. intros E. apply append_inj_l in E. now apply file_name_inj. Qed.

Close Scope string_scope.

(** Appending under keys that are new and pairwise distinct adds one entry
    per key, in order. *)
Lemma fold_dd_append_fresh {Y V} (u : Y -> string) (val : Y -> V) ys :
  forall r0,
    NoDup (map u ys) ->
    (forall y, In y ys -> ~ In (u y) (dict_keys r0)) ->
    fold_left (fun r y => dd_append String.eqb r (u y) (val y)) ys r0
    = r0 ++ map (fun y => (u y, [val y])) ys.
Proof.
  induction ys as [|y ys IH]; intros r0 ND Fresh; cbn [fold_left map].
  - now rewrite app_nil_r.
  - inversion ND as [|? ? Ny ND']; subst.
    assert (dict_get String.eqb r0 (u y) = None) as G.
    { apply (dict_get_None String.eqb String.eqb_eq). apply Fresh. left. reflexivity. }
    unfold dd_append at 2. rewrite G. rewrite dict_set_absent by assumption.
    rewrite IH; [now rewrite <- app_assoc|assumption|].
    intros y' I. unfold dict_keys. rewrite map_app. intros J.
    apply in_app_iff in J as [J|[J|[]]].
    + apply (Fresh y'); [right; assumption|exact J].
    + cbn in J. apply Ny. rewrite J. now apply in_map.
Qed.

Lemma map_keys_entries {V W} (d : dict Z V) (dflt : V) (F : Z -> V -> W) :
  NoDup (dict_keys d) ->
  map (fun k => F k match dict_get Z.eqb d k with Some v => v | None => dflt end)
      (dict_keys d)
  = map (fun entry => F (fst entry) (snd entry)) d.
Proof.
  intros ND. unfold dict_keys. rewrite map_map. apply map_ext_in.
  intros [k v] I. cbn [fst snd].
  now rewrite (dict_get_NoDup Z.eqb Z.eqb_eq d k v ND I).
Qed.

Lemma year_to_timestamp_grouped s e :
  grouped Z.eqb Timestamp_year (year_to_timestamp s e) (date_range s e).
Proof. apply grouped_fold, Z.eqb_eq. Qed.

Lemma year_to_timestamp_chunked s e :
  chunked Timestamp_year (year_to_timestamp s e) (date_range s e).
Proof. apply chunked_fold, date_range_sorted_by_year. Qed.

Lemma remote_to_local_dir_mapping_eq self :
  remote_to_local_dir_mapping self
  = map (work_unit self) (year_to_timestamp (start_date self) (end_date self)).
Proof.
  unfold remote_to_local_dir_mapping. cbv zeta.
  pose proof (year_to_timestamp_grouped (start_date self) (end_date self))
    as (ND & _ & _).
  set (d := year_to_timestamp (start_date self) (end_date self)) in *.
  rewrite (@fold_dd_append_fresh Z _
             (fun year => (sst_data_parent_dir self ++ file_name year)%string)
             (fun year => (os_path_join (temp_dir self) (file_name year),
                           match dict_get Z.eqb d year with
                           | Some l => l
                           | None => []
                           end))).
  - cbn [app].
    apply (@map_keys_entries _ _ d []
             (fun year dates =>
                ((sst_data_parent_dir self ++ file_name year)%string,
                 [(os_path_join (temp_dir self) (file_name year), dates)]))).
    exact ND.
  - clear -ND. induction ND as [|k ks N ND IH]; cbn [map]; constructor.
    + intros I. apply in_map_iff in I as (k' & E & I).
      apply remote_url_inj in E. subst k'. contradiction.
    + exact IH.
  - intros y _ [].
Qed.

End MappingFacts.

(** C5. The year partitioner enumerates every day of the inclusive range,
    groups the days by calendar year, and yields one work unit per year, in
    chronological order: its remote file is the parent directory (the fixed
    NOAA directory, for a downloader built by the constructor) followed by
    [sst.day.mean.<year>.nc], its dates are that year's requested
    days in order. A request from 2010-12-30 to 2011-01-02 yields the two
    units 2010 (30 and 31 December) and 2011 (1 and 2 January). *)
Theorem remote_to_local_dir_mapping_partition (self : SeaSurfaceTempDownloader) :
  let requested := date_range (start_date self) (end_date self) in
  let units := year_to_timestamp (start_date self) (end_date self) in
  (forall env df start_date end_date lat_col lon_col w w',
      init env df start_date end_date lat_col lon_col w = (Ok self, w') ->
      sst_data_parent_dir self = NOAA_DIR) /\
  (forall o, In (midnight o) requested <-> (start_date self <= o <= end_date self)%Z) /\
  remote_to_local_dir_mapping self
  = map (fun entry =>
           ((sst_data_parent_dir self ++ "sst.day.mean." ++ str_int (fst entry) ++ ".nc")%string,
            [(os_path_join (temp_dir self) (file_name (fst entry)), snd entry)]))
        units /\
  NoDup (map fst units) /\
  NoDup (map fst (remote_to_local_dir_mapping self)) /\
  (forall ts, In ts requested -> In (Timestamp_year ts) (map fst units)) /\
  (forall year dates,
      In (year, dates) units ->
      dates <> [] /\
      dates = filter (fun ts => (Timestamp_year ts =? year)%Z) requested) /\
  List.concat (map snd units) = requested /\
  (start_date self = ymd2ord 2010 12 30 ->
   end_date self = ymd2ord 2011 1 2 ->
   remote_to_local_dir_mapping self
   = [((sst_data_parent_dir self ++ "sst.day.mean.2010.nc")%string,
       [(os_path_join (temp_dir self) "sst.day.mean.2010.nc",
         [midnight (ymd2ord 2010 12 30); midnight (ymd2ord 2010 12 31)])]);
      ((sst_data_parent_dir self ++ "sst.day.mean.2011.nc")%string,
       [(os_path_join (temp_dir self) "sst.day.mean.2011.nc",
         [midnight (ymd2ord 2011 1 1); midnight (ymd2ord 2011 1 2)])])]).
Proof.
  cbv zeta.
  pose proof (year_to_timestamp_grouped (start_date self) (end_date self)) as Gr.
  pose proof Gr as (ND & Sp & Co).
  pose proof (year_to_timestamp_chunked (start_date self) (end_date self))
    as (Cc & _ & _).
  split; [|split; [|split; [|split; [|split; [|split; [|split; [|split]]]]]]].
  - intros env df s e a b w w' H. unfold init in H.
    inv_bind H. inv_bind H. apply ret_Ok in H as [-> _]. reflexivity.
  - intros o. apply date_range_In.
  - apply remote_to_local_dir_mapping_eq.
  - exact ND.
  - rewrite remote_to_local_dir_mapping_eq, map_map.
    unfold dict_keys in ND. clear -ND.
    induction (year_to_timestamp (start_date self) (end_date self))
      as [|[k v] d IH]; cbn [map]; [constructor|].
    inversion ND as [|? ? N ND']; subst. constructor; [|auto].
    intros I. apply in_map_iff in I as ([k' v'] & E & I). cbn in E.
    apply remote_url_inj in E. subst k'. apply N.
    apply in_map_iff. exists (k, v'). auto.
  - exact Co.
  - intros year dates I. eapply grouped_In; eauto using Z.eqb_eq.
  - exact Cc.
  - intros Es Ee. rewrite remote_to_local_dir_mapping_eq, Es, Ee.
    vm_compute year_to_timestamp. reflexivity.
Qed.

(** ** get_lat_lon_index *)

Section NearestFacts.

(** The scan ends on the nearest point so far or on a point it has met that
    is strictly nearer, and nothing it has met is strictly nearer than the
    point it ends on. *)
Lemma nearest_from_spec data x visit :
  forall best best_d,
    exists d_r,
      (nearest_from best best_d visit data x = best /\ d_r = best_d \/
       exists p, nth_error data (nearest_from best best_d visit data x) = Some p /\
                 d_r = sqeuclidean p x /\ PrimFloat.ltb d_r best_d = true) /\
      (forall i p, In i visit -> nth_error data i = Some p ->
                   PrimFloat.ltb (sqeuclidean p x) d_r = false).
Proof.
  induction visit as [|i visit IH]; intros best best_d; cbn [nearest_from].
  - exists best_d. split; [left; auto|]. intros i p [].
  - destruct (nth_error data i) as [p|] eqn:N.
    + cbv zeta. destruct (PrimFloat.ltb (sqeuclidean p x) best_d) eqn:L.
      * destruct (IH i (sqeuclidean p x)) as (d_r & Wh & Min).
        exists d_r. split.
        -- right. destruct Wh as [[-> ->]|(p' & N' & -> & L')].
           ++ exists p. auto.
           ++ exists p'. split; [exact N'|]. split; [reflexivity|].
              exact (ltb_trans L' L).
        -- intros k p' [<-|I] Nk.
           ++ rewrite N in Nk. injection Nk as <-.
              destruct Wh as [[_ ->]|(p' & _ & -> & L')];
                [apply ltb_irrefl|now apply ltb_asym].
           ++ eapply Min; eauto.
      * destruct (IH best best_d) as (d_r & Wh & Min).
        exists d_r. split; [exact Wh|].
        intros k p' [<-|I] Nk.
        -- rewrite N in Nk. injection Nk as <-.
           destruct Wh as [[_ ->]|(p' & _ & -> & L')]; [exact L|].
           destruct (PrimFloat.ltb (sqeuclidean p x) (sqeuclidean p' x)) eqn:C;
             [|reflexivity].
           now rewrite (ltb_trans C L') in L.
        -- eapply Min; eauto.
    + destruct (IH best best_d) as (d_r & Wh & Min).
      exists d_r. split; [exact Wh|].
      intros k p' [<-|I] Nk; [congruence|eapply Min; eauto].
Qed.

(** Every position of the data is in the order of the tree. *)
Lemma tree_order_complete env data x i :
  (i < List.length data)%nat -> In i (tree_order env data x).
Proof.
  intros L. unfold tree_order.
  destruct (List.length data <=? leafsize)%nat; [|apply in_or_app; right];
    apply in_seq; lia.
Qed.

(** The tree answers with a point at a finite distance that no point is
    strictly nearer than, or with the number of points when no point is at
    a finite distance. *)
Lemma KDTree_query_spec env data x :
  (KDTree_query env data x = List.length data /\
   forall p, In p data -> PrimFloat.ltb (sqeuclidean p x) infinity = false) \/
  (exists p, nth_error data (KDTree_query env data x) = Some p /\
             PrimFloat.ltb (sqeuclidean p x) infinity = true /\
             forall p', In p' data ->
                        PrimFloat.ltb (sqeuclidean p' x) (sqeuclidean p x) = false).
Proof.
  unfold KDTree_query.
  destruct (nearest_from_spec data x (tree_order env data x) (List.length data) infinity)
    as (d_r & Wh & Min).
  assert (forall p', In p' data -> PrimFloat.ltb (sqeuclidean p' x) d_r = false) as Min'.
  { intros p' I. apply In_nth_error in I as [k Nk].
    apply (Min k p'); [|exact Nk].
    apply tree_order_complete. apply nth_error_Some. congruence. }
  destruct Wh as [[E ->]|(p & N & -> & L)].
  - left. auto.
  - right. exists p. auto.
Qed.

Lemma map_nth_seq {A} (l : list A) (d : A) :
  map (fun i => nth i l d) (seq 0 (List.length l)) = l.
Proof.
  induction l as [|x l IH]; cbn; [reflexivity|].
  f_equal. rewrite <- seq_shift, map_map. exact IH.
Qed.

Lemma build_2d_meshgrid_map {A B A' B'} (f : A -> A') (g : B -> B') lat lon :
  build_2d_meshgrid (map f lat) (map g lon)
  = map (fun c => (f (fst c), g (snd c))) (build_2d_meshgrid lat lon).
Proof.
  unfold build_2d_meshgrid. induction lon as [|y lon IH]; cbn; [reflexivity|].
  rewrite map_app, IH, !map_map. reflexivity.
Qed.

Lemma build_2d_meshgrid_In {A B} (lat : list A) (lon : list B) a b :
  In (a, b) (build_2d_meshgrid lat lon) <-> In a lat /\ In b lon.
Proof.
  unfold build_2d_meshgrid. rewrite in_flat_map. split.
  - intros (y & Iy & I). apply in_map_iff in I as (x & E & Ix).
    injection E as -> ->. auto.
  - intros [Ia Ib]. exists b. split; [assumption|]. apply in_map_iff. eauto.
Qed.

(** The matrix of coordinates is the matrix of indices, read through the
    two coordinate arrays. *)
Lemma lat_lon_matrix_of_idx (lat lon : list Q) :
  build_2d_meshgrid lat lon
  = map (fun c => (nth (fst c) lat 0%Q, nth (snd c) lon 0%Q))
        (build_2d_meshgrid (seq 0 (List.length lat)) (seq 0 (List.length lon))).
Proof.
  rewrite <- (build_2d_meshgrid_map (fun i => nth i lat 0%Q) (fun j => nth j lon 0%Q)).
  rewrite !map_nth_seq. reflexivity.
Qed.

Lemma build_2d_meshgrid_nonempty {A B} (lat : list A) (lon : list B) :
  lat <> [] -> lon <> [] -> build_2d_meshgrid lat lon <> [].
Proof.
  destruct lat as [|a lat]; [congruence|]. destruct lon as [|b lon]; [congruence|].
  discriminate.
Qed.

(** A point that coincides, as a binary64, with a point of the tree is at
    distance zero of it. *)
Lemma sqeuclidean_same u v :
  float_of_Q (fst v) = float_of_Q (fst u) -> float_of_Q (snd v) = float_of_Q (snd u) ->
  PrimFloat.is_finite (float_of_Q (fst u)) = true ->
  PrimFloat.is_finite (float_of_Q (snd u)) = true ->
  sqeuclidean u v = 0%float.
Proof.
  intros Ea Eb Fa Fb. unfold sqeuclidean. cbv zeta.
  rewrite Ea, Eb, (@sub_diag _ Fa), (@sub_diag _ Fb). reflexivity.
Qed.

End NearestFacts.

Lemma nth_error_map_Some {A B} (f : A -> B) l k y :
  nth_error (map f l) k = Some y -> exists x, nth_error l k = Some x /\ f x = y.
Proof.
  rewrite nth_error_map. destruct (nth_error l k) as [x|]; cbn; [|discriminate].
  intros [= <-]. eauto.
Qed.

Lemma rmap_map {A B C} (f : B -> result C) (g : A -> B) l :
  rmap f (map g l) = rmap (fun x => f (g x)) l.
Proof.
  induction l as [|x l IH]; cbn; [reflexivity|]. now rewrite IH.
Qed.

Lemma idx_matrix_bounds m n k i j :
  nth_error (build_2d_meshgrid (seq 0 m) (seq 0 n)) k = Some (i, j) ->
  (i < m)%nat /\ (j < n)%nat.
Proof.
  intros H. apply nth_error_In, build_2d_meshgrid_In in H.
  rewrite !in_seq in H. lia.
Qed.

(** One query: the index pair read off the index matrix at the position the
    tree returns is a nearest cell, for a query within reach of the grid. *)
Lemma query_cell env (lat lon : list Q) q :
  within_reach lat lon q ->
  exists c,
    nth_error (build_2d_meshgrid (seq 0 (List.length lat)) (seq 0 (List.length lon)))
              (KDTree_query env (build_2d_meshgrid lat lon) q) = Some c /\
    nearest_cell lat lon q c.
Proof.
  intros (a0 & b0 & Ia & Ib & Fin).
  destruct (KDTree_query_spec env (build_2d_meshgrid lat lon) q)
    as [[_ None]|(p & N & Fp & Min)].
  - rewrite (None (a0, b0)) in Fin; [discriminate|]. now apply build_2d_meshgrid_In.
  - rewrite lat_lon_matrix_of_idx in N at 1.
    apply nth_error_map_Some in N as ([i j] & N & E). cbn [fst snd] in E.
    exists (i, j). split; [exact N|].
    apply idx_matrix_bounds in N as [Li Lj].
    exists (nth i lat 0%Q), (nth j lon 0%Q). cbn [fst snd].
    split; [now apply nth_error_nth'|]. split; [now apply nth_error_nth'|].
    rewrite E. split; [exact Fp|].
    intros a' b' Ia' Ib'. apply Min. now apply build_2d_meshgrid_In.
Qed.

(** A nearest cell to a point that sits on a cell centre, when every other
    cell is at a positive computed distance of the point, is that cell. *)
Lemma nearest_cell_exact lat lon q c i0 j0 a0 b0 :
  nearest_cell lat lon q c ->
  nth_error lat i0 = Some a0 -> nth_error lon j0 = Some b0 ->
  float_of_Q (fst q) = float_of_Q a0 -> float_of_Q (snd q) = float_of_Q b0 ->
  PrimFloat.is_finite (float_of_Q a0) = true ->
  PrimFloat.is_finite (float_of_Q b0) = true ->
  (forall i j a b,
      nth_error lat i = Some a -> nth_error lon j = Some b -> (i, j) <> (i0, j0) ->
      PrimFloat.ltb 0 (sqeuclidean (a, b) q) = true) ->
  c = (i0, j0).
Proof.
  intros (a & b & Na & Nb & _ & Min) Na0 Nb0 Ea Eb Fa Fb Others.
  destruct c as [i j]. cbn [fst snd] in Na, Nb.
  assert (PrimFloat.ltb (sqeuclidean (a0, b0) q) (sqeuclidean (a, b) q) = false) as Z
    by (apply Min; eapply nth_error_In; eauto).
  rewrite (@sqeuclidean_same (a0, b0) q Ea Eb Fa Fb) in Z.
  assert ({(i, j) = (i0, j0)} + {(i, j) <> (i0, j0)}) as [E|D]
    by (repeat decide equality).
  - exact E.
  - rewrite (Others i j a b Na Nb D) in Z. discriminate.
Qed.

(** The cells returned are nearest cells, one per query location, in
    order. *)
Lemma get_lat_lon_index_cells env
    (self : SeaSurfaceTempDownloader) (lat lon : list Q) (queries : list (Q * Q)) :
  as_points (locations self) = Ok queries ->
  Forall (within_reach lat lon) queries ->
  exists cells,
    get_lat_lon_index env self lat lon = Ok (map fst cells, map snd cells) /\
    Forall2 (nearest_cell lat lon) queries cells.
Proof.
  intros Hq Reach. unfold get_lat_lon_index. cbv zeta.
  rewrite Hq. cbn [rbind]. unfold take.
  set (idxm := build_2d_meshgrid (seq 0 (List.length lat)) (seq 0 (List.length lon))).
  set (look := fun i => match nth_error idxm i with
                        | Some x => Ok x
                        | None => Raise IndexError
                        end).
  assert (Forall2 (fun q c => look (KDTree_query env (build_2d_meshgrid lat lon) q) = Ok c
                              /\ nearest_cell lat lon q c)
                  queries
                  (map (fun q => nth (KDTree_query env (build_2d_meshgrid lat lon) q)
                                     idxm (0, 0)%nat)
                       queries)) as F.
  { clear Hq. induction Reach as [|q qs Rq _ IH]; cbn [map]; constructor; [|exact IH].
    destruct (@query_cell env lat lon q Rq) as (c & N & Near).
    fold idxm in N. unfold look. rewrite N.
    rewrite (nth_error_nth _ _ _ N). auto. }
  set (cells := map (fun q => nth (KDTree_query env (build_2d_meshgrid lat lon) q)
                                  idxm (0, 0)%nat)
                    queries) in *.
  exists cells. split.
  - rewrite rmap_map.
    rewrite (@rmap_Forall2 _ _
               (fun q => look (KDTree_query env (build_2d_meshgrid lat lon) q))
               queries cells); [reflexivity|].
    eapply Forall2_impl; [|exact F]. cbv beta. intros q c [L _]. exact L.
  - eapply Forall2_impl; [|exact F]. cbv beta. intros q c [_ N]. exact N.
Qed.

(** C8, as the code has it. On a non-empty grid, for query locations that
    each have a cell at a finite computed distance, [get_lat_lon_index]
    returns for each location, in order, the indices of a grid cell that no
    cell is nearer than, the squared Euclidean distances over latitude and
    longitude being those [scipy] computes in binary64; and for a location
    that coincides, as a binary64, with a cell centre [(lat[i0], lon[j0])],
    every other cell being at a positive computed distance, the cell
    returned is [(i0, j0)]. *)
Theorem get_lat_lon_index_nearest env
    (self : SeaSurfaceTempDownloader) (lat lon : list Q) (queries : list (Q * Q)) :
  lat <> [] -> lon <> [] ->
  as_points (locations self) = Ok queries ->
  Forall (within_reach lat lon) queries ->
  exists cells,
    get_lat_lon_index env self lat lon = Ok (map fst cells, map snd cells) /\
    Forall2 (nearest_cell lat lon) queries cells /\
    Forall2
      (fun q c =>
         forall i0 j0 a0 b0,
           nth_error lat i0 = Some a0 -> nth_error lon j0 = Some b0 ->
           float_of_Q (fst q) = float_of_Q a0 -> float_of_Q (snd q) = float_of_Q b0 ->
           PrimFloat.is_finite (float_of_Q a0) = true ->
           PrimFloat.is_finite (float_of_Q b0) = true ->
           (forall i j a b,
               nth_error lat i = Some a -> nth_error lon j = Some b ->
               (i, j) <> (i0, j0) ->
               PrimFloat.ltb 0 (sqeuclidean (a, b) q) = true) ->
           c = (i0, j0))
      queries cells.
Proof.
  intros _ _ Hq Reach.
  destruct (@get_lat_lon_index_cells env self lat lon queries Hq Reach) as (cells & E & F).
  exists cells. split; [exact E|]. split; [exact F|].
  eapply Forall2_impl; [|exact F]. cbv beta.
  intros q c N i0 j0 a0 b0 Na Nb Ea Eb Fa Fb Others.
  exact (@nearest_cell_exact lat lon q c i0 j0 a0 b0 N Na Nb Ea Eb Fa Fb Others).
Qed.

(** C8, as stated, fails where two cells are nearly as far: of the latitudes
    written -0.2 and 1.2 the second is the nearer to 0.5, by less than
    binary64 can tell; the two computed distances are equal, and the cell
    returned, whatever the environment, is the first. *)
Lemma nearest_in_binary64_only :
  (forall env,
      get_lat_lon_index env near_tie_self near_tie_lat [0%Q] = Ok ([0], [0])%nat) /\
  sqeuclidean (nth 0 near_tie_lat 0%Q, 0%Q) ((1 # 2)%Q, 0%Q)
  = sqeuclidean (nth 1 near_tie_lat 0%Q, 0%Q) ((1 # 2)%Q, 0%Q) /\
  (dist2 (nth 1 near_tie_lat 0%Q, 0%Q) ((1 # 2)%Q, 0%Q)
   < dist2 (nth 0 near_tie_lat 0%Q, 0%Q) ((1 # 2)%Q, 0%Q))%Q.
Proof.
  split; [intros env; vm_compute; reflexivity|].
  split; [vm_compute; reflexivity|]. vm_compute. reflexivity.
Qed.

(** ** The reshaping of download *)

Section ReshapeFacts.

Lemma rmap_app_Ok {A B} (f : A -> result B) l1 l2 ys :
  rmap f (l1 ++ l2) = Ok ys ->
  exists y1 y2, rmap f l1 = Ok y1 /\ rmap f l2 = Ok y2 /\ ys = y1 ++ y2.
Proof.
  revert ys. induction l1 as [|x l1 IH]; cbn [app rmap]; intros ys H.
  - exists [], ys. auto.
  - destruct (f x) as [y|]; [|discriminate].
    destruct (rmap f (l1 ++ l2)) as [ys'|] eqn:R; [|discriminate].
    injection H as <-. destruct (IH _ eq_refl) as (y1 & y2 & -> & -> & ->).
    exists (y :: y1), y2. auto.
Qed.

Lemma take_Ok {A} (a : list A) (d : A) idx xs :
  take a idx = Ok xs -> xs = map (fun i => nth i a d) idx.
Proof.
  unfold take. revert xs. induction idx as [|i idx IH]; cbn [rmap map]; intros xs H.
  - now injection H as <-.
  - destruct (nth_error a i) as [x|] eqn:N; [|discriminate].
    destruct (rmap _ idx) as [xs'|]; [|discriminate].
    injection H as <-. f_equal; [|now apply IH].
    symmetry. now apply nth_error_nth.
Qed.

Lemma getitem3_Ok a t i j x : getitem3 a t i j = Ok x -> x = item3 a t i j.
Proof.
  unfold getitem3. destruct (shape3 a) as [[nt ni] nj].
  destruct (_ && _); [|discriminate]. now intros [= <-].
Qed.

Lemma take3_app_Ok a t1 i1 j1 :
  forall t2 i2 j2 xs,
    List.length t1 = List.length i1 -> List.length i1 = List.length j1 ->
    take3 a (t1 ++ t2) (i1 ++ i2) (j1 ++ j2) = Ok xs ->
    exists x1 x2, take3 a t1 i1 j1 = Ok x1 /\ take3 a t2 i2 j2 = Ok x2 /\
                  xs = x1 ++ x2.
Proof.
  revert i1 j1. induction t1 as [|t t1 IH]; intros [|i i1] [|j j1] t2 i2 j2 xs L1 L2 H;
    try discriminate.
  - exists [], xs. auto.
  - cbn [app take3] in *. destruct (getitem3 a t i j) as [x|]; [|discriminate].
    destruct (take3 a (t1 ++ t2) (i1 ++ i2) (j1 ++ j2)) as [xs'|] eqn:R; [|discriminate].
    injection H as <-. injection L1 as L1. injection L2 as L2.
    destruct (IH _ _ _ _ _ _ L1 L2 R) as (x1 & x2 & -> & -> & ->).
    exists (x :: x1), x2. auto.
Qed.

Lemma take3_repeat_Ok a t (cells : list (nat * nat)) xs :
  take3 a (repeat t (List.length cells)) (map fst cells) (map snd cells) = Ok xs ->
  xs = map (fun c => item3 a t (fst c) (snd c)) cells.
Proof.
  revert xs. induction cells as [|[i j] cells IH]; cbn [List.length repeat map take3 fst snd];
    intros xs H.
  - now injection H as <-.
  - destruct (getitem3 a t i j) as [x|] eqn:G; [|discriminate].
    destruct (take3 a _ _ _) as [xs'|]; [|discriminate].
    injection H as <-. apply getitem3_Ok in G. subst x. f_equal. now apply IH.
Qed.

Lemma transpose4_app d1 a1 o1 s1 :
  forall d2 a2 o2 s2,
    List.length d1 = List.length a1 -> List.length a1 = List.length o1 ->
    List.length o1 = List.length s1 ->
    transpose4 (d1 ++ d2) (a1 ++ a2) (o1 ++ o2) (s1 ++ s2)
    = transpose4 d1 a1 o1 s1 ++ transpose4 d2 a2 o2 s2.
Proof.
  revert a1 o1 s1.
  induction d1 as [|d d1 IH]; intros [|a a1] [|o o1] [|s s1] d2 a2 o2 s2 L1 L2 L3;
    try discriminate; [reflexivity|].
  cbn [app transpose4]. injection L1 as L1. injection L2 as L2. injection L3 as L3.
  now rewrite IH.
Qed.

Lemma transpose4_repeat {C} (d : Timestamp) (fa fo : C -> Q) (fs : C -> float) cells :
  transpose4 (repeat d (List.length cells)) (map fa cells) (map fo cells) (map fs cells)
  = map (fun c => mk_OutputRow d (fa c) (fo c) (fs c)) cells.
Proof.
  induction cells as [|c cells IH]; cbn [List.length repeat map transpose4];
    [reflexivity|]. now rewrite IH.
Qed.

Lemma np_tile_S {A} (xs : list A) n : np_tile xs (S n) = xs ++ np_tile xs n.
Proof. reflexivity. Qed.

Lemma np_repeat_cons {A} (x : A) xs n :
  np_repeat (x :: xs) n = repeat x n ++ np_repeat xs n.
Proof. reflexivity. Qed.

Lemma np_repeat_length {A} (xs : list A) n :
  List.length (np_repeat xs n) = (List.length xs * n)%nat.
Proof.
  induction xs as [|x xs IH]; [reflexivity|].
  rewrite np_repeat_cons, length_app, repeat_length, IH. reflexivity.
Qed.

Lemma np_repeat_app {A} (xs ys : list A) n :
  np_repeat (xs ++ ys) n = np_repeat xs n ++ np_repeat ys n.
Proof. unfold np_repeat. apply flat_map_app. Qed.

(** The three stretched index arrays, read together, give the rows of the
    year in date-major order. *)
Lemma stretched_rows (dataset : Dataset) (cells : list (nat * nat)) :
  forall dates time_index lat lon sst,
    List.length dates = List.length time_index ->
    take3 (ds_sst dataset)
          (np_repeat time_index (List.length cells))
          (np_tile (map fst cells) (List.length time_index))
          (np_tile (map snd cells) (List.length time_index)) = Ok sst ->
    take (ds_lat dataset) (np_tile (map fst cells) (List.length time_index)) = Ok lat ->
    take (ds_lon dataset) (np_tile (map snd cells) (List.length time_index)) = Ok lon ->
    transpose4 (np_repeat dates (List.length cells)) lat lon sst
    = year_rows dataset dates time_index cells.
Proof.
  induction dates as [|d dates IH]; intros [|t time_index] lat lon sst L Hs Ha Ho;
    try discriminate.
  - reflexivity.
  - injection L as L. cbn [List.length] in Hs, Ha, Ho.
    rewrite np_repeat_cons, !np_tile_S in Hs. rewrite np_tile_S in Ha, Ho.
    apply take3_app_Ok in Hs as (s1 & s2 & Hs1 & Hs2 & ->);
      [|now rewrite repeat_length, length_map|now rewrite !length_map].
    apply rmap_app_Ok in Ha as (a1 & a2 & Ha1 & Ha2 & ->).
    apply rmap_app_Ok in Ho as (o1 & o2 & Ho1 & Ho2 & ->).
    apply take3_repeat_Ok in Hs1.
    apply (take_Ok _ 0%Q) in Ha1. apply (take_Ok _ 0%Q) in Ho1.
    rewrite map_map in Ha1, Ho1. subst s1 a1 o1.
    rewrite np_repeat_cons, transpose4_app;
      [|now rewrite repeat_length, length_map|now rewrite !length_map
       |now rewrite !length_map].
    rewrite transpose4_repeat, (IH time_index a2 o2 s2 L Hs2 Ha2 Ho2).
    reflexivity.
Qed.

Lemma year_rows_length dataset dates time_index cells :
  List.length dates = List.length time_index ->
  List.length (year_rows dataset dates time_index cells)
  = (List.length dates * List.length cells)%nat.
Proof.
  unfold year_rows. revert time_index.
  induction dates as [|d dates IH]; intros [|t ts] L; try discriminate; [reflexivity|].
  injection L as L. cbn [combine flat_map List.length].
  rewrite length_app, length_map, (IH ts L). reflexivity.
Qed.

Lemma year_rows_DATE dataset dates time_index cells :
  List.length dates = List.length time_index ->
  map DATE (year_rows dataset dates time_index cells)
  = np_repeat dates (List.length cells).
Proof.
  unfold year_rows. revert time_index.
  induction dates as [|d dates IH]; intros [|t ts] L; try discriminate; [reflexivity|].
  injection L as L. cbn [combine flat_map]. rewrite np_repeat_cons, map_app, (IH ts L).
  f_equal. rewrite map_map. cbn [DATE fst]. clear.
  induction cells; cbn; [reflexivity|]. now f_equal.
Qed.

End ReshapeFacts.

Section DownloadFacts.

Lemma as_points_length df queries :
  as_points df = Ok queries -> List.length queries = List.length (df_rows df).
Proof. unfold as_points. apply rmap_length. Qed.

Lemma rbind_Ok {A B} (r : result A) (k : A -> result B) b :
  rbind r k = Ok b -> exists a, r = Ok a /\ k a = Ok b.
Proof. destruct r as [a|e]; cbn; [eauto|discriminate]. Qed.

Lemma get_lat_lon_index_Ok env self lat lon lat_index lon_index :
  get_lat_lon_index env self lat lon = Ok (lat_index, lon_index) ->
  exists queries cells,
    as_points (locations self) = Ok queries /\
    lat_index = map fst cells /\ lon_index = map snd cells /\
    List.length cells = List.length (df_rows (locations self)) /\
    take (build_2d_meshgrid (seq 0 (List.length lat)) (seq 0 (List.length lon)))
         (map (KDTree_query env (build_2d_meshgrid lat lon)) queries) = Ok cells.
Proof.
  unfold get_lat_lon_index. cbv zeta. intros H.
  apply rbind_Ok in H as (queries & Hq & H).
  apply rbind_Ok in H as (cells & Hc & H).
  injection H as <- <-. exists queries, cells.
  repeat split; try assumption.
  unfold take in Hc. apply rmap_length in Hc.
  rewrite Hc, length_map. now apply as_points_length.
Qed.

Lemma get_time_index_length dataset dates time_index :
  get_time_index dataset dates = Ok time_index ->
  List.length dates = List.length time_index.
Proof.
  unfold get_time_index. cbv zeta. intros H.
  apply rbind_Ok in H as (d & _ & H). apply rmap_length in H. now symmetry.
Qed.

(** What a successful pass through the body of the loop has done. *)
Lemma download_year_Ok env self url bundle w frame w' :
  download_year env self (url, bundle) w = (Ok frame, w') ->
  exists local_dir dates rest g time_index cells,
    bundle = (local_dir, dates) :: rest /\
    (dict_get String.eqb (w_files w) local_dir = Some g \/
     dict_get String.eqb (w_files w) local_dir = None /\ env_remote env url = Some g) /\
    get_time_index (dataset_of g) dates = Ok time_index /\
    get_lat_lon_index env self (nc_lat g) (map normalize_lon (nc_lon g))
    = Ok (map fst cells, map snd cells) /\
    List.length cells = List.length (df_rows (locations self)) /\
    frame = year_rows (dataset_of g) dates time_index cells.
Proof.
  unfold download_year. destruct bundle as [|[local_dir dates] rest].
  { discriminate. }
  intros H. exists local_dir, dates, rest.
  inv_bind H. rename Step into Hdl, w0 into w1.
  inv_bind H. rename Step into Hrd, a0 into dataset, w0 into w2.
  inv_bind H. rename Step into Hti, a0 into time_index, w0 into w3.
  inv_bind H. rename Step into Hll, a0 into lat_lon_index, w0 into w4.
  destruct lat_lon_index as [lat_index lon_index].
  inv_bind H. rename Step into Hsst, a0 into sst.
  inv_bind H. rename Step into Hlat, a0 into lat.
  inv_bind H. rename Step into Hlon, a0 into lon.
  apply ret_Ok in H as [-> _].
  apply lift_Ok in Hti as [Hti _], Hll as [Hll _], Hsst as [Hsst _],
    Hlat as [Hlat _], Hlon as [Hlon _].
  (* the file read is the one found or fetched *)
  assert (exists g, dataset = dataset_of g /\
            (dict_get String.eqb (w_files w) local_dir = Some g \/
             dict_get String.eqb (w_files w) local_dir = None /\
             env_remote env url = Some g)) as (g & -> & Src).
  { unfold read_dataset in Hrd.
    inv_bind Hrd. inv_bind Hrd.
    unfold log in Step. injection Step as _ <-.
    unfold read_file in Step0. cbn [w_files] in Step0. injection Step0 as <- <-.
    unfold download_to_local in Hdl.
    inv_bind Hdl. inv_bind Hdl.
    unfold log in Step. injection Step as _ <-.
    unfold read_file in Step0. cbn [w_files] in Step0. injection Step0 as <- <-.
    destruct (dict_get String.eqb (w_files w) local_dir) as [g0|] eqn:G0.
    - apply ret_Ok in Hdl as [_ ->]. cbn [w_files] in Hrd. rewrite G0 in Hrd.
      apply ret_Ok in Hrd as [-> _]. exists g0. auto.
    - inv_bind Hdl. unfold log in Step. injection Step as _ <-.
      destruct (env_remote env url) as [g1|] eqn:R; [|discriminate].
      unfold write_file in Hdl. injection Hdl as _ <-. cbn [w_files] in Hrd.
      rewrite (@dict_get_set_same _ _ _ string_eqb_spec') in Hrd.
      apply ret_Ok in Hrd as [-> _]. exists g1. auto. }
  cbn [ds_lat ds_lon ds_sst dataset_of] in *.
  apply get_lat_lon_index_Ok in Hll as Hll'.
  destruct Hll' as (queries & cells & Hq & -> & -> & Lc & _).
  exists g, time_index, cells.
  split; [reflexivity|]. split; [exact Src|]. split; [exact Hti|].
  split; [exact Hll|]. split; [exact Lc|].
  pose proof (get_time_index_length _ _ Hti) as Lt.
  rewrite !length_map in *.
  now apply (@stretched_rows (dataset_of g) cells dates time_index lat lon sst).
Qed.

End DownloadFacts.

(** ** download: shape of the result *)

Section DownloadShape.

Lemma download_Ok env self w table w' :
  download env self w = (Ok table, w') ->
  exists output w1,
    extracted_output env self w = (Ok output, w1) /\
    table = map mask_missing output /\
    w' = (if (isnull_count output =? List.length output)%nat
          then mk_world (w_files w1) (w_trace w1) (w_warnings w1 ++ [ALL_NULL_WARNING])
          else w1).
Proof.
  unfold download, extracted_output. intros H.
  inv_bind H. inv_bind H. inv_bind H.
  apply ret_Ok in H as [-> ->].
  exists a0, w1. split; [|split; [reflexivity|]].
  - unfold bind at 1. rewrite Step. exact Step0.
  - destruct (isnull_count a0 =? List.length a0)%nat.
    + unfold warnings_warn in Step1. now injection Step1 as _ <-.
    + now apply ret_Ok in Step1 as [_ ->].
Qed.

Lemma Forall2_map_left {A B C} (R : B -> C -> Prop) (f : A -> B) l l' :
  Forall2 R (map f l) l' <-> Forall2 (fun x y => R (f x) y) l l'.
Proof.
  split.
  - revert l'. induction l as [|x l IH]; intros l' F; inversion F; subst;
      constructor; auto.
  - induction 1; cbn; constructor; auto.
Qed.

Lemma extracted_output_frames env self w output w1 :
  extracted_output env self w = (Ok output, w1) ->
  exists frames,
    output = List.concat frames /\ frames <> [] /\
    Forall2 (year_frame env self)
            (year_to_timestamp (start_date self) (end_date self)) frames.
Proof.
  unfold extracted_output. intros H. inv_bind H. rename a into frames.
  apply lift_Ok in H as [H _]. exists frames.
  assert (frames <> [] /\ output = List.concat frames) as [NE ->].
  { unfold pd_concat in H. destruct frames; [discriminate|].
    injection H as <-. split; [discriminate|reflexivity]. }
  split; [reflexivity|]. split; [exact NE|].
  apply mmap_Ok in Step. rewrite remote_to_local_dir_mapping_eq in Step.
  apply Forall2_map_left in Step.
  eapply Forall2_impl; [|exact Step]. cbv beta.
  intros [year dates] frame (wa & wb & Hy). unfold work_unit in Hy.
  apply download_year_Ok in Hy
    as (local_dir & dates' & rest & g & time_index & cells & E & _ & Ti & Ll & Lc & Fr).
  cbn [fst snd] in E. injection E as _ <- _.
  exists g, time_index, cells. auto.
Qed.

Lemma year_frame_length env self entry frame :
  year_frame env self entry frame ->
  List.length frame = (List.length (snd entry) * n_locations self)%nat.
Proof.
  intros (g & time_index & cells & Ti & _ & Lc & ->).
  rewrite year_rows_length by now apply get_time_index_length in Ti.
  unfold n_locations. now rewrite Lc.
Qed.

Lemma year_frame_DATE env self entry frame :
  year_frame env self entry frame ->
  map DATE frame = np_repeat (snd entry) (n_locations self).
Proof.
  intros (g & time_index & cells & Ti & _ & Lc & ->).
  rewrite year_rows_DATE by now apply get_time_index_length in Ti.
  unfold n_locations. now rewrite Lc.
Qed.

Lemma frames_length env self units frames :
  Forall2 (year_frame env self) units frames ->
  List.length (List.concat frames)
  = list_sum (map (fun entry => List.length (snd entry) * n_locations self)%nat units).
Proof.
  unfold list_sum.
  induction 1 as [|entry frame units frames Yf _ IH]; cbn [List.concat map fold_right];
    [reflexivity|].
  rewrite length_app, IH, (year_frame_length Yf). reflexivity.
Qed.

Lemma frames_DATE env self units frames :
  Forall2 (year_frame env self) units frames ->
  map DATE (List.concat frames)
  = np_repeat (List.concat (map snd units)) (n_locations self).
Proof.
  induction 1 as [|entry frame units frames Yf _ IH]; cbn [List.concat map];
    [reflexivity|].
  rewrite map_app, IH, np_repeat_app, (year_frame_DATE Yf). reflexivity.
Qed.

Lemma list_sum_scaled {A} (f : A -> nat) (n : nat) l :
  list_sum (map (fun x => f x * n)%nat l) = (list_sum (map f l) * n)%nat.
Proof.
  unfold list_sum. induction l as [|x l IH]; cbn [map fold_right]; [reflexivity|].
  rewrite IH. lia.
Qed.

Lemma length_concat_sum {A} (ls : list (list A)) :
  List.length (List.concat ls) = list_sum (map (@List.length A) ls).
Proof.
  unfold list_sum.
  induction ls as [|l ls IH]; cbn [List.concat map fold_right]; [reflexivity|].
  now rewrite length_app, IH.
Qed.

Lemma map_mask_missing_DATE output :
  map DATE (map mask_missing output) = map DATE output.
Proof.
  rewrite map_map. apply map_ext. intros row. unfold mask_missing.
  now destruct (PrimFloat.ltb (SST row) THRESHOLD).
Qed.

End DownloadShape.

(** C3. The table [download] returns has one row per requested date and
    query location: the number of days of the inclusive range times the
    number of locations, which is the sum over the years of the request of
    that year's dates times the locations. *)
Theorem download_row_count env self w table w' :
  download env self w = (Ok table, w') ->
  List.length table
  = (Z.to_nat (end_date self - start_date self + 1) * n_locations self)%nat /\
  List.length table
  = list_sum (map (fun entry => List.length (snd entry) * n_locations self)%nat
                  (year_to_timestamp (start_date self) (end_date self))) /\
  List.length (date_range (start_date self) (end_date self))
  = Z.to_nat (end_date self - start_date self + 1).
Proof.
  intros H. apply download_Ok in H as (output & w1 & Ho & -> & _).
  apply extracted_output_frames in Ho as (frames & -> & _ & F).
  rewrite length_map, (frames_length F).
  split; [|split; [reflexivity|apply date_range_length]].
  rewrite (list_sum_scaled (fun entry : Z * list Timestamp => List.length (snd entry))
             (n_locations self)). f_equal.
  rewrite <- date_range_length.
  destruct (year_to_timestamp_chunked (start_date self) (end_date self)) as (Cc & _).
  rewrite <- Cc. rewrite length_concat_sum, map_map. reflexivity.
Qed.

Section GroupsOfDates.

Lemma get_time_index_each dataset dates time_index :
  get_time_index dataset dates = Ok time_index ->
  Forall2 (fun d t => get_time_index dataset [d] = Ok [t]) dates time_index.
Proof.
  unfold get_time_index. cbv zeta. intros H.
  apply rbind_Ok in H as (dict & -> & H). cbn [rbind].
  apply rmap_Ok in H. eapply Forall2_impl; [|exact H]. cbv beta.
  intros d t E. cbn [rmap]. now rewrite E.
Qed.

Lemma nth_error_concat_uniform {A} (n : nat) (ls : list (list A)) :
  Forall (fun l => List.length l = n) ls ->
  forall i j l,
    nth_error ls i = Some l -> (j < n)%nat ->
    nth_error (List.concat ls) (i * n + j) = nth_error l j.
Proof.
  induction 1 as [|l0 ls L _ IH]; intros i j l N J.
  - destruct i; discriminate.
  - destruct i as [|i]; cbn [nth_error List.concat] in *.
    + injection N as ->. cbn [Nat.mul Nat.add]. apply nth_error_app1. lia.
    + rewrite nth_error_app2 by lia.
      replace (S i * n + j - List.length l0)%nat with (i * n + j)%nat by (cbn; lia).
      now apply IH.
Qed.

Lemma StronglySorted_app {A} (R : A -> A -> Prop) l1 l2 :
  StronglySorted R l1 -> StronglySorted R l2 ->
  (forall a b, In a l1 -> In b l2 -> R a b) ->
  StronglySorted R (l1 ++ l2).
Proof.
  induction 1 as [|a l1 S1 IH F]; intros S2 H; cbn [app]; [assumption|].
  constructor.
  - apply IH; [assumption|]. intros x y Ix Iy. apply H; [right|]; assumption.
  - rewrite Forall_forall in *. intros x I. apply in_app_iff in I as [I|I].
    + now apply F.
    + apply H; [left; reflexivity|assumption].
Qed.

Lemma StronglySorted_nth_error {A} (R : A -> A -> Prop) l :
  StronglySorted R l ->
  forall i j a b,
    (i < j)%nat -> nth_error l i = Some a -> nth_error l j = Some b -> R a b.
Proof.
  induction 1 as [|x l S IH F]; intros i j a b L Na Nb.
  - destruct i; discriminate.
  - destruct j as [|j]; [lia|]. cbn [nth_error] in Nb.
    destruct i as [|i]; cbn [nth_error] in Na.
    + injection Na as <-. rewrite Forall_forall in F.
      eapply F, nth_error_In; eauto.
    + apply (IH i j a b); [lia|assumption|assumption].
Qed.

Lemma np_repeat_sorted {A} (R : A -> A -> Prop) (l : list A) n :
  (forall a, In a l -> R a a) ->
  StronglySorted R l -> StronglySorted R (np_repeat l n).
Proof.
  intros Refl S. induction S as [|a l S IH F].
  - constructor.
  - rewrite np_repeat_cons. apply StronglySorted_app.
    + assert (R a a) as Raa by (apply Refl; left; reflexivity).
      clear -Raa. induction n as [|n IHn]; cbn [repeat]; constructor; [assumption|].
      apply Forall_forall. intros y I. apply repeat_spec in I. now subst.
    + apply IH. intros b I. apply Refl. right. exact I.
    + intros x y Ix Iy. apply repeat_spec in Ix. subst x.
      unfold np_repeat in Iy. apply in_flat_map in Iy as (z & Iz & Iy).
      apply repeat_spec in Iy. subst y. rewrite Forall_forall in F. now apply F.
Qed.

Lemma date_range_sorted s e :
  StronglySorted (fun a b => (ts_ordinal a <= ts_ordinal b)%Z) (date_range s e).
Proof.
  unfold date_range. apply StronglySorted_map_seq.
  intros i j L. cbv beta. unfold midnight. cbn [ts_ordinal]. lia.
Qed.

(** In a column of dates that repeats each day of the range in turn, a row
    with an earlier day stands before a row with a later day. *)
Lemma np_repeat_date_range_order s e n p q d1 d2 :
  nth_error (np_repeat (date_range s e) n) p = Some d1 ->
  nth_error (np_repeat (date_range s e) n) q = Some d2 ->
  (ts_ordinal d1 < ts_ordinal d2)%Z -> (p < q)%nat.
Proof.
  intros N1 N2 Lt.
  assert (StronglySorted (fun a b => (ts_ordinal a <= ts_ordinal b)%Z)
            (np_repeat (date_range s e) n)) as S.
  { apply np_repeat_sorted; [intros; lia|apply date_range_sorted]. }
  destruct (Nat.lt_trichotomy p q) as [L|[E|G]]; [assumption| |].
  - subst q. rewrite N1 in N2. injection N2 as <-. lia.
  - pose proof (StronglySorted_nth_error S G N2 N1). cbv beta in *. lia.
Qed.

End GroupsOfDates.

(** ** download: order of the rows and missing values *)

Section FloatOrder.

Lemma compare_cont_flip p q :
  Pos.compare_cont Eq q p = CompOpp (Pos.compare_cont Eq p q).
Proof. now rewrite (Pos.compare_cont_antisym p q Eq). Qed.

Lemma SFcompare_Lt_Gt x y :
  SFcompare x y = Some Lt -> SFcompare y x = Some Gt.
Proof.
  destruct x as [sx|sx| |sx mx ex], y as [sy|sy| |sy my ey]; cbn;
    try discriminate;
    try (destruct sx; try destruct sy; (discriminate || reflexivity)).
  rewrite (Z.compare_antisym ex ey), (compare_cont_flip mx my).
  destruct sx, sy; try discriminate; try reflexivity;
    destruct (ex ?= ey)%Z; cbn; try discriminate; try reflexivity;
    destruct (Pos.compare_cont Eq mx my); cbn; try discriminate; reflexivity.
Qed.

Lemma SFcompare_refl x : x <> S754_nan -> SFcompare x x = Some Eq.
Proof.
  destruct x as [s|s| |s m e]; cbn; intros N; try congruence.
  - now destruct s.
  - rewrite Z.compare_refl, Pos.compare_cont_refl. now destruct s.
Qed.

(** A value at or above [y] is not below [y]. *)
Lemma leb_not_ltb x y :
  PrimFloat.leb y x = true -> PrimFloat.ltb x y = false.
Proof.
  rewrite ltb_spec, leb_spec. unfold SFltb, SFleb.
  destruct (SFcompare (Prim2SF x) (Prim2SF y)) as [[| |]|] eqn:C; try reflexivity.
  rewrite (SFcompare_Lt_Gt _ _ C). discriminate.
Qed.

(** A value that compares with another is not NaN. *)
Lemma leb_not_nan x y :
  PrimFloat.leb y x = true -> PrimFloat.is_nan x = false.
Proof.
  unfold PrimFloat.is_nan. rewrite leb_spec, FloatAxioms.eqb_spec.
  unfold SFleb, SFeqb. intros H.
  rewrite SFcompare_refl; [reflexivity|].
  intros E. rewrite E in H. destruct (Prim2SF y); discriminate.
Qed.

Lemma mask_missing_translated raw : translated raw (mask_missing raw).
Proof.
  unfold translated, mask_missing.
  destruct (PrimFloat.ltb (SST raw) THRESHOLD) eqn:E; cbn [DATE LAT LON SST].
  - do 3 (split; [reflexivity|]). split.
    + intros _. split; reflexivity.
    + intros L. apply leb_not_ltb in L. congruence.
  - do 3 (split; [reflexivity|]). split.
    + discriminate.
    + intros L. split; [reflexivity|]. now apply leb_not_nan in L.
Qed.

End FloatOrder.

Lemma Forall2_nth_error_l {A B} (R : A -> B -> Prop) l l' i x :
  Forall2 R l l' -> nth_error l i = Some x ->
  exists y, nth_error l' i = Some y /\ R x y.
Proof.
  intros F. revert i. induction F as [|a b l l' Rab _ IH]; intros i N.
  - destruct i; discriminate.
  - destruct i as [|i]; cbn [nth_error] in *.
    + injection N as <-. eauto.
    + auto.
Qed.

Lemma map_fst_snd_eq {A B} (l1 l2 : list (A * B)) :
  map fst l1 = map fst l2 -> map snd l1 = map snd l2 -> l1 = l2.
Proof.
  revert l2. induction l1 as [|[a b] l1 IH]; intros [|[a' b'] l2] Ef Es;
    try discriminate; [reflexivity|].
  cbn [map fst snd] in Ef, Es. injection Ef as -> Ef. injection Es as -> Es.
  f_equal. now apply IH.
Qed.

(** C1, as the code has it. Every value of the SST column that is below the
    threshold [-9e35] (the fill value [-9.96921e+36] is) comes back as the
    missing marker NaN; every value at or above the threshold comes back
    unchanged, so it is not made missing. *)
Theorem download_sentinel_translation env self w table w' :
  download env self w = (Ok table, w') ->
  PrimFloat.ltb SENTINEL THRESHOLD = true /\
  exists output w1,
    extracted_output env self w = (Ok output, w1) /\
    Forall2 translated output table.
Proof.
  intros H. split; [reflexivity|].
  apply download_Ok in H as (output & w1 & Ho & -> & _).
  exists output, w1. split; [exact Ho|].
  clear. induction output as [|raw output IH]; cbn [map]; constructor;
    [apply mask_missing_translated|exact IH].
Qed.

(** ** read_dataset, download_sst and from_tuples *)

Section Normalization.

Lemma normalize_lon_le (term : Q) :
  (term <= 180)%Q -> normalize_lon term = term.
Proof.
  intros H. unfold normalize_lon.
  apply Qle_bool_iff in H. now rewrite H.
Qed.

Lemma normalize_lon_gt (term : Q) :
  (180 < term)%Q -> normalize_lon term = Q_of_float (float_of_Q term - 360)%float.
Proof.
  intros H. unfold normalize_lon.
  destruct (Qle_bool term 180) eqn:E; [|reflexivity].
  apply Qle_bool_iff in E. lra.
Qed.

(** On a binary64 number of (180, 360) the normalisation takes exactly 360
    off. *)
Lemma normalize_lon_exact (term : Q) :
  binary64 term -> (180 < term)%Q -> (term < 360)%Q ->
  (normalize_lon term == term - 360)%Q.
Proof.
  intros B G L. rewrite (normalize_lon_gt G).
  destruct (@float_lon_cases (float_of_Q term) term B G L) as [m Cases].
  rewrite (@sub_360_exact _ m Cases). unfold binary64 in B. now rewrite B.
Qed.

End Normalization.

(** C7. [read_dataset] hands out the longitudes of the file passed through
    the normalisation, which leaves a value of [-180, 180] as it is (so that
    normalising twice is normalising once) and takes 360 off a value above
    180 in the arithmetic of the array, binary64. On a binary64 number of
    (180, 360) that subtraction rounds nothing away: the value is brought to
    itself minus 360 exactly, within [-180, 180). *)
Theorem normalize_lon_spec (term : Q) :
  (forall path w dataset w',
      read_dataset path w = (Ok dataset, w') ->
      exists g, dict_get String.eqb (w_files w) path = Some g /\
                ds_lon dataset = map normalize_lon (nc_lon g)) /\
  ((-180 <= term <= 180)%Q ->
     normalize_lon term = term /\
     normalize_lon (normalize_lon term) = normalize_lon term) /\
  ((180 < term)%Q ->
     normalize_lon term = Q_of_float (float_of_Q term - 360)%float) /\
  (binary64 term -> (180 < term < 360)%Q ->
     (normalize_lon term == term - 360)%Q /\
     (-180 <= normalize_lon term < 180)%Q).
Proof.
  split; [|split; [|split]].
  - intros path w dataset w' H. unfold read_dataset in H.
    inv_bind H. inv_bind H.
    unfold log in Step. injection Step as _ <-.
    unfold read_file in Step0. cbn [w_files] in Step0. injection Step0 as <- <-.
    destruct (dict_get String.eqb (w_files w) path) as [g|]; [|discriminate].
    apply ret_Ok in H as [-> _]. exists g. auto.
  - intros [_ H]. rewrite !(normalize_lon_le H). auto.
  - apply normalize_lon_gt.
  - intros B [H1 H2]. pose proof (normalize_lon_exact B H1 H2) as E.
    split; [exact E|]. rewrite E. lra.
Qed.

(** C7, as stated, fails far from the range of longitudes, where the
    subtraction of [read_dataset] rounds as binary64 does: what comes of the
    raw value 1e17 is not that value minus 360. *)
Lemma normalize_lon_rounds :
  normalize_lon (inject_Z (10 ^ 17)) = inject_Z 99999999999999648 /\
  ~ (normalize_lon (inject_Z (10 ^ 17)) == inject_Z (10 ^ 17) - 360)%Q.
Proof. split; [vm_compute; reflexivity|]. vm_compute. discriminate. Qed.


(** C10. For a flat list or tuple that starts with a number and does not
    have exactly two elements, [from_tuples] builds a frame of one row with
    as many columns as there are elements, and naming its columns LAT and LON
    then fails with the length-mismatch [ValueError]: the [TypeError] for
    unsupported shapes is not raised, neither by [from_tuples] nor by
    [download_sst]. *)
Theorem from_tuples_flat_wrong_length
    env locations first rest start_date end_date w :
  locations = PyList (first :: rest) \/ locations = PyTuple (first :: rest) ->
  is_float_or_int first = true ->
  List.length (first :: rest) <> 2%nat ->
  let one_row :=
    mk_DataFrame (range_labels (List.length (first :: rest))) [first :: rest] in
  pd_DataFrame (PyList [locations]) = Ok one_row /\
  set_columns one_row [LAT_COL; LON_COL] = Raise ValueError /\
  from_tuples env locations start_date end_date w = (Raise ValueError, w) /\
  download_sst env (ArgValue locations) start_date end_date w
  = (Raise ValueError, w).
Proof.
  intros Shape Num Len. cbv zeta.
  assert (pd_DataFrame (PyList [locations])
          = Ok (mk_DataFrame (range_labels (List.length (first :: rest)))
                             [first :: rest])) as Frame.
  { unfold pd_DataFrame.
    assert (rmap row_cells [locations] = Ok [first :: rest]) as ->
      by (destruct Shape as [-> | ->]; reflexivity).
    cbn [map fold_right]. rewrite Nat.max_0_r. unfold pad_row.
    now rewrite Nat.sub_diag, app_nil_r. }
  assert (set_columns
            (mk_DataFrame (range_labels (List.length (first :: rest))) [first :: rest])
            [LAT_COL; LON_COL] = Raise ValueError) as Cols.
  { unfold set_columns, range_labels. cbn [df_columns].
    rewrite length_map, length_seq.
    destruct (Nat.eqb_spec (List.length [LAT_COL; LON_COL]) (List.length (first :: rest)))
      as [E|_]; [|reflexivity].
    cbn [List.length] in E, Len. congruence. }
  assert (from_tuples_frame locations = Raise ValueError) as FF.
  { unfold from_tuples_frame.
    assert (getitem0 locations = Ok first) as ->
      by (destruct Shape as [-> | ->]; reflexivity).
    cbn [rbind].
    assert (is_tuple_or_list first = false) as -> by (destruct first; auto; discriminate).
    rewrite Num, Frame. cbn [rbind]. exact Cols. }
  assert (from_tuples env locations start_date end_date w = (Raise ValueError, w)) as FT.
  { unfold from_tuples, bind, lift. now rewrite FF. }
  split; [exact Frame|]. split; [exact Cols|]. split; [exact FT|].
  unfold download_sst.
  destruct Shape as [-> | ->]; unfold bind; now rewrite FT.
Qed.

(** [download] issues its warning exactly when every value of the SST column
    is NaN before the fill value is translated (an empty table counts). *)
Lemma download_warns_on_raw_nulls env self w table w' :
  download env self w = (Ok table, w') ->
  exists output w1,
    extracted_output env self w = (Ok output, w1) /\
    (Forall (fun raw => PrimFloat.is_nan (SST raw) = true) output ->
     w_warnings w' = w_warnings w1 ++ [ALL_NULL_WARNING]) /\
    (Exists (fun raw => PrimFloat.is_nan (SST raw) = false) output ->
     w_warnings w' = w_warnings w1).
Proof.
  intros H. apply download_Ok in H as (output & w1 & Ho & _ & ->).
  exists output, w1. split; [exact Ho|].
  unfold isnull_count.
  pose proof (filter_length_le (fun row => PrimFloat.is_nan (SST row)) output) as Le.
  split.
  - intros All.
    rewrite forallb_filter_id.
    + now rewrite Nat.eqb_refl.
    + apply forallb_forall. rewrite Forall_forall in All. exact All.
  - intros Ex. apply Exists_exists in Ex as (raw & I & N).
    destruct (Nat.eqb_spec
                (List.length (filter (fun row => PrimFloat.is_nan (SST row)) output))
                (List.length output)) as [E|_]; [|reflexivity].
    exfalso. apply filter_length_forallb in E.
    rewrite forallb_forall in E. specialize (E raw I). cbv beta in E. congruence.
Qed.

(** C2, on the code. With a grid whose every cell holds the fill value the
    run completes and returns its one row with a missing SST, but no warning
    is issued: the missing values are counted before the fill value is
    translated, when the column holds no NaN yet. *)
Lemma download_land_only_raises_no_warning :
  let run := download_sst (example_env land_sst) (ArgValue (PyList [PyInt 0; PyInt 0]))
                          (ymd2ord 2010 12 30) (ymd2ord 2010 12 30) empty_world in
  fst run = Ok [one_day_row PrimFloat.nan] /\
  w_warnings (snd run) = [] /\
  fst (extracted_output (example_env land_sst) one_day_self empty_world)
  = Ok [one_day_row SENTINEL] /\
  isnull_count [one_day_row SENTINEL] = 0%nat /\
  isnull_count [one_day_row PrimFloat.nan] = 1%nat.
Proof. vm_compute. repeat split; reflexivity. Qed.

(** C1, as stated, fails at the threshold itself: a value equal to [-9e35]
    is at or below it, and comes back as it is, not as the missing marker. *)
Lemma threshold_value_is_not_translated :
  let run := download (example_env boundary_sst) one_day_self empty_world in
  fst (extracted_output (example_env boundary_sst) one_day_self empty_world)
  = Ok [one_day_row THRESHOLD] /\
  PrimFloat.leb THRESHOLD THRESHOLD = true /\
  fst run = Ok [one_day_row THRESHOLD] /\
  PrimFloat.is_nan (SST (one_day_row THRESHOLD)) = false.
Proof. vm_compute. repeat split; reflexivity. Qed.

(** ** download: when it succeeds *)

Section DownloadSucceeds.

Lemma bind_run {A B} (m : M A) (k : A -> M B) w a w1 :
  m w = (Ok a, w1) -> bind m k w = k a w1.
Proof. unfold bind. now intros ->. Qed.

Lemma take_total {A} (a : list A) idx :
  Forall (fun i => (i < List.length a)%nat) idx -> exists xs, take a idx = Ok xs.
Proof.
  intros F. unfold take. apply rmap_total. intros i I.
  rewrite Forall_forall in F. specialize (F i I).
  destruct (nth_error a i) as [x|] eqn:N; [eauto|].
  apply nth_error_None in N. lia.
Qed.

Lemma take3_total a nt ni nj ts :
  shape3 a = (nt, ni, nj) ->
  forall ix jx,
    List.length ts = List.length ix -> List.length ix = List.length jx ->
    Forall (fun t => (t < nt)%nat) ts ->
    Forall (fun i => (i < ni)%nat) ix ->
    Forall (fun j => (j < nj)%nat) jx ->
    exists xs, take3 a ts ix jx = Ok xs.
Proof.
  intros Sh. induction ts as [|t ts IH]; intros [|i ix] [|j jx] L1 L2 Ft Fi Fj;
    try discriminate.
  - exists []. reflexivity.
  - injection L1 as L1. injection L2 as L2.
    inversion Ft as [|? ? Ht Ft']; inversion Fi as [|? ? Hi Fi'];
      inversion Fj as [|? ? Hj Fj']; subst.
    destruct (IH ix jx L1 L2 Ft' Fi' Fj') as [xs E].
    cbn [take3]. unfold getitem3. rewrite Sh.
    apply Nat.ltb_lt in Ht, Hi, Hj. rewrite Ht, Hi, Hj. cbn [andb].
    rewrite E. eauto.
Qed.

Lemma Forall_np_repeat {A} (P : A -> Prop) xs n :
  Forall P xs -> Forall P (np_repeat xs n).
Proof.
  intros F. apply Forall_forall. intros x I.
  unfold np_repeat in I. apply in_flat_map in I as (y & Iy & I).
  apply repeat_spec in I. subst x. rewrite Forall_forall in F. auto.
Qed.

Lemma Forall_np_tile {A} (P : A -> Prop) xs n :
  Forall P xs -> Forall P (np_tile xs n).
Proof.
  intros F. unfold np_tile. induction n as [|n IH]; cbn [repeat List.concat].
  - constructor.
  - apply Forall_app. auto.
Qed.

Lemma np_tile_length {A} (xs : list A) n :
  List.length (np_tile xs n) = (n * List.length xs)%nat.
Proof.
  unfold np_tile. induction n as [|n IH]; cbn [repeat List.concat]; [reflexivity|].
  rewrite length_app, IH. reflexivity.
Qed.

Lemma file_name_head year :
  exists rest, file_name year = String "s" rest.
Proof. unfold file_name. cbn [append]. eauto. Qed.

Lemma os_path_join_inj a y1 y2 :
  os_path_join a (file_name y1) = os_path_join a (file_name y2) -> y1 = y2.
Proof.
  unfold os_path_join.
  destruct (file_name_head y1) as [r1 E1]. destruct (file_name_head y2) as [r2 E2].
  rewrite E1, E2. rewrite <- E1, <- E2.
  destruct ((String.length a =? 0)%nat || ends_with_slash a); intros E.
  - apply append_inj_l in E. now apply file_name_inj.
  - apply append_inj_l in E. apply (append_inj_l "/") in E. now apply file_name_inj.
Qed.

(** One pass through the body of the loop, when the year's file is not there
    yet and the server has a grid that serves the year's dates and has a
    cell within reach of every location. *)
Lemma download_year_succeeds env self queries url local_dir dates rest g w :
  as_points (locations self) = Ok queries ->
  timestamps_valid dates ->
  dict_get String.eqb (w_files w) local_dir = None ->
  env_remote env url = Some g ->
  grid_serves g dates ->
  grid_reaches g queries ->
  exists frame w',
    download_year env self (url, (local_dir, dates) :: rest) w = (Ok frame, w') /\
    w_files w' = dict_set String.eqb (w_files w) local_dir g.
Proof.
  intros Hq DV Absent Remote (Hlat & Hlon & TV & Cover & Shape) Reach.
  destruct (@get_time_index_total (dataset_of g) dates TV Cover) as [time_index Ti].
  pose proof (@get_time_index_sound (dataset_of g) dates TV DV time_index Ti) as Pt.
  destruct (@get_lat_lon_index_cells env self _ _ queries Hq Reach) as (cells & Ll & _).
  pose proof Ll as Ll'. apply get_lat_lon_index_Ok in Ll'
    as (queries' & cells' & _ & Ef & Es & _ & Tk).
  assert (Forall (fun c => (fst c < List.length (nc_lat g))%nat /\
                           (snd c < List.length (nc_lon g))%nat) cells') as Bounds.
  { unfold take in Tk. apply rmap_Ok in Tk. apply Forall_forall. intros [i j] I.
    apply In_nth_error in I as [k Nk]. apply Forall2_flip in Tk.
    destruct (Forall2_nth_error_l _ Tk Nk) as (pos & _ & Look). cbv beta in Look.
    destruct (nth_error _ pos) as [c|] eqn:N; [|discriminate].
    injection Look as ->. apply idx_matrix_bounds in N.
    rewrite length_map in N. exact N. }
  assert (Forall (fun i => (i < List.length (nc_lat g))%nat) (map fst cells)) as Bi.
  { rewrite Ef. apply Forall_map. eapply Forall_impl; [|exact Bounds]. cbv beta. tauto. }
  assert (Forall (fun j => (j < List.length (nc_lon g))%nat) (map snd cells)) as Bj.
  { rewrite Es. apply Forall_map. eapply Forall_impl; [|exact Bounds]. cbv beta. tauto. }
  assert (Forall (fun t => (t < List.length (nc_time g))%nat) time_index) as Bt.
  { apply Forall_forall. intros t I. apply In_nth_error in I as [k Nk].
    apply Forall2_flip in Pt.
    destruct (Forall2_nth_error_l _ Pt Nk) as (d & _ & t0 & N & _).
    cbn [ds_time dataset_of] in N. apply nth_error_Some. congruence. }
  destruct (@take3_total (nc_sst g) _ _ _
              (np_repeat time_index (List.length (map fst cells))) Shape
              (np_tile (map fst cells) (List.length time_index))
              (np_tile (map snd cells) (List.length time_index))) as [sst Hs].
  { rewrite np_repeat_length, np_tile_length. reflexivity. }
  { rewrite !np_tile_length, !length_map. reflexivity. }
  { now apply Forall_np_repeat. }
  { now apply Forall_np_tile. }
  { now apply Forall_np_tile. }
  destruct (@take_total _ (nc_lat g) (np_tile (map fst cells) (List.length time_index)))
    as [lat Ha]; [now apply Forall_np_tile|].
  destruct (@take_total _ (map normalize_lon (nc_lon g))
              (np_tile (map snd cells) (List.length time_index)))
    as [lon Ho]; [apply Forall_np_tile; now rewrite length_map|].
  eexists. eexists.
  unfold download_year, download_to_local, read_dataset, bind, log, read_file,
    write_file, ret, lift.
  cbn [w_files]. rewrite Absent. cbn [w_files]. rewrite Remote. cbn [w_files].
  rewrite (@dict_get_set_same _ _ _ string_eqb_spec').
  fold (dataset_of g). rewrite Ti.
  cbn [ds_lat ds_lon ds_sst dataset_of]. rewrite Ll, Hs, Ha, Ho.
  cbn [w_files]. split; reflexivity.
Qed.

Lemma mmap_download_year_succeeds env self queries :
  as_points (locations self) = Ok queries ->
  forall units w,
    NoDup (map fst units) ->
    (forall year dates,
        In (year, dates) units ->
        timestamps_valid dates /\
        exists g, env_remote env (sst_data_parent_dir self ++ file_name year)%string = Some g /\
                  grid_serves g dates /\ grid_reaches g queries) ->
    (forall year,
        In year (map fst units) ->
        dict_get String.eqb (w_files w) (os_path_join (temp_dir self) (file_name year))
        = None) ->
    exists frames w',
      mmap (download_year env self) (map (work_unit self) units) w = (Ok frames, w') /\
      List.length frames = List.length units.
Proof.
  intros Hq. induction units as [|[year dates] units IH]; intros w ND Served Absent.
  - exists [], w. split; reflexivity.
  - inversion ND as [|? ? Ny ND']; subst.
    destruct (Served year dates (or_introl eq_refl)) as (DV & g & Remote & Serves & Reach).
    destruct (@download_year_succeeds env self queries
                (sst_data_parent_dir self ++ file_name year)%string
                (os_path_join (temp_dir self) (file_name year)) dates [] g w
                Hq DV (Absent year (or_introl eq_refl)) Remote Serves Reach)
      as (frame & w1 & E & Files).
    destruct (IH w1 ND') as (frames & w' & E' & L).
    + intros y ds I. apply Served. right. exact I.
    + intros y I. rewrite Files.
      rewrite (@dict_get_set_other _ _ _ string_eqb_spec').
      * apply Absent. right. exact I.
      * intros J. apply os_path_join_inj in J. subst y. contradiction.
    + exists (frame :: frames), w'. split; [|cbn [List.length]; now rewrite L].
      cbn [map mmap]. unfold work_unit at 1. cbn [fst snd].
      unfold bind at 1. rewrite E. unfold bind at 1. rewrite E'. reflexivity.
Qed.

Lemma date_range_valid s e ts :
  valid_ordinal s = true -> valid_ordinal e = true ->
  In ts (date_range s e) -> valid_ordinal (ts_ordinal ts) = true.
Proof.
  unfold valid_ordinal. intros Vs Ve I.
  apply andb_true_iff in Vs as [Vs _]. apply andb_true_iff in Ve as [_ Ve].
  apply Z.leb_le in Vs, Ve.
  unfold date_range in I. apply in_map_iff in I as (k & <- & I).
  apply in_seq in I. cbn [midnight ts_ordinal].
  apply andb_true_iff. rewrite !Z.leb_le. lia.
Qed.

End DownloadSucceeds.

(** [download] returns a table whenever the locations are numbers, the range
    of dates is not empty and lies within the calendar, the temporary
    directory is fresh, and the server has for each year of the range a grid
    file that serves the year's requested dates and has, for every location,
    a cell at a finite computed distance. *)
Theorem download_succeeds env self w queries :
  as_points (locations self) = Ok queries ->
  (start_date self <= end_date self)%Z ->
  valid_ordinal (start_date self) = true ->
  valid_ordinal (end_date self) = true ->
  w_files w = [] ->
  (forall year dates,
      In (year, dates) (year_to_timestamp (start_date self) (end_date self)) ->
      exists g,
        env_remote env (sst_data_parent_dir self ++ "sst.day.mean." ++ str_int year ++ ".nc")%string
        = Some g /\
        grid_serves g dates /\ grid_reaches g queries) ->
  exists table w',
    download env self w = (Ok table, w') /\
    List.length table
    = (Z.to_nat (end_date self - start_date self + 1) * n_locations self)%nat.
Proof.
  intros Hq Le Vs Ve Fresh Served.
  pose proof (year_to_timestamp_grouped (start_date self) (end_date self)) as Gr.
  pose proof Gr as (ND & _ & Co).
  destruct (@mmap_download_year_succeeds env self queries Hq
              (year_to_timestamp (start_date self) (end_date self)) w ND)
    as (frames & w1 & E & L).
  - intros year dates I. split; [|now apply Served].
    assert (dates <> [] /\
            dates = filter (fun ts => (Timestamp_year ts =? year)%Z)
                           (date_range (start_date self) (end_date self)))
      as [_ ->] by (eapply grouped_In; eauto using Z.eqb_eq).
    unfold timestamps_valid. apply Forall_forall. intros ts J.
    apply filter_In in J as [J _].
    exact (@date_range_valid (start_date self) (end_date self) ts Vs Ve J).
  - intros year _. rewrite Fresh. reflexivity.
  - assert (frames <> []) as NE.
    { destruct (date_range (start_date self) (end_date self)) as [|ts l] eqn:D.
      - apply (f_equal (@List.length Timestamp)) in D.
        rewrite date_range_length in D. cbn in D. lia.
      - specialize (Co ts (or_introl eq_refl)).
        destruct (year_to_timestamp (start_date self) (end_date self)); [contradiction|].
        destruct frames; [discriminate|discriminate]. }
    assert (exists table w',
               download env self w = (Ok table, w')) as (table & w' & D).
    { unfold download. unfold bind at 1.
      rewrite remote_to_local_dir_mapping_eq, E.
      unfold bind at 1. unfold lift, pd_concat.
      destruct frames as [|f fs]; [congruence|].
      unfold bind at 1.
      destruct (isnull_count _ =? _)%nat; eexists; eexists; reflexivity. }
    exists table, w'. split; [exact D|].
    apply download_Ok in D as (output & w2 & Ho & -> & _).
    apply extracted_output_frames in Ho as (frames' & -> & _ & F).
    rewrite length_map, (frames_length F).
    rewrite (list_sum_scaled (fun entry : Z * list Timestamp => List.length (snd entry))
               (n_locations self)). f_equal.
    rewrite <- date_range_length.
    destruct (year_to_timestamp_chunked (start_date self) (end_date self)) as (Cc & _).
    rewrite <- Cc. rewrite length_concat_sum, map_map. reflexivity.
Qed.

(** ** download: the effects of the loop *)

Section LoopBody.
Variables (env : environment) (self : SeaSurfaceTempDownloader).

Lemma download_year_eq url local_dir dates rest w :
  download_year env self (url, (local_dir, dates) :: rest) w
  = (download_to_local env url local_dir ;;;
     dataset <- read_dataset local_dir ;;
     lift (year_table env self dataset dates))%M w.
Proof.
  unfold download_year, year_table, bind, lift, ret, rbind.
  destruct (download_to_local env url local_dir w) as [[[]|e] w1]; [|reflexivity].
  destruct (read_dataset local_dir w1) as [[dataset|e] w2]; [|reflexivity].
  destruct (get_time_index dataset dates) as [time_index|e]; [|reflexivity].
  destruct (get_lat_lon_index env self (ds_lat dataset) (ds_lon dataset))
    as [[lat_index lon_index]|e]; [|reflexivity].
  destruct (take3 _ _ _ _) as [sst|e]; [|reflexivity].
  destruct (take (ds_lat dataset) _) as [lat|e]; [|reflexivity].
  destruct (take (ds_lon dataset) _) as [lon|e]; reflexivity.
Qed.

(** One pass through the body of the loop, whatever its outcome. *)
Lemma download_year_run url local_dir dates rest w :
  download_year env self (url, (local_dir, dates) :: rest) w
  = (match available env w url local_dir with
     | Some g => year_table env self (dataset_of g) dates
     | None => Raise URLError
     end,
     after_year env url local_dir w).
Proof.
  rewrite download_year_eq.
  unfold download_to_local, read_dataset, available, after_year,
    bind, log, read_file, write_file, ret, raise, lift.
  cbn [w_files w_trace w_warnings].
  destruct (dict_get String.eqb (w_files w) local_dir) as [g|] eqn:G.
  - cbn [w_files w_trace w_warnings]. rewrite G. fold (dataset_of g).
    rewrite <- app_assoc. reflexivity.
  - destruct (env_remote env url) as [g|] eqn:R.
    + cbn [w_files w_trace w_warnings].
      rewrite (@dict_get_set_same _ _ _ string_eqb_spec').
      fold (dataset_of g). rewrite <- !app_assoc. reflexivity.
    + cbn [w_files w_trace w_warnings]. rewrite <- app_assoc. reflexivity.
Qed.

Lemma local_path_inj y1 y2 : local_path self y1 = local_path self y2 -> y1 = y2.
Proof. apply os_path_join_inj. Qed.

Lemma available_agree w w0 url local_dir :
  dict_get String.eqb (w_files w) local_dir = dict_get String.eqb (w_files w0) local_dir ->
  available env w url local_dir = available env w0 url local_dir.
Proof. unfold available. now intros ->. Qed.

Lemma after_year_files_other url local_dir w p :
  p <> local_dir ->
  dict_get String.eqb (w_files (after_year env url local_dir w)) p
  = dict_get String.eqb (w_files w) p.
Proof.
  intros N. unfold after_year.
  destruct (dict_get String.eqb (w_files w) local_dir); [reflexivity|].
  destruct (env_remote env url); cbn [w_files]; [|reflexivity].
  now apply (@dict_get_set_other _ _ _ string_eqb_spec').
Qed.

Lemma after_year_files_same url local_dir w g :
  available env w url local_dir = Some g ->
  dict_get String.eqb (w_files (after_year env url local_dir w)) local_dir = Some g.
Proof.
  unfold available, after_year.
  destruct (dict_get String.eqb (w_files w) local_dir) eqn:G; cbn [w_files].
  - intros <-. exact G.
  - intros ->. cbn [w_files]. apply (@dict_get_set_same _ _ _ string_eqb_spec').
Qed.

Lemma after_year_warnings url local_dir w :
  w_warnings (after_year env url local_dir w) = w_warnings w.
Proof.
  unfold after_year. destruct (dict_get String.eqb (w_files w) local_dir);
    [reflexivity|]. destruct (env_remote env url); reflexivity.
Qed.

Lemma after_year_trace w0 w year dates g :
  dict_get String.eqb (w_files w) (local_path self year)
  = dict_get String.eqb (w_files w0) (local_path self year) ->
  available env w (remote_url self year) (local_path self year) = Some g ->
  w_trace (after_year env (remote_url self year) (local_path self year) w)
  = w_trace w ++ year_events self w0 (year, dates).
Proof.
  unfold available, after_year, year_events. cbn [fst]. intros <-.
  destruct (dict_get String.eqb (w_files w) (local_path self year)); [reflexivity|].
  intros ->. reflexivity.
Qed.

(** The outcome of the loop: the years are processed in turn, each from the
    file that was there when the loop started or else from the server, until
    one of them fails. *)
Lemma mmap_download_year_fst units :
  forall w0 w,
    NoDup (map fst units) ->
    (forall y, In y (map fst units) ->
               dict_get String.eqb (w_files w) (local_path self y)
               = dict_get String.eqb (w_files w0) (local_path self y)) ->
    fst (mmap (download_year env self) (map (work_unit self) units) w)
    = rmap (year_result env self w0) units.
Proof.
  induction units as [|[y dates] units IH]; intros w0 w ND Ag; [reflexivity|].
  inversion ND as [|? ? Ny ND']; subst.
  cbn [map mmap rmap]. unfold work_unit at 1. cbn [fst snd].
  unfold bind at 1. rewrite download_year_run.
  change (sst_data_parent_dir self ++ file_name y)%string with (remote_url self y).
  change (os_path_join (temp_dir self) (file_name y)) with (local_path self y).
  unfold year_result at 1. cbn [fst snd].
  rewrite (@available_agree w w0) by (apply Ag; left; reflexivity).
  destruct (match available env w0 (remote_url self y) (local_path self y) with
            | Some g => year_table env self (dataset_of g) dates
            | None => Raise URLError
            end) as [frame|e]; [|reflexivity].
  unfold bind at 1.
  specialize (IH w0 (after_year env (remote_url self y) (local_path self y) w) ND').
  rewrite <- IH.
  - destruct (mmap _ _ _) as [[frames|e] w2]; reflexivity.
  - intros y' I. rewrite after_year_files_other.
    + apply Ag. right. exact I.
    + intros E. apply local_path_inj in E. subst y'. contradiction.
Qed.

(** What a loop that went through has left: the operations of each year in
    turn, no warning, a file for each year, and every other file as it
    was. *)
Lemma mmap_download_year_snd units :
  forall w0 w frames w',
    NoDup (map fst units) ->
    (forall y, In y (map fst units) ->
               dict_get String.eqb (w_files w) (local_path self y)
               = dict_get String.eqb (w_files w0) (local_path self y)) ->
    mmap (download_year env self) (map (work_unit self) units) w = (Ok frames, w') ->
    w_trace w' = w_trace w ++ flat_map (year_events self w0) units /\
    w_warnings w' = w_warnings w /\
    (forall p, ~ In p (map (local_path self) (map fst units)) ->
               dict_get String.eqb (w_files w') p = dict_get String.eqb (w_files w) p) /\
    (forall y, In y (map fst units) ->
               exists g,
                 available env w0 (remote_url self y) (local_path self y) = Some g /\
                 dict_get String.eqb (w_files w') (local_path self y) = Some g).
Proof.
  induction units as [|[y dates] units IH]; intros w0 w frames w' ND Ag H.
  - cbn [map mmap] in H. apply ret_Ok in H as [_ ->]. cbn [flat_map map].
    rewrite app_nil_r. repeat split; try reflexivity. intros y [].
  - inversion ND as [|? ? Ny ND']; subst.
    cbn [map mmap] in H. unfold work_unit at 1 in H. cbn [fst snd] in H.
    inv_bind H. rename Step into Hy, a into frame, w1 into wy.
    inv_bind H. rename Step into Hrest, a into frames', w1 into w2.
    apply ret_Ok in H as [-> ->].
    rewrite download_year_run in Hy.
    change (sst_data_parent_dir self ++ file_name y)%string with (remote_url self y) in Hy.
    change (os_path_join (temp_dir self) (file_name y)) with (local_path self y) in Hy.
    injection Hy as Hr <-.
    assert (dict_get String.eqb (w_files w) (local_path self y)
            = dict_get String.eqb (w_files w0) (local_path self y)) as Ay
      by (apply Ag; left; reflexivity).
    destruct (available env w (remote_url self y) (local_path self y)) as [g|] eqn:Av;
      [|discriminate].
    assert (forall y', In y' (map fst units) ->
              dict_get String.eqb
                (w_files (after_year env (remote_url self y) (local_path self y) w))
                (local_path self y')
              = dict_get String.eqb (w_files w0) (local_path self y')) as Ag'.
    { intros y' I. rewrite after_year_files_other.
      - apply Ag. right. exact I.
      - intros E. apply local_path_inj in E. subst y'. contradiction. }
    destruct (IH w0 _ frames' w2 ND' Ag' Hrest) as (Tr & Wa & Other & Same).
    split; [|split; [|split]].
    + rewrite Tr, (@after_year_trace w0 w y dates g Ay Av). cbn [flat_map].
      now rewrite app_assoc.
    + rewrite Wa. apply after_year_warnings.
    + intros p N. cbn [map] in N. rewrite Other by (intros I; apply N; right; exact I).
      apply after_year_files_other. intros E. apply N. left. now symmetry.
    + intros y' [<-|I].
      * exists g. split; [now rewrite <- (@available_agree w w0)|].
        rewrite Other.
        -- now apply after_year_files_same.
        -- intros I. apply in_map_iff in I as (y' & E & I).
           apply local_path_inj in E. subst y'. contradiction.
      * apply Same. exact I.
Qed.

End LoopBody.

(** ** download: what a run reads, writes and returns *)

Section DownloadRun.
Variables (env : environment) (self : SeaSurfaceTempDownloader).

Local Abbreviation units := (year_to_timestamp (start_date self) (end_date self)).

Lemma units_NoDup : NoDup (map fst units).
Proof. now destruct (year_to_timestamp_grouped (start_date self) (end_date self)). Qed.

(** The result of [download] as a function of the files at hand. *)
Lemma download_fst w :
  fst (download env self w)
  = (frames <-? rmap (year_result env self w) units ;; assemble frames)%res.
Proof.
  unfold download. rewrite remote_to_local_dir_mapping_eq.
  pose proof (@mmap_download_year_fst env self units w w units_NoDup
                (fun _ _ => eq_refl)) as F.
  unfold bind at 1.
  destruct (mmap (download_year env self) (map (work_unit self) units) w)
    as [[frames|e] w1]; cbn [fst] in F; rewrite <- F; cbn [rbind]; [|reflexivity].
  unfold bind at 1. unfold lift, assemble.
  destruct (pd_concat frames) as [output|e]; cbn [rbind]; [|reflexivity].
  unfold bind, ret, warnings_warn.
  destruct (isnull_count output =? List.length output)%nat; reflexivity.
Qed.

(** The world a successful [download] leaves. *)
Lemma download_snd w table w' :
  download env self w = (Ok table, w') ->
  w_trace w' = w_trace w ++ flat_map (year_events self w) units /\
  (forall p, ~ In p (map (local_path self) (map fst units)) ->
             dict_get String.eqb (w_files w') p = dict_get String.eqb (w_files w) p) /\
  (forall y, In y (map fst units) ->
             exists g,
               available env w (remote_url self y) (local_path self y) = Some g /\
               dict_get String.eqb (w_files w') (local_path self y) = Some g).
Proof.
  unfold download. rewrite remote_to_local_dir_mapping_eq. intros H.
  inv_bind H. rename Step into Loop, a into frames, w0 into wl.
  inv_bind H. rename Step into Hc, a into output, w0 into wc.
  apply lift_Ok in Hc as [_ ->].
  inv_bind H. rename Step into Hw, a into u, w0 into ww.
  apply ret_Ok in H as [_ ->].
  destruct (@mmap_download_year_snd env self units w w frames wl units_NoDup
              (fun _ _ => eq_refl) Loop) as (Tr & _ & Other & Same).
  assert (w_trace ww = w_trace wl /\ w_files ww = w_files wl) as [-> ->].
  { destruct (isnull_count output =? List.length output)%nat.
    - unfold warnings_warn in Hw. injection Hw as _ <-. split; reflexivity.
    - apply ret_Ok in Hw as [_ ->]. split; reflexivity. }
  auto.
Qed.

End DownloadRun.

Section MoreResultFacts.
Context {A B : Type}.

Lemma rmap_ext_in (f g : A -> result B) l :
  (forall x, In x l -> f x = g x) -> rmap f l = rmap g l.
Proof.
  induction l as [|x l IH]; intros H; cbn [rmap]; [reflexivity|].
  rewrite (H x) by (left; reflexivity).
  rewrite IH; [reflexivity|]. intros y I. apply H. right. exact I.
Qed.

(** The loop stops at the first element that raises. *)
Lemma rmap_first_Raise (f : A -> result B) l1 x l2 e :
  (forall y, In y l1 -> exists b, f y = Ok b) -> f x = Raise e ->
  rmap f (l1 ++ x :: l2) = Raise e.
Proof.
  induction l1 as [|y l1 IH]; intros H Fx; cbn [app rmap].
  - now rewrite Fx.
  - destruct (H y (or_introl eq_refl)) as [b ->].
    rewrite IH; [reflexivity| |assumption].
    intros z I. apply H. right. exact I.
Qed.

(** A loop that raises has met an element that raises. *)
Lemma rmap_Raise_inv (f : A -> result B) l e :
  rmap f l = Raise e -> exists x, In x l /\ f x = Raise e.
Proof.
  induction l as [|x l IH]; cbn [rmap]; [discriminate|].
  destruct (f x) as [y|e'] eqn:Fx.
  - destruct (rmap f l) as [ys|e'']; [discriminate|].
    intros [= <-]. destruct (IH eq_refl) as (x' & I & E). exists x'.
    split; [right; exact I|exact E].
  - intros [= <-]. exists x. split; [left; reflexivity|exact Fx].
Qed.

End MoreResultFacts.

(** A [download] that returns a table has performed, for each calendar year
    of the range in chronological order, one existence check of the year's
    local file, one retrieval of the year's remote file exactly when that
    local file was not there when [download] was called, and one opening of
    the local file; it has performed nothing else. *)
Theorem download_file_operations env self w table w' :
  download env self w = (Ok table, w') ->
  w_trace w'
  = w_trace w ++
    flat_map
      (fun entry =>
         let local_dir := os_path_join (temp_dir self) (file_name (fst entry)) in
         let remote_url := (sst_data_parent_dir self ++ file_name (fst entry))%string in
         EvExists local_dir ::
         match dict_get String.eqb (w_files w) local_dir with
         | Some _ => []
         | None => [EvUrlretrieve remote_url local_dir]
         end ++ [EvOpenDataset local_dir])
      (year_to_timestamp (start_date self) (end_date self)).
Proof. intros H. now apply download_snd in H. Qed.

(** A [download] that returns a table has overwritten and removed no local
    file; it has left, for each year of the range, the year's file in the
    temporary directory: the one that was there or else the one the server
    has; and it has created no other file. *)
Theorem download_keeps_local_files env self w table w' :
  download env self w = (Ok table, w') ->
  (forall p g, dict_get String.eqb (w_files w) p = Some g ->
               dict_get String.eqb (w_files w') p = Some g) /\
  (forall year dates,
      In (year, dates) (year_to_timestamp (start_date self) (end_date self)) ->
      exists g,
        dict_get String.eqb (w_files w') (local_path self year) = Some g /\
        (dict_get String.eqb (w_files w) (local_path self year) = None ->
         env_remote env (remote_url self year) = Some g)) /\
  (forall p, dict_get String.eqb (w_files w) p = None ->
             (forall year dates,
                 In (year, dates) (year_to_timestamp (start_date self) (end_date self)) ->
                 p <> local_path self year) ->
             dict_get String.eqb (w_files w') p = None).
Proof.
  intros H. apply download_snd in H as (_ & Other & Same).
  split; [|split].
  - intros p g G.
    destruct (in_dec string_dec p
                (map (local_path self)
                     (map fst (year_to_timestamp (start_date self) (end_date self)))))
      as [I|N].
    + apply in_map_iff in I as (y & <- & I).
      destruct (Same y I) as (g' & Av & G'). unfold available in Av.
      rewrite G in Av. congruence.
    + now rewrite Other.
  - intros year dates I.
    destruct (Same year) as (g & Av & G).
    { apply in_map_iff. exists (year, dates). auto. }
    exists g. split; [exact G|]. intros Absent. unfold available in Av.
    now rewrite Absent in Av.
  - intros p G Not. rewrite Other; [exact G|].
    intros I. apply in_map_iff in I as (y & <- & I).
    apply in_map_iff in I as ([y' dates] & <- & I). now apply (Not y' dates).
Qed.

(** The table of a year depends on the environment through the order of
    the tree only. *)
Lemma year_table_same_tree env env' self dataset dates :
  env_tree_order env' = env_tree_order env ->
  year_table env' self dataset dates = year_table env self dataset dates.
Proof.
  intros T. unfold year_table, get_lat_lon_index, KDTree_query, tree_order.
  now rewrite T.
Qed.

(** Once [download] has returned a table, calling it again on the same
    downloader, with the same library, returns the same table from the local
    files alone: whatever the server has by then, nothing is retrieved (each
    year's file is only checked and opened) and no file changes. *)
Theorem download_again env env' self w table w1 :
  env_tree_order env' = env_tree_order env ->
  download env self w = (Ok table, w1) ->
  exists w2,
    download env' self w1 = (Ok table, w2) /\
    w_trace w2
    = w_trace w1 ++
      flat_map (fun entry => [EvExists (local_path self (fst entry));
                              EvOpenDataset (local_path self (fst entry))])
               (year_to_timestamp (start_date self) (end_date self)) /\
    forall p, dict_get String.eqb (w_files w2) p = dict_get String.eqb (w_files w1) p.
Proof.
  intros T H. pose proof (@download_snd _ _ _ _ _ H) as (_ & _ & Same).
  assert (fst (download env' self w1) = Ok table) as F.
  { rewrite download_fst.
    rewrite (@rmap_ext_in _ _ (year_result env' self w1) (year_result env self w)).
    - rewrite <- download_fst, H. reflexivity.
    - intros [y dates] I. unfold year_result. cbn [fst snd].
      destruct (Same y) as (g & Av & G).
      { apply in_map_iff. exists (y, dates). auto. }
      rewrite Av. unfold available. rewrite G.
      now apply year_table_same_tree. }
  destruct (download env' self w1) as [r w2] eqn:Again. cbn [fst] in F. subst r.
  exists w2. split; [reflexivity|].
  pose proof (@download_snd _ _ _ _ _ Again) as (Tr & Other & Same').
  split.
  - rewrite Tr. f_equal. rewrite !flat_map_concat_map. f_equal.
    apply map_ext_in. intros [y dates] I. unfold year_events. cbn [fst].
    destruct (Same y) as (g & _ & G).
    { apply in_map_iff. exists (y, dates). auto. }
    now rewrite G.
  - intros p.
    destruct (in_dec string_dec p
                (map (local_path self)
                     (map fst (year_to_timestamp (start_date self) (end_date self)))))
      as [I|N]; [|now apply Other].
    apply in_map_iff in I as (y & <- & I).
    destruct (Same y I) as (g & _ & G). destruct (Same' y I) as (g' & Av & G').
    unfold available in Av. rewrite G in Av. congruence.
Qed.


(** ** download: the first year that fails *)

Section FirstFailure.
Variables (env : environment) (self : SeaSurfaceTempDownloader).

Lemma year_table_served queries g dates :
  as_points (locations self) = Ok queries ->
  timestamps_valid dates ->
  grid_serves g dates ->
  grid_reaches g queries ->
  exists frame, year_table env self (dataset_of g) dates = Ok frame.
Proof.
  intros Hq DV GS GR.
  destruct (@download_year_succeeds
              (mk_environment (fun _ => Some g) EmptyString (env_tree_order env))
              self queries
              EmptyString EmptyString dates [] g empty_world
              Hq DV eq_refl eq_refl GS GR) as (frame & w' & E & _).
  rewrite download_year_run in E. unfold available in E.
  cbn [w_files empty_world dict_get env_remote] in E.
  injection E as E _. rewrite (@year_table_same_tree env) in E by reflexivity. eauto.
Qed.

Lemma units_dates_valid year dates :
  valid_ordinal (start_date self) = true ->
  valid_ordinal (end_date self) = true ->
  In (year, dates) (year_to_timestamp (start_date self) (end_date self)) ->
  timestamps_valid dates.
Proof.
  intros Vs Ve I.
  pose proof (year_to_timestamp_grouped (start_date self) (end_date self)) as Gr.
  assert (dates <> [] /\
          dates = filter (fun ts => (Timestamp_year ts =? year)%Z)
                         (date_range (start_date self) (end_date self)))
    as [_ ->] by (eapply grouped_In; eauto using Z.eqb_eq).
  unfold timestamps_valid. apply Forall_forall. intros ts J.
  apply filter_In in J as [J _].
  exact (@date_range_valid (start_date self) (end_date self) ts Vs Ve J).
Qed.

(** [download] ends with the exception of the first year that fails, when
    the years before it are served. *)
Lemma download_first_failure w queries before year dates after e :
  as_points (locations self) = Ok queries ->
  valid_ordinal (start_date self) = true ->
  valid_ordinal (end_date self) = true ->
  year_to_timestamp (start_date self) (end_date self)
  = before ++ (year, dates) :: after ->
  (forall y ds,
      In (y, ds) before ->
      exists g, available env w (remote_url self y) (local_path self y) = Some g /\
                grid_serves g ds /\ grid_reaches g queries) ->
  year_result env self w (year, dates) = Raise e ->
  exists w', download env self w = (Raise e, w').
Proof.
  intros Hq Vs Ve Split Served Fails.
  assert (fst (download env self w) = Raise e) as F.
  { rewrite download_fst, Split.
    rewrite (@rmap_first_Raise _ _ (year_result env self w) before (year, dates) after e);
      [reflexivity| |exact Fails].
    intros [y ds] I. destruct (Served y ds I) as (g & Av & GS & GR).
    unfold year_result. cbn [fst snd]. rewrite Av.
    apply (@year_table_served queries g ds Hq); [|exact GS|exact GR].
    apply (@units_dates_valid y ds Vs Ve). rewrite Split.
    apply in_app_iff. left. exact I. }
  destruct (download env self w) as [r w']. cbn [fst] in F. subst r. eauto.
Qed.

End FirstFailure.

(** When the file of a year of the range is neither in the temporary
    directory nor on the server, and the years before it are served, with a
    cell within reach of every location, [download] raises [URLError]: the failed retrieval ends the whole
    download, and no table is returned for the years already read. *)
Theorem download_unserved_year env self w queries before year dates after :
  as_points (locations self) = Ok queries ->
  valid_ordinal (start_date self) = true ->
  valid_ordinal (end_date self) = true ->
  year_to_timestamp (start_date self) (end_date self)
  = before ++ (year, dates) :: after ->
  (forall y ds,
      In (y, ds) before ->
      exists g, available env w (remote_url self y) (local_path self y) = Some g /\
                grid_serves g ds /\ grid_reaches g queries) ->
  dict_get String.eqb (w_files w) (local_path self year) = None ->
  env_remote env (sst_data_parent_dir self ++ "sst.day.mean." ++ str_int year ++ ".nc")%string
  = None ->
  exists w', download env self w = (Raise URLError, w').
Proof.
  intros Hq Vs Ve Split Served Absent Unserved.
  apply (@download_first_failure env self w queries before year dates after URLError
           Hq Vs Ve Split Served).
  unfold year_result, available. cbn [fst snd]. rewrite Absent.
  unfold remote_url, file_name. now rewrite Unserved.
Qed.

(** When the file of a year of the range has a decodable time axis that
    lacks one of the year's requested dates, and the years before it are
    served, with a cell within reach of every location, [download] raises
    [KeyError]: a date that is missing from the
    data ends the whole download; it is not skipped and not filled with a
    missing value. *)
Theorem download_missing_date env self w queries before year dates after g :
  as_points (locations self) = Ok queries ->
  valid_ordinal (start_date self) = true ->
  valid_ordinal (end_date self) = true ->
  year_to_timestamp (start_date self) (end_date self)
  = before ++ (year, dates) :: after ->
  (forall y ds,
      In (y, ds) before ->
      exists g, available env w (remote_url self y) (local_path self y) = Some g /\
                grid_serves g ds /\ grid_reaches g queries) ->
  available env w (remote_url self year) (local_path self year) = Some g ->
  time_axis_valid (dataset_of g) ->
  (exists ts, In ts dates /\ forall i, ~ points_at (dataset_of g) ts i) ->
  exists w', download env self w = (Raise KeyError, w').
Proof.
  intros Hq Vs Ve Split Served Av TV Missing.
  apply (@download_first_failure env self w queries before year dates after KeyError
           Hq Vs Ve Split Served).
  unfold year_result. cbn [fst snd]. rewrite Av. unfold year_table.
  rewrite (@get_time_index_missing (dataset_of g) dates TV); [reflexivity| |exact Missing].
  apply (@units_dates_valid self year dates Vs Ve). rewrite Split.
  apply in_app_iff. right. left. reflexivity.
Qed.

(** ** The constructors *)

Section Constructors.

Lemma label_eqb_eq a b : label_eqb a b = true <-> a = b.
Proof.
  destruct a as [n|s], b as [m|t]; cbn [label_eqb].
  - rewrite Nat.eqb_eq. split; [now intros ->|now intros [= ->]].
  - split; discriminate.
  - split; discriminate.
  - rewrite String.eqb_eq. split; [now intros ->|now intros [= ->]].
Qed.

Lemma positions_from_nil labels l :
  forall i, positions_from i labels l = [] <-> ~ In l labels.
Proof.
  induction labels as [|l' labels IH]; intros i; cbn [positions_from In].
  - tauto.
  - destruct (label_eqb l l') eqn:E.
    + apply label_eqb_eq in E. split; [discriminate|]. intros N. exfalso. auto.
    + rewrite IH. split; [|tauto]. intros N [->|I]; [|auto].
      assert (label_eqb l l = true) by now apply label_eqb_eq. congruence.
Qed.

Lemma positions_from_NoDup labels l :
  NoDup labels ->
  forall k i, nth_error labels k = Some l -> positions_from i labels l = [i + k].
Proof.
  induction 1 as [|l' labels N ND IH]; intros k i Nk.
  - destruct k; discriminate.
  - cbn [positions_from]. destruct k as [|k]; cbn [nth_error] in Nk.
    + injection Nk as ->.
      assert (label_eqb l l = true) as -> by now apply label_eqb_eq.
      rewrite Nat.add_0_r. f_equal. apply positions_from_nil. exact N.
    + destruct (label_eqb l l') eqn:E.
      * apply label_eqb_eq in E. subst l'. exfalso. apply N.
        eapply nth_error_In; eauto.
      * rewrite (IH k (S i) Nk). f_equal. lia.
Qed.

Lemma select_columns_missing df lat_col lon_col :
  ~ In lat_col (df_columns df) \/ ~ In lon_col (df_columns df) ->
  select_columns df [lat_col; lon_col] = Raise KeyError.
Proof.
  intros H. unfold select_columns. cbn [rmap].
  destruct (positions_from 0 (df_columns df) lat_col) as [|p ps] eqn:Pa; [reflexivity|].
  destruct (positions_from 0 (df_columns df) lon_col) as [|q qs] eqn:Po; [reflexivity|].
  exfalso. destruct H as [N|N]; apply (positions_from_nil _ _ 0) in N; congruence.
Qed.

Lemma select_columns_found df lat_col lon_col i j :
  NoDup (df_columns df) ->
  nth_error (df_columns df) i = Some lat_col ->
  nth_error (df_columns df) j = Some lon_col ->
  select_columns df [lat_col; lon_col]
  = Ok (mk_DataFrame [lat_col; lon_col]
          (map (fun row => [nth i row PyNaN; nth j row PyNaN]) (df_rows df))).
Proof.
  intros ND Ni Nj. unfold select_columns. cbn [rmap].
  rewrite (positions_from_NoDup ND i 0 Ni), (positions_from_NoDup ND j 0 Nj).
  reflexivity.
Qed.

Lemma init_run env df s e lat_col lon_col w :
  init env df s e lat_col lon_col w
  = (match select_columns df [lat_col; lon_col] with
     | Ok locations =>
         Ok (mk_SeaSurfaceTempDownloader NOAA_DIR (env_tmp env) locations s e)
     | Raise ex => Raise ex
     end,
     after_mkdtemp env w).
Proof.
  unfold init, tempfile_mkdtemp, bind, log, ret, lift, after_mkdtemp.
  destruct (select_columns df [lat_col; lon_col]); reflexivity.
Qed.

Lemma rows_of_two cells :
  Forall (fun c : list pyval => List.length c = 2) cells ->
  map (fun row => [nth 0 row PyNaN; nth 1 row PyNaN]) cells = cells.
Proof.
  induction 1 as [|c cells L _ IH]; cbn [map]; [reflexivity|].
  rewrite IH. f_equal.
  destruct c as [|a [|b [|x c]]]; try discriminate. reflexivity.
Qed.

Lemma init_LAT_LON_frame env cells s e w :
  Forall (fun c : list pyval => List.length c = 2) cells ->
  init env (mk_DataFrame [LAT_COL; LON_COL] cells) s e LAT_COL LON_COL w
  = (Ok (mk_SeaSurfaceTempDownloader NOAA_DIR (env_tmp env)
           (mk_DataFrame [LAT_COL; LON_COL] cells) s e),
     after_mkdtemp env w).
Proof.
  intros F. rewrite init_run.
  rewrite (@select_columns_found _ LAT_COL LON_COL 0 1); cbn [df_columns df_rows].
  - now rewrite (rows_of_two F).
  - repeat constructor; cbn [In]; intuition discriminate.
  - reflexivity.
  - reflexivity.
Qed.

Lemma pad_row_length width row :
  List.length row <= width -> List.length (pad_row width row) = width.
Proof. intros L. unfold pad_row. rewrite length_app, repeat_length. lia. Qed.

Lemma max_width_bound (cells : list (list pyval)) c :
  In c cells -> List.length c <= fold_right Nat.max 0 (map (@List.length pyval) cells).
Proof.
  induction cells as [|c' cells IH]; cbn [In map fold_right]; [contradiction|].
  intros [->|I]; [lia|]. specialize (IH I). lia.
Qed.

Lemma max_width_two (cells : list (list pyval)) :
  cells <> [] -> Forall (fun c : list pyval => List.length c = 2) cells ->
  fold_right Nat.max 0 (map (@List.length pyval) cells) = 2.
Proof.
  intros NE F. induction F as [|c cells L F IH]; [congruence|].
  cbn [map fold_right]. rewrite L. destruct cells as [|c' cells]; [reflexivity|].
  rewrite IH by discriminate. reflexivity.
Qed.

Lemma pad_rows_of_two cells :
  Forall (fun c : list pyval => List.length c = 2) cells ->
  map (pad_row 2) cells = cells.
Proof.
  induction 1 as [|c cells L _ IH]; cbn [map]; [reflexivity|].
  rewrite IH. f_equal. unfold pad_row. rewrite L. cbn [Nat.sub repeat].
  apply app_nil_r.
Qed.

Lemma is_pair_cells rows cells :
  Forall2 is_pair rows cells ->
  rmap row_cells rows = Ok cells /\
  Forall (fun c : list pyval => List.length c = 2) cells /\
  Forall (fun r => is_tuple_or_list r = true) rows.
Proof.
  induction 1 as [|r c rows cells [[->| ->] L] _ (IH & F & T)].
  - repeat split; constructor.
  - cbn [rmap row_cells]. rewrite IH. repeat split; constructor; auto.
  - cbn [rmap row_cells]. rewrite IH. repeat split; constructor; auto.
Qed.

Lemma from_tuples_frame_pairs v rows cells :
  v = PyList rows \/ v = PyTuple rows ->
  rows <> [] ->
  Forall2 is_pair rows cells ->
  from_tuples_frame v = Ok (mk_DataFrame [LAT_COL; LON_COL] cells).
Proof.
  intros Hv NE P. destruct (is_pair_cells P) as (Rc & F & T).
  assert (cells <> []) as NE'.
  { destruct P; [congruence|discriminate]. }
  assert (exists r rows', rows = r :: rows' /\ is_tuple_or_list r = true)
    as (r & rows' & -> & Tr).
  { destruct rows as [|r rows']; [congruence|].
    inversion T; subst. eauto. }
  unfold from_tuples_frame.
  assert (getitem0 v = Ok r) as -> by (destruct Hv as [->| ->]; reflexivity).
  cbn [rbind]. rewrite Tr.
  assert (pd_DataFrame v = Ok (mk_DataFrame (range_labels 2) cells)) as ->.
  { assert (pd_DataFrame v
            = match rmap row_cells (r :: rows') with
              | Raise e => Raise e
              | Ok cells =>
                  let width := fold_right Nat.max 0 (map (@List.length pyval) cells) in
                  Ok (mk_DataFrame (range_labels width) (map (pad_row width) cells))
              end) as -> by (destruct Hv as [->| ->]; reflexivity).
    rewrite Rc. cbv zeta. rewrite (max_width_two NE' F), (pad_rows_of_two F).
    reflexivity. }
  reflexivity.
Qed.

End Constructors.

Section ConstructorShapes.

Lemma pd_DataFrame_shape data df :
  pd_DataFrame data = Ok df ->
  exists width,
    df_columns df = range_labels width /\
    Forall (fun row => List.length row = width) (df_rows df).
Proof.
  intros H.
  assert (exists rows,
             match rmap row_cells rows with
             | Raise e => Raise e
             | Ok cells =>
                 let width := fold_right Nat.max 0 (map (@List.length pyval) cells) in
                 Ok (mk_DataFrame (range_labels width) (map (pad_row width) cells))
             end = Ok df) as (rows & E).
  { destruct data; try discriminate H; eauto. }
  destruct (rmap row_cells rows) as [cells|]; [|discriminate].
  cbv zeta in E. injection E as <-. eexists. split; [reflexivity|].
  cbn [df_rows]. apply Forall_forall. intros row I.
  apply in_map_iff in I as (c & <- & I).
  apply pad_row_length. now apply max_width_bound.
Qed.

Lemma from_tuples_frame_shape v df :
  from_tuples_frame v = Ok df ->
  exists cells,
    df = mk_DataFrame [LAT_COL; LON_COL] cells /\
    Forall (fun c : list pyval => List.length c = 2) cells.
Proof.
  unfold from_tuples_frame. intros H.
  apply rbind_Ok in H as (location_peek & _ & H).
  apply rbind_Ok in H as (locations_df & Built & H).
  assert (exists data, pd_DataFrame data = Ok locations_df) as (data & Pd).
  { destruct (is_tuple_or_list location_peek); [eauto|].
    destruct (is_float_or_int location_peek); [eauto|discriminate]. }
  apply pd_DataFrame_shape in Pd as (width & Cols & Rows).
  unfold set_columns in H. rewrite Cols in H. unfold range_labels in H.
  rewrite length_map, length_seq in H. cbn [List.length] in H.
  destruct (2 =? width) eqn:W; [|discriminate].
  apply Nat.eqb_eq in W. subst width. injection H as <-. eauto.
Qed.

Lemma pd_DataFrame_raises data ex :
  pd_DataFrame data = Raise ex -> ex = TypeError \/ ex = ValueError.
Proof.
  assert (forall rows,
             match rmap row_cells rows with
             | Raise e => Raise e
             | Ok cells =>
                 let width := fold_right Nat.max 0 (map (@List.length pyval) cells) in
                 Ok (mk_DataFrame (range_labels width) (map (pad_row width) cells))
             end = Raise ex -> ex = TypeError) as Rows.
  { intros rows R. destruct (rmap row_cells rows) as [cells|e] eqn:RC; [discriminate|].
    injection R as <-. apply rmap_Raise_inv in RC as (row & _ & E).
    destruct row; cbn [row_cells] in E; congruence. }
  intros D. destruct data; cbn [pd_DataFrame] in D;
    try (injection D as <-; now right); left; eapply Rows; exact D.
Qed.

End ConstructorShapes.

(** The constructor keeps of the given frame the latitude column and the
    longitude column, in this order, whatever the order and the number of
    the frame's columns, and every row in its place; it records the fixed
    NOAA directory, the temporary directory [tempfile.mkdtemp] has just
    created, and the two dates. *)
Theorem init_selects_columns env df s e lat_col lon_col w i j :
  NoDup (df_columns df) ->
  nth_error (df_columns df) i = Some lat_col ->
  nth_error (df_columns df) j = Some lon_col ->
  init env df s e lat_col lon_col w
  = (Ok (mk_SeaSurfaceTempDownloader
           "ftp://ftp.cdc.noaa.gov/Datasets/noaa.oisst.v2.highres/"
           (env_tmp env)
           (mk_DataFrame [lat_col; lon_col]
              (map (fun row => [nth i row PyNaN; nth j row PyNaN]) (df_rows df)))
           s e),
     mk_world (w_files w) (w_trace w ++ [EvMkdtemp (env_tmp env)]) (w_warnings w)).
Proof.
  intros ND Ni Nj. rewrite init_run, (@select_columns_found df lat_col lon_col i j ND Ni Nj). reflexivity.
Qed.

(** The constructor raises [KeyError] exactly when the frame lacks the
    latitude column or the longitude column, and by then the temporary
    directory has been created; [download_sst] on such a frame (one without
    a column [LAT] or without a column [LON]) ends the same way, before any
    file is looked for. *)
Theorem init_missing_column env df s e w :
  (forall lat_col lon_col,
      init env df s e lat_col lon_col w = (Raise KeyError, after_mkdtemp env w) <->
      ~ In lat_col (df_columns df) \/ ~ In lon_col (df_columns df)) /\
  (forall lat_col lon_col ex w',
      init env df s e lat_col lon_col w = (Raise ex, w') -> ex = KeyError) /\
  (~ In LAT_COL (df_columns df) \/ ~ In LON_COL (df_columns df) ->
   download_sst env (ArgDataFrame df) s e w = (Raise KeyError, after_mkdtemp env w)).
Proof.
  assert (forall lat_col lon_col ex,
             select_columns df [lat_col; lon_col] = Raise ex ->
             ex = KeyError /\
             (~ In lat_col (df_columns df) \/ ~ In lon_col (df_columns df))) as Inv.
  { intros lat_col lon_col ex. unfold select_columns. cbn [rmap].
    destruct (positions_from 0 (df_columns df) lat_col) as [|p ps] eqn:Pa.
    - intros [= <-]. split; [reflexivity|]. left. now apply (positions_from_nil _ _ 0).
    - destruct (positions_from 0 (df_columns df) lon_col) as [|q qs] eqn:Po.
      + intros [= <-]. split; [reflexivity|]. right.
        now apply (positions_from_nil _ _ 0).
      + discriminate. }
  split; [|split].
  - intros lat_col lon_col. rewrite init_run. split.
    + destruct (select_columns df [lat_col; lon_col]) as [l|ex] eqn:S; [discriminate|].
      intros _. now apply (Inv _ _ _ S).
    + intros H. now rewrite (@select_columns_missing df lat_col lon_col H).
  - intros lat_col lon_col ex w'. rewrite init_run.
    destruct (select_columns df [lat_col; lon_col]) as [l|ex'] eqn:S; [discriminate|].
    intros [= <- _]. now apply (Inv _ _ _ S).
  - intros H. unfold download_sst, bind. rewrite init_run.
    now rewrite (@select_columns_missing df LAT_COL LON_COL H).
Qed.

(** [from_tuples] on a non-empty list or tuple of pairs (each a list or a
    tuple of two values) builds a downloader whose locations are these
    pairs, one row per pair in the order given, under the columns [LAT] and
    [LON]: the first value of a pair is its latitude, the second its
    longitude. *)
Theorem from_tuples_pairs env v rows cells s e w :
  v = PyList rows \/ v = PyTuple rows ->
  rows <> [] ->
  Forall2 is_pair rows cells ->
  from_tuples env v s e w
  = (Ok (mk_SeaSurfaceTempDownloader
           "ftp://ftp.cdc.noaa.gov/Datasets/noaa.oisst.v2.highres/"
           (env_tmp env) (mk_DataFrame [LAT_COL; LON_COL] cells) s e),
     mk_world (w_files w) (w_trace w ++ [EvMkdtemp (env_tmp env)]) (w_warnings w)).
Proof.
  intros Hv NE P. unfold from_tuples, bind, lift.
  rewrite (from_tuples_frame_pairs Hv NE P).
  apply init_LAT_LON_frame. now destruct (is_pair_cells P) as (_ & F & _).
Qed.

(** [from_tuples] on one flat pair [[lat, lon]] whose first value is a
    number builds a downloader with the single location [(lat, lon)]. *)
Theorem from_tuples_single_pair env v a b s e w :
  v = PyList [a; b] \/ v = PyTuple [a; b] ->
  is_float_or_int a = true ->
  from_tuples env v s e w
  = (Ok (mk_SeaSurfaceTempDownloader
           "ftp://ftp.cdc.noaa.gov/Datasets/noaa.oisst.v2.highres/"
           (env_tmp env) (mk_DataFrame [LAT_COL; LON_COL] [[a; b]]) s e),
     mk_world (w_files w) (w_trace w ++ [EvMkdtemp (env_tmp env)]) (w_warnings w)).
Proof.
  intros Hv Num. unfold from_tuples, bind, lift.
  assert (from_tuples_frame v = Ok (mk_DataFrame [LAT_COL; LON_COL] [[a; b]])) as ->.
  { unfold from_tuples_frame.
    assert (getitem0 v = Ok a) as -> by (destruct Hv as [->| ->]; reflexivity).
    cbn [rbind].
    assert (is_tuple_or_list a = false) as ->
      by (destruct a; try discriminate Num; reflexivity).
    rewrite Num. destruct Hv as [->| ->]; reflexivity. }
  apply init_LAT_LON_frame. repeat constructor.
Qed.

(** Whatever [from_tuples] accepts, the downloader it returns has a frame of
    locations with exactly the two columns [LAT] and [LON] and two cells in
    every row; it holds the fixed NOAA directory, the temporary directory
    just created and the two dates, and nothing but the creation of that
    directory has happened. *)
Theorem from_tuples_shape env v s e w self w' :
  from_tuples env v s e w = (Ok self, w') ->
  df_columns (locations self) = [LAT_COL; LON_COL] /\
  Forall (fun row => List.length row = 2) (df_rows (locations self)) /\
  sst_data_parent_dir self = "ftp://ftp.cdc.noaa.gov/Datasets/noaa.oisst.v2.highres/"%string /\
  temp_dir self = env_tmp env /\
  start_date self = s /\ end_date self = e /\
  w' = mk_world (w_files w) (w_trace w ++ [EvMkdtemp (env_tmp env)]) (w_warnings w).
Proof.
  unfold from_tuples. intros H. inv_bind H. apply lift_Ok in Step as [Fr ->].
  apply from_tuples_frame_shape in Fr as (cells & -> & F).
  rewrite (@init_LAT_LON_frame env cells s e w F) in H. injection H as <- <-.
  cbn [locations df_columns df_rows sst_data_parent_dir temp_dir start_date end_date].
  repeat split; try reflexivity. exact F.
Qed.

(** When [from_tuples] rejects its input, nothing has happened: no
    temporary directory has been created (unlike the constructor on a frame
    without the two columns). The exception is [IndexError], [TypeError] or
    [ValueError]; it is [IndexError] exactly for an empty list, tuple or
    string, where [locations[0]] fails. *)
Theorem from_tuples_failure env v s e w ex w' :
  from_tuples env v s e w = (Raise ex, w') ->
  w' = w /\
  (ex = IndexError \/ ex = TypeError \/ ex = ValueError) /\
  (ex = IndexError <-> v = PyList [] \/ v = PyTuple [] \/ v = PyStr EmptyString).
Proof.
  unfold from_tuples, bind, lift.
  destruct (from_tuples_frame v) as [df|ex0] eqn:F.
  { apply from_tuples_frame_shape in F as (cells & -> & F).
    rewrite (@init_LAT_LON_frame env cells s e w F). discriminate. }
  intros [= <- <-]. split; [reflexivity|].
  unfold from_tuples_frame in F.
  destruct (getitem0 v) as [location_peek|ex1] eqn:G; cbn [rbind] in F.
  - assert (ex0 = TypeError \/ ex0 = ValueError) as Kind.
    { destruct (if is_tuple_or_list location_peek then pd_DataFrame v
                else if is_float_or_int location_peek
                     then pd_DataFrame (PyList [v])
                     else Raise TypeError) as [locations_df|ex1] eqn:Pd;
        cbn [rbind] in F.
      - unfold set_columns in F. destruct (_ =? _); [discriminate|].
        injection F as <-. now right.
      - injection F as <-.
        destruct (is_tuple_or_list location_peek);
          [now apply (@pd_DataFrame_raises v)|].
        destruct (is_float_or_int location_peek);
          [now apply (@pd_DataFrame_raises (PyList [v]))|].
        injection Pd as <-. now left. }
    split; [tauto|]. split.
    + intros ->. destruct Kind; discriminate.
    + intros [-> | [-> | ->]]; discriminate G.
  - injection F as <-.
    destruct v as [|z|q| |str|items|items]; cbn [getitem0] in G;
      try (injection G as <-; split; [tauto|]; split; [discriminate|];
           intros [E|[E|E]]; discriminate E).
    + destruct str; [|discriminate]. injection G as <-.
      split; [tauto|]. split; [tauto|reflexivity].
    + destruct items; [|discriminate]. injection G as <-.
      split; [tauto|]. split; [tauto|reflexivity].
    + destruct items; [|discriminate]. injection G as <-.
      split; [tauto|]. split; [tauto|reflexivity].
Qed.

(** [download_sst] on a non-empty list or tuple of pairs does what it does
    on the data frame with the columns [LAT] and [LON] whose rows are these
    pairs: same result, same file and network operations, same warnings. *)
Theorem download_sst_pairs_as_frame env v rows cells s e w :
  v = PyList rows \/ v = PyTuple rows ->
  rows <> [] ->
  Forall2 is_pair rows cells ->
  download_sst env (ArgValue v) s e w
  = download_sst env (ArgDataFrame (mk_DataFrame [LAT_COL; LON_COL] cells)) s e w.
Proof.
  intros Hv NE P.
  assert (download_sst env (ArgValue v) s e w
          = (downloader <- from_tuples env v s e ;; download env downloader)%M w) as ->
    by (destruct Hv as [->| ->]; reflexivity).
  unfold download_sst, bind, from_tuples, lift.
  rewrite (from_tuples_frame_pairs Hv NE P). reflexivity.
Qed.

(** ** get_time_index: duplicates and undecodable offsets *)

Section TimeIndexMore.

Lemma regular_time_to_index_from_Raise items :
  forall d0 ex,
    regular_time_to_index_from d0 items = Raise ex ->
    ex = OverflowError /\
    exists i t, In (i, t) items /\ valid_ordinal (EPOCH_1800 + t) = false.
Proof.
  induction items as [|[i t] items IH]; cbn [regular_time_to_index_from];
    intros d0 ex H; [discriminate|].
  unfold date_plus_days at 1 in H. cbv zeta in H.
  destruct (valid_ordinal (EPOCH_1800 + t)) eqn:V.
  - destruct (IH _ _ H) as (-> & i' & t' & I & V'). split; [reflexivity|].
    exists i', t'. split; [right; exact I|exact V'].
  - injection H as <-. split; [reflexivity|]. exists i, t.
    split; [left; reflexivity|exact V].
Qed.

Lemma regular_time_to_index_from_invalid items :
  forall d0,
    (exists i t, In (i, t) items /\ valid_ordinal (EPOCH_1800 + t) = false) ->
    regular_time_to_index_from d0 items = Raise OverflowError.
Proof.
  induction items as [|[i t] items IH]; cbn [regular_time_to_index_from];
    intros d0 (i' & t' & I & V); [contradiction|].
  unfold date_plus_days at 1. cbv zeta.
  destruct (valid_ordinal (EPOCH_1800 + t)) eqn:Vt; [|reflexivity].
  apply IH. destruct I as [E|I]; [|eauto].
  injection E as -> ->. congruence.
Qed.

Lemma regular_time_to_index_from_valid items :
  forall d0 d,
    regular_time_to_index_from d0 items = Ok d ->
    forall i t, In (i, t) items -> valid_ordinal (EPOCH_1800 + t) = true.
Proof.
  intros d0 d H i t I.
  destruct (valid_ordinal (EPOCH_1800 + t)) eqn:V; [reflexivity|].
  rewrite regular_time_to_index_from_invalid in H by eauto. discriminate.
Qed.

(** Under each key the dictionary comprehension leaves the index of the last
    item that has the key. *)
Lemma regular_time_to_index_from_last items :
  forall d0 d,
    regular_time_to_index_from d0 items = Ok d ->
    forall s i,
      dict_get String.eqb d s = Some i ->
      (dict_get String.eqb d0 s = Some i /\
       forall i' t', In (i', t') items -> str_date (EPOCH_1800 + t') <> s) \/
      exists l1 t l2,
        items = l1 ++ (i, t) :: l2 /\ str_date (EPOCH_1800 + t) = s /\
        forall i' t', In (i', t') l2 -> str_date (EPOCH_1800 + t') <> s.
Proof.
  induction items as [|[i0 t0] items IH]; cbn [regular_time_to_index_from];
    intros d0 d H s i G.
  - injection H as <-. left. split; [exact G|]. intros i' t' [].
  - unfold date_plus_days at 1 in H. cbv zeta in H.
    destruct (valid_ordinal (EPOCH_1800 + t0)); [|discriminate].
    destruct (IH _ _ H s i G) as [[G0 No]|(l1 & t & l2 & -> & Key & No)].
    + destruct (String.eqb_spec s (str_date (EPOCH_1800 + t0))) as [E|N].
      * right. exists [], t0, items. subst s.
        rewrite (@dict_get_set_same _ _ _ string_eqb_spec') in G0.
        injection G0 as <-. auto.
      * left. rewrite (@dict_get_set_other _ _ _ string_eqb_spec') in G0 by exact N.
        split; [exact G0|]. intros i' t' [E|I]; [|eauto].
        injection E as _ <-. congruence.
    + right. exists ((i0, t0) :: l1), t, l2. auto.
Qed.

Lemma enumerate_from_split {A} (l : list A) :
  forall i0 l1 i x l2,
    enumerate_from i0 l = l1 ++ (i, x) :: l2 ->
    (forall i' x', In (i', x') l1 -> i' < i) /\
    (forall i' x', In (i', x') l2 -> i < i').
Proof.
  induction l as [|y l IH]; intros i0 l1 i x l2 E; cbn [enumerate_from] in E.
  - destruct l1; discriminate.
  - destruct l1 as [|[i1 x1] l1]; cbn [app] in E.
    + injection E as <- <- <-. split; [intros i' x' []|].
      intros i' x' I. apply enumerate_from_In in I. lia.
    + injection E as <- <- E. destruct (IH _ _ _ _ _ E) as [Lo Hi].
      split; [|exact Hi]. intros i' x' [J|J]; [|eauto].
      injection J as <- <-.
      assert (In (i, x) (enumerate_from (S i0) l)) as I
        by (rewrite E; apply in_app_iff; right; left; reflexivity).
      apply enumerate_from_In in I. lia.
Qed.

End TimeIndexMore.

(** When a day occurs more than once on the time axis, [get_time_index]
    returns the index of its last occurrence (the dictionary comprehension
    overwrites the earlier ones): the index returned for a requested date
    holds that date, and no later index of the axis does. *)
Theorem get_time_index_last_occurrence dataset dates idx :
  timestamps_valid dates ->
  get_time_index dataset dates = Ok idx ->
  Forall2 (fun ts i =>
             points_at dataset ts i /\
             forall j, points_at dataset ts j -> j <= i)
          dates idx.
Proof.
  intros DV. unfold timestamps_valid in DV. rewrite Forall_forall in DV.
  unfold get_time_index. cbv zeta. intros H.
  apply rbind_Ok in H as (d & Hd & R). apply rmap_Ok in R.
  eapply Forall2_impl_In; [|exact R].
  intros ts i I. cbv beta. rewrite split_space_head_str_Timestamp.
  destruct (dict_get String.eqb d (str_date (ts_ordinal ts))) as [i'|] eqn:G;
    [|discriminate].
  intros [= <-]. split; [exact (@lookup_Some dataset d Hd ts i' (DV ts I) G)|].
  intros j (t & Nj & Ej).
  destruct (regular_time_to_index_from_last _ _ Hd _ G)
    as [[G0 _]|(l1 & t' & l2 & Split & _ & No)]; [discriminate|].
  assert (In (j, t) (enumerate (ds_time dataset))) as J by now apply enumerate_In.
  destruct (@enumerate_from_split _ (ds_time dataset) 0 l1 i' t' l2 Split) as [Lo _].
  rewrite Split in J.
  apply in_app_iff in J as [J|[J|J]].
  - specialize (Lo _ _ J). lia.
  - injection J as ->. lia.
  - exfalso. apply (No _ _ J). unfold str_date.
    unfold decoded_date, calendar_date in Ej. now rewrite Ej.
Qed.

Section TimeIndexRaises.

Lemma lookup_raises (d : dict string nat) (dates : list Timestamp) ex :
  rmap (fun regular_time =>
          match dict_get String.eqb d
                  (split_space_head (str_Timestamp regular_time)) with
          | Some i => Ok i
          | None => @Raise nat KeyError
          end) dates = Raise ex ->
  ex = KeyError.
Proof.
  intros R. apply rmap_Raise_inv in R as (ts & _ & E).
  destruct (dict_get String.eqb d _); [discriminate|]. now injection E.
Qed.

Lemma get_time_index_raises dataset dates ex :
  get_time_index dataset dates = Raise ex -> ex = KeyError \/ ex = OverflowError.
Proof.
  unfold get_time_index. cbv zeta.
  destruct (regular_time_to_index_from [] (enumerate (ds_time dataset)))
    as [d|ex0] eqn:Hd; cbn [rbind].
  - intros R. left. now apply (@lookup_raises d dates).
  - apply regular_time_to_index_from_Raise in Hd as (-> & _).
    intros [= <-]. right. reflexivity.
Qed.

End TimeIndexRaises.

(** [get_time_index] raises [OverflowError] exactly when some offset of the
    time axis leads out of the calendar ([date.min] to [date.max]), whatever
    the requested dates, even none; the only other exception it raises is
    [KeyError]. *)
Theorem get_time_index_OverflowError dataset dates :
  (get_time_index dataset dates = Raise OverflowError <->
   Exists (fun t => valid_ordinal (EPOCH_1800 + t) = false) (ds_time dataset)) /\
  (forall ex, get_time_index dataset dates = Raise ex ->
              ex = KeyError \/ ex = OverflowError).
Proof.
  split; [|intros ex; apply get_time_index_raises].
  unfold get_time_index. cbv zeta.
  destruct (regular_time_to_index_from [] (enumerate (ds_time dataset)))
    as [d|ex0] eqn:Hd; cbn [rbind].
  - split.
    + intros R. apply lookup_raises in R. discriminate.
    + intros Ex. apply Exists_exists in Ex as (t & I & V).
      apply In_nth_error in I as [i N]. apply enumerate_In in N.
      rewrite (regular_time_to_index_from_valid _ _ Hd _ _ N) in V. discriminate.
  - apply regular_time_to_index_from_Raise in Hd as (-> & i & t & I & V).
    split; [|reflexivity].
    intros _. apply Exists_exists. exists t. split; [|exact V].
    apply enumerate_In in I. eapply nth_error_In; eauto.
Qed.

(** ** The years of a range *)

Section YearsOfRange.
Open Scope Z_scope.

Lemma days_before_year_step y :
  days_before_year y + 365 <= days_before_year (y + 1).
Proof.
  unfold days_before_year. cbv zeta. Z.to_euclidean_division_equations; lia.
Qed.

(** The year of a day is the one whose first and last day enclose it. *)
Lemma year_of_bracket o y :
  days_before_year y < o <= days_before_year (y + 1) ->
  ymd_year (ord2ymd o) = y.
Proof.
  intros [Lo Hi]. pose proof (year_bracket o) as [B1 B2].
  set (y' := ymd_year (ord2ymd o)) in *.
  destruct (Z.lt_trichotomy y' y) as [L|[E|L]]; [|exact E|].
  - assert (days_before_year (y' + 1) <= days_before_year y)
      by (apply days_before_year_mono; lia).
    lia.
  - assert (days_before_year (y + 1) <= days_before_year y')
      by (apply days_before_year_mono; lia).
    lia.
Qed.

(** Every year from the year of [s] to the year of [e] has a day in the
    range. *)
Lemma year_has_day s e y :
  s <= e ->
  ymd_year (ord2ymd s) <= y <= ymd_year (ord2ymd e) ->
  exists o, s <= o <= e /\ ymd_year (ord2ymd o) = y.
Proof.
  intros Le [Lo Hi].
  destruct (Z.eq_dec y (ymd_year (ord2ymd s))) as [->|N].
  - exists s. split; [lia|reflexivity].
  - exists (days_before_year y + 1).
    pose proof (year_bracket s) as [_ Bs]. pose proof (year_bracket e) as [Be _].
    pose proof (days_before_year_step y).
    assert (days_before_year (ymd_year (ord2ymd s) + 1) <= days_before_year y)
      by (apply days_before_year_mono; lia).
    assert (days_before_year y <= days_before_year (ymd_year (ord2ymd e)))
      by (apply days_before_year_mono; lia).
    split; [lia|]. apply year_of_bracket. lia.
Qed.

Lemma fold_keys_sorted {A} (key : A -> Z) l :
  StronglySorted (fun a b => key a <= key b) l ->
  StronglySorted Z.lt
    (dict_keys (fold_left (fun d x => dd_append Z.eqb d (key x) x) l [])).
Proof.
  induction l as [|x l IH] using rev_ind; intros S.
  - constructor.
  - apply StronglySorted_snoc in S as [S Le].
    rewrite fold_left_app. cbn [fold_left].
    destruct (chunked_fold key S) as (_ & Src & _).
    specialize (IH S).
    set (d := fold_left (fun d x => dd_append Z.eqb d (key x) x) l []) in *.
    unfold dd_append. destruct (dict_get Z.eqb d (key x)) as [vs|] eqn:G.
    + now rewrite (dict_keys_set_present Z.eqb d (key x) (vs ++ [x]) G).
    + rewrite (dict_keys_set_absent Z.eqb d (key x) [x] G).
      apply StronglySorted_app; [exact IH|repeat constructor|].
      intros a b Ia [<-|[]].
      apply (dict_get_None Z.eqb Z.eqb_eq) in G.
      destruct (Src a Ia) as (y & Iy & <-). specialize (Le y Iy).
      assert (key y <> key x) by (intros E; apply G; now rewrite <- E).
      lia.
Qed.

Lemma Zrange_sorted lo n : StronglySorted Z.lt (Zrange lo n).
Proof.
  unfold Zrange. apply StronglySorted_map_seq. intros i j L. lia.
Qed.

Lemma Zrange_In_iff lo n z : In z (Zrange lo n) <-> lo <= z < lo + Z.of_nat n.
Proof.
  split; [|apply Zrange_In]. unfold Zrange. intros I.
  apply in_map_iff in I as (k & <- & I). apply in_seq in I. lia.
Qed.

(** Two strictly increasing lists with the same elements are equal. *)
Lemma sorted_lt_ext l1 :
  forall l2,
    StronglySorted Z.lt l1 -> StronglySorted Z.lt l2 ->
    (forall z, In z l1 <-> In z l2) -> l1 = l2.
Proof.
  induction l1 as [|a l1 IH]; intros [|b l2] S1 S2 Same.
  - reflexivity.
  - exfalso. apply (Same b). left. reflexivity.
  - exfalso. apply (Same a). left. reflexivity.
  - inversion S1 as [|? ? S1' F1]; inversion S2 as [|? ? S2' F2]; subst.
    rewrite Forall_forall in F1, F2.
    assert (a = b) as ->.
    { destruct (proj1 (Same a) (or_introl eq_refl)) as [E|I]; [now symmetry|].
      destruct (proj2 (Same b) (or_introl eq_refl)) as [E|J]; [exact E|].
      specialize (F1 _ J). specialize (F2 _ I). lia. }
    f_equal. apply IH; [assumption|assumption|].
    intros z. split; intros I.
    + destruct (proj1 (Same z) (or_intror I)) as [E|J]; [|exact J].
      specialize (F1 _ I). lia.
    + destruct (proj2 (Same z) (or_intror I)) as [E|J]; [|exact J].
      specialize (F2 _ I). lia.
Qed.

Lemma year_to_timestamp_keys s e :
  s <= e ->
  map fst (year_to_timestamp s e)
  = Zrange (ymd_year (ord2ymd s))
           (Z.to_nat (ymd_year (ord2ymd e) - ymd_year (ord2ymd s) + 1)).
Proof.
  intros Le.
  pose proof (ord2ymd_year_mono Le) as Mono.
  apply sorted_lt_ext.
  - apply (fold_keys_sorted Timestamp_year), date_range_sorted_by_year.
  - apply Zrange_sorted.
  - intros y. rewrite Zrange_In_iff.
    destruct (year_to_timestamp_grouped s e) as (_ & _ & Co).
    destruct (year_to_timestamp_chunked s e) as (_ & Src & _).
    split.
    + intros I. destruct (Src y I) as (ts & J & <-).
      unfold date_range in J. apply in_map_iff in J as (k & <- & J).
      apply in_seq in J. unfold Timestamp_year, midnight. cbn [ts_ordinal].
      assert (ymd_year (ord2ymd s) <= ymd_year (ord2ymd (s + Z.of_nat k)))
        by (apply ord2ymd_year_mono; lia).
      assert (ymd_year (ord2ymd (s + Z.of_nat k)) <= ymd_year (ord2ymd e))
        by (apply ord2ymd_year_mono; lia).
      lia.
    + intros B. destruct (@year_has_day s e y Le) as (o & Bo & <-); [lia|].
      apply (Co (midnight o)). now apply date_range_In.
Qed.

End YearsOfRange.

(** [remote_to_local_dir_mapping] has one work unit for every calendar year
    from the year of the start date to the year of the end date, none
    skipped and none twice, in ascending order: a range that touches [n]
    years is served by [n] yearly files. *)
Theorem remote_to_local_dir_mapping_years self :
  (start_date self <= end_date self)%Z ->
  let first := ymd_year (ord2ymd (start_date self)) in
  let last := ymd_year (ord2ymd (end_date self)) in
  map fst (remote_to_local_dir_mapping self)
  = map (fun year => (sst_data_parent_dir self ++ "sst.day.mean." ++ str_int year ++ ".nc")%string)
        (Zrange first (Z.to_nat (last - first + 1))) /\
  List.length (remote_to_local_dir_mapping self) = Z.to_nat (last - first + 1) /\
  (first <= last)%Z.
Proof.
  intros Le. cbv zeta.
  rewrite remote_to_local_dir_mapping_eq. split; [|split].
  - rewrite <- (year_to_timestamp_keys Le), !map_map. reflexivity.
  - rewrite length_map, <- (length_map fst), (year_to_timestamp_keys Le).
    unfold Zrange. now rewrite length_map, length_seq.
  - now apply ord2ymd_year_mono.
Qed.

(** When the end date precedes the start date there is no work unit, and
    [download] raises [ValueError] (there is nothing to concatenate) without
    any file or network operation and without a warning. *)
Theorem download_empty_range env self w :
  (end_date self < start_date self)%Z ->
  remote_to_local_dir_mapping self = [] /\
  download env self w = (Raise ValueError, w).
Proof.
  intros Lt.
  assert (remote_to_local_dir_mapping self = []) as E.
  { rewrite remote_to_local_dir_mapping_eq. unfold year_to_timestamp, date_range.
    replace (Z.to_nat (end_date self - start_date self + 1)) with 0 by lia.
    reflexivity. }
  split; [exact E|]. unfold download. rewrite E. reflexivity.
Qed.

(** [get_lat_lon_index] returns one latitude index and one longitude index
    per query location, and every index it returns is a position of the
    latitude array, respectively of the longitude array: what [download]
    reads with them lies inside the grid. *)
Theorem get_lat_lon_index_in_bounds env self lat lon lat_index lon_index :
  get_lat_lon_index env self lat lon = Ok (lat_index, lon_index) ->
  List.length lat_index = List.length (df_rows (locations self)) /\
  List.length lon_index = List.length (df_rows (locations self)) /\
  Forall (fun i => i < List.length lat) lat_index /\
  Forall (fun j => j < List.length lon) lon_index.
Proof.
  intros H.
  apply get_lat_lon_index_Ok in H as (queries & cells & _ & -> & -> & L & Tk).
  rewrite !length_map.
  assert (Forall (fun c => fst c < List.length lat /\ snd c < List.length lon) cells)
    as Bounds.
  { unfold take in Tk. apply rmap_Ok in Tk. apply Forall_forall. intros [i j] I.
    apply In_nth_error in I as [k Nk]. apply Forall2_flip in Tk.
    destruct (Forall2_nth_error_l _ Tk Nk) as (pos & _ & Look). cbv beta in Look.
    destruct (nth_error _ pos) as [c|] eqn:N; [|discriminate].
    injection Look as ->. now apply idx_matrix_bounds in N. }
  repeat split; try exact L.
  - apply Forall_map. eapply Forall_impl; [|exact Bounds]. cbv beta. tauto.
  - apply Forall_map. eapply Forall_impl; [|exact Bounds]. cbv beta. tauto.
Qed.

(** After [download_to_local] has returned, the local file exists: it is the
    one that was there before the call, or else the one the server has under
    the link, and no other file has changed. From then on a call for the
    same path retrieves nothing, whatever the link and whatever the server
    has: it checks that the file exists and leaves it as it is. *)
Theorem download_to_local_once env link_in dir_out w w1 :
  download_to_local env link_in dir_out w = (Ok tt, w1) ->
  (exists g,
      dict_get String.eqb (w_files w1) dir_out = Some g /\
      match dict_get String.eqb (w_files w) dir_out with
      | Some g0 => g = g0
      | None => env_remote env link_in = Some g
      end) /\
  (forall p, p <> dir_out ->
             dict_get String.eqb (w_files w1) p = dict_get String.eqb (w_files w) p) /\
  (forall env' link',
      download_to_local env' link' dir_out w1
      = (Ok tt, mk_world (w_files w1) (w_trace w1 ++ [EvExists dir_out]) (w_warnings w1))).
Proof.
  unfold download_to_local, bind, log, read_file, write_file, ret, raise.
  cbn [w_files w_trace w_warnings].
  destruct (dict_get String.eqb (w_files w) dir_out) as [g0|] eqn:G.
  - intros [= <-]. cbn [w_files w_trace w_warnings]. rewrite G.
    split; [eauto|]. split; reflexivity.
  - cbn [w_files w_trace w_warnings].
    destruct (env_remote env link_in) as [g|] eqn:R; [|discriminate].
    intros [= <-]. cbn [w_files w_trace w_warnings].
    rewrite (@dict_get_set_same _ _ _ string_eqb_spec').
    split; [eauto|]. split; [|reflexivity].
    intros p N. now apply (@dict_get_set_other _ _ _ string_eqb_spec').
Qed.

(** No value below the threshold [-9e35] is ever returned: no temperature
    of the table [download] returns compares below the threshold, and in
    particular none equals the fill value of the data set. *)
Theorem download_no_fill_value env self w table w' :
  download env self w = (Ok table, w') ->
  Forall (fun row =>
            PrimFloat.ltb (SST row) THRESHOLD = false /\
            PrimFloat.eqb (SST row) SENTINEL = false)
         table.
Proof.
  intros H. apply download_Ok in H as (output & w1 & _ & -> & _).
  apply Forall_forall. intros row I. apply in_map_iff in I as (raw & <- & _).
  assert (forall x, PrimFloat.ltb x THRESHOLD = false ->
                    PrimFloat.eqb x SENTINEL = false) as NotFill.
  { intros x L. destruct (PrimFloat.eqb x SENTINEL) eqn:E; [|reflexivity].
    exfalso. rewrite eqb_spec in E. rewrite ltb_spec in L.
    unfold SFeqb in E. unfold SFltb in L. revert E L.
    let v := eval vm_compute in (Prim2SF SENTINEL) in
    change (Prim2SF SENTINEL) with v.
    let v := eval vm_compute in (Prim2SF THRESHOLD) in
    change (Prim2SF THRESHOLD) with v.
    destruct (Prim2SF x) as [s|s| |s m e]; cbn [SFcompare];
      try discriminate; try (destruct s; discriminate).
    destruct s; try discriminate.
    (* a value that equals the fill value has its exponent, and is therefore
       below the threshold *)
    destruct (Z.compare_spec e 70) as [->| |]; [|discriminate|discriminate].
    intros _. cbn [Z.compare Pos.compare Pos.compare_cont CompOpp]. discriminate. }
  unfold mask_missing.
  destruct (PrimFloat.ltb (SST raw) THRESHOLD) eqn:L; cbn [SST].
  - split; reflexivity.
  - split; [exact L|now apply NotFill].
Qed.

(** [build_2d_meshgrid] lists the cells of the grid longitude by longitude:
    there are [len(lat) * len(lon)] of them, and the cell of the latitude at
    position [i] and the longitude at position [j] stands at position
    [j * len(lat) + i]. The matrix of coordinates and the matrix of indices
    of [get_lat_lon_index] are built this way, so that a position in the
    first is the position of its index pair in the second. *)
Theorem build_2d_meshgrid_position {A B} (lat : list A) (lon : list B) :
  List.length (build_2d_meshgrid lat lon) = List.length lat * List.length lon /\
  forall i j a b,
    nth_error lat i = Some a -> nth_error lon j = Some b ->
    nth_error (build_2d_meshgrid lat lon) (j * List.length lat + i) = Some (a, b) /\
    nth_error (build_2d_meshgrid (seq 0 (List.length lat)) (seq 0 (List.length lon)))
              (j * List.length lat + i) = Some (i, j).
Proof.
  assert (forall (X Y : Type) (xs : list X) (ys : list Y) i j x y,
             nth_error xs i = Some x -> nth_error ys j = Some y ->
             nth_error (build_2d_meshgrid xs ys) (j * List.length xs + i) = Some (x, y))
    as Pos.
  { intros X Y xs ys i j x y Nx. revert j.
    induction ys as [|y0 ys IH]; intros j Ny; [destruct j; discriminate|].
    unfold build_2d_meshgrid. cbn [flat_map]. fold (build_2d_meshgrid xs ys).
    destruct j as [|j]; cbn [nth_error] in Ny.
    - injection Ny as ->. cbn [Nat.mul Nat.add].
      rewrite nth_error_app1.
      + rewrite nth_error_map, Nx. reflexivity.
      + rewrite length_map. apply nth_error_Some. congruence.
    - rewrite nth_error_app2 by (rewrite length_map; lia).
      rewrite length_map.
      replace (S j * List.length xs + i - List.length xs)
        with (j * List.length xs + i) by lia.
      now apply IH. }
  split.
  - unfold build_2d_meshgrid. induction lon as [|y lon IH]; cbn [flat_map List.length].
    + lia.
    + rewrite length_app, length_map, IH. lia.
  - intros i j a b Na Nb. split; [now apply Pos|].
    assert (i < List.length lat) as Li by (apply nth_error_Some; congruence).
    assert (j < List.length lon) as Lj by (apply nth_error_Some; congruence).
    pose proof (Pos nat nat (seq 0 (List.length lat)) (seq 0 (List.length lon))
                    i j i j) as P.
    rewrite length_seq in P. apply P.
    + rewrite nth_error_nth' with (d := 0) by (rewrite length_seq; exact Li).
      now rewrite seq_nth.
    + rewrite nth_error_nth' with (d := 0) by (rewrite length_seq; exact Lj).
      now rewrite seq_nth.
Qed.

(** With a frame of locations that has no row, a [download] that goes
    through returns the empty table, and it issues the warning that all
    measurements are null although no measurement was read. *)
Theorem download_no_location env self w table w' :
  df_rows (locations self) = [] ->
  download env self w = (Ok table, w') ->
  table = [] /\ w_warnings w' = w_warnings w ++ [ALL_NULL_WARNING].
Proof.
  intros Empty H. apply download_Ok in H as (output & w1 & Ho & -> & ->).
  assert (w_warnings w1 = w_warnings w) as Ww.
  { unfold extracted_output in Ho. rewrite remote_to_local_dir_mapping_eq in Ho.
    inv_bind Ho. rename Step into Loop, a into frames, w0 into wl.
    apply lift_Ok in Ho as [_ ->].
    now destruct (@mmap_download_year_snd env self _ w w frames wl
                    (units_NoDup self) (fun _ _ => eq_refl) Loop) as (_ & Wa & _). }
  apply extracted_output_frames in Ho as (frames & -> & _ & F).
  assert (List.concat frames = []) as ->.
  { apply length_zero_iff_nil. rewrite (frames_length F).
    unfold n_locations. rewrite Empty. cbn [List.length].
    rewrite (list_sum_scaled (fun entry : Z * list Timestamp => List.length (snd entry)) 0).
    lia. }
  cbn [map isnull_count filter List.length Nat.eqb w_warnings].
  split; [reflexivity|]. unfold isnull_count. cbn [filter List.length Nat.eqb w_warnings].
  now rewrite Ww.
Qed.

(** ** download: the exceptions it raises *)

Section Raises.

Lemma as_points_raises df ex : as_points df = Raise ex -> ex = ValueError.
Proof.
  unfold as_points. intros R. apply rmap_Raise_inv in R as (row & _ & E).
  destruct row as [|a [|b [|c row]]]; try (now injection E).
  destruct a, b; cbn [as_float] in E; congruence.
Qed.

Lemma take_raises {A} (a : list A) idx ex : take a idx = Raise ex -> ex = IndexError.
Proof.
  unfold take. intros R. apply rmap_Raise_inv in R as (i & _ & E).
  destruct (nth_error a i); [discriminate|]. now injection E.
Qed.

Lemma take3_raises a ts :
  forall ix jx ex, take3 a ts ix jx = Raise ex -> ex = IndexError.
Proof.
  induction ts as [|t ts IH]; intros [|i ix] [|j jx] ex; cbn [take3];
    try discriminate; try (now intros [= <-]).
  unfold getitem3. destruct (shape3 a) as [[nt ni] nj].
  destruct ((t <? nt) && (i <? ni) && (j <? nj)); [|now intros [= <-]].
  destruct (take3 a ts ix jx) as [xs|e] eqn:T; [discriminate|].
  intros [= <-]. now apply (IH ix jx).
Qed.

Lemma get_lat_lon_index_raises env self lat lon ex :
  get_lat_lon_index env self lat lon = Raise ex -> ex = ValueError \/ ex = IndexError.
Proof.
  unfold get_lat_lon_index. cbv zeta.
  destruct (as_points (locations self)) as [queries|e] eqn:Q; cbn [rbind].
  - destruct (take _ _) as [cells|e] eqn:T; cbn [rbind]; [discriminate|].
    intros [= <-]. right. now apply take_raises in T.
  - intros [= <-]. left. now apply as_points_raises in Q.
Qed.

Lemma year_table_raises env self dataset dates ex :
  year_table env self dataset dates = Raise ex ->
  ex = KeyError \/ ex = OverflowError \/ ex = ValueError \/ ex = IndexError.
Proof.
  unfold year_table.
  destruct (get_time_index dataset dates) as [time_index|e] eqn:Ti; cbn [rbind].
  2:{ intros [= <-]. apply get_time_index_raises in Ti. tauto. }
  destruct (get_lat_lon_index env self (ds_lat dataset) (ds_lon dataset))
    as [[lat_index lon_index]|e] eqn:Ll; cbn [rbind].
  2:{ intros [= <-]. apply get_lat_lon_index_raises in Ll. tauto. }
  destruct (take3 _ _ _ _) as [sst|e] eqn:T3; cbn [rbind].
  2:{ intros [= <-]. apply take3_raises in T3. tauto. }
  destruct (take (ds_lat dataset) _) as [lat|e] eqn:Ta; cbn [rbind].
  2:{ intros [= <-]. apply take_raises in Ta. tauto. }
  destruct (take (ds_lon dataset) _) as [lon|e] eqn:To; cbn [rbind]; [discriminate|].
  intros [= <-]. apply take_raises in To. tauto.
Qed.

End Raises.

(** [download] raises nothing but [URLError] (a retrieval failed),
    [OverflowError] and [KeyError] (from the time axis), [ValueError] (a
    location that is not a pair of numbers, or no year to concatenate) and
    [IndexError] (a grid without cells or with fewer temperatures than its
    axes announce); in particular it never raises [FileNotFoundError]: the
    file it opens has just been found or retrieved. *)
Theorem download_raises env self w ex w' :
  download env self w = (Raise ex, w') ->
  ex = URLError \/ ex = OverflowError \/ ex = KeyError \/
  ex = ValueError \/ ex = IndexError.
Proof.
  intros H. apply (f_equal fst) in H. rewrite download_fst in H. cbn [fst] in H.
  destruct (rmap (year_result env self w)
                 (year_to_timestamp (start_date self) (end_date self)))
    as [frames|e] eqn:R; cbn [rbind] in H.
  - unfold assemble, pd_concat in H. destruct frames; [|discriminate].
    cbn [rbind] in H. injection H as <-. tauto.
  - injection H as ->. apply rmap_Raise_inv in R as ([y dates] & _ & E).
    unfold year_result in E. cbn [fst snd] in E.
    destruct (available env w (remote_url self y) (local_path self y)) as [g|].
    + apply year_table_raises in E. tauto.
    + injection E as <-. tauto.
Qed.

(** ** download: the order of the rows *)

Section RowOrder.
Variables (env : environment) (self : SeaSurfaceTempDownloader).

(** The table of a year, when there is one: the rows of the year's dates and
    of the cells of the locations. *)
Lemma year_table_frame g dates frame :
  year_table env self (dataset_of g) dates = Ok frame ->
  exists time_index cells,
    get_time_index (dataset_of g) dates = Ok time_index /\
    get_lat_lon_index env self (nc_lat g) (map normalize_lon (nc_lon g))
    = Ok (map fst cells, map snd cells) /\
    List.length cells = n_locations self /\
    frame = year_rows (dataset_of g) dates time_index cells.
Proof.
  intros H.
  pose (w0 := mk_world [(EmptyString, g)] [] []).
  assert (download_year env self (EmptyString, [(EmptyString, dates)]) w0
          = (Ok frame, after_year env EmptyString EmptyString w0)) as Run.
  { rewrite download_year_run. unfold available. cbn [w0 w_files dict_get String.eqb].
    now rewrite H. }
  apply download_year_Ok in Run
    as (local_dir & dates' & rest & g' & time_index & cells & E & Src & Ti & Ll & Lc & Fr).
  injection E as <- <- <-.
  assert (g' = g) as ->.
  { cbn [w0 w_files dict_get String.eqb] in Src.
    destruct Src as [Src|[Src _]]; [now injection Src|discriminate]. }
  exists time_index, cells. auto.
Qed.

(** The cell of one location does not depend on the other locations. *)
Lemma get_lat_lon_index_each lat lon cells j c loc :
  get_lat_lon_index env self lat lon = Ok (map fst cells, map snd cells) ->
  nth_error cells j = Some c ->
  nth_error (df_rows (locations self)) j = Some loc ->
  get_lat_lon_index env (with_locations self [loc]) lat lon = Ok ([fst c], [snd c]).
Proof.
  intros H Nc Nl.
  apply get_lat_lon_index_Ok in H as (queries & cells0 & Hq & Ef & Es & _ & Tk).
  assert (cells0 = cells) as -> by (symmetry; now apply map_fst_snd_eq).
  unfold as_points in Hq. apply rmap_Ok in Hq.
  destruct (Forall2_nth_error_l _ Hq Nl) as (q & Nq & Fq). cbv beta in Fq.
  unfold take in Tk. apply rmap_Ok in Tk.
  apply (map_nth_error (KDTree_query env (build_2d_meshgrid lat lon))) in Nq.
  destruct (Forall2_nth_error_l _ Tk Nq) as (c' & Nc' & Look). cbv beta in Look.
  rewrite Nc in Nc'. injection Nc' as <-.
  unfold get_lat_lon_index, as_points, take. cbv zeta.
  cbn [with_locations locations df_rows rmap]. rewrite Fq.
  cbn [rbind map rmap]. rewrite Look. reflexivity.
Qed.

(** The dates of a year's entry are dates of that year. *)
Lemma units_dates_year year dates d :
  In (year, dates) (year_to_timestamp (start_date self) (end_date self)) ->
  In d dates -> Timestamp_year d = year.
Proof.
  intros I J.
  pose proof (year_to_timestamp_grouped (start_date self) (end_date self)) as Gr.
  assert (dates <> [] /\
          dates = filter (fun ts => (Timestamp_year ts =? year)%Z)
                         (date_range (start_date self) (end_date self)))
    as [_ E] by (eapply grouped_In; eauto using Z.eqb_eq).
  rewrite E in J. apply filter_In in J as [_ J]. now apply Z.eqb_eq.
Qed.

(** The rows of a year, cut into the groups of its dates. *)
Lemma year_rows_groups files g year dates time_index cells :
  dict_get String.eqb files (local_path self year) = Some g ->
  (forall d, In d dates -> Timestamp_year d = year) ->
  get_time_index (dataset_of g) dates = Ok time_index ->
  get_lat_lon_index env self (nc_lat g) (map normalize_lon (nc_lon g))
  = Ok (map fst cells, map snd cells) ->
  List.length cells = n_locations self ->
  exists groups,
    year_rows (dataset_of g) dates time_index cells = List.concat groups /\
    Forall2 (date_group env self files) dates groups.
Proof.
  intros G Y Ti Ll Lc.
  apply get_time_index_each in Ti. unfold year_rows. rewrite flat_map_concat_map.
  eexists. split; [reflexivity|].
  induction Ti as [|d t dates time_index Hd _ IH]; cbn [combine map]; constructor.
  - exists g, t, cells. cbn [fst snd ds_lat ds_lon ds_sst dataset_of].
    rewrite (Y d) by (left; reflexivity). auto.
  - apply IH. intros d' I. apply Y. right. exact I.
Qed.

(** The tables of the years of a run, cut into the groups of their dates,
    each read from the file the run has left for the year. *)
Lemma frames_groups w w' units frames :
  (forall y, In y (map fst units) ->
             exists g,
               available env w (remote_url self y) (local_path self y) = Some g /\
               dict_get String.eqb (w_files w') (local_path self y) = Some g) ->
  (forall year dates d, In (year, dates) units -> In d dates -> Timestamp_year d = year) ->
  rmap (year_result env self w) units = Ok frames ->
  exists groups,
    List.concat frames = List.concat groups /\
    Forall2 (date_group env self (w_files w')) (List.concat (map snd units)) groups.
Proof.
  intros Same Y R. apply rmap_Ok in R.
  induction R as [|[year dates] frame units frames Yr _ IH].
  - exists []. split; [reflexivity|constructor].
  - destruct IH as (groups & E & F).
    { intros y I. apply Same. right. exact I. }
    { intros y ds d I. apply (Y y ds d). right. exact I. }
    destruct (Same year (or_introl eq_refl)) as (g & Av & G).
    unfold year_result in Yr. cbn [fst snd] in Yr. rewrite Av in Yr.
    apply year_table_frame in Yr as (time_index & cells & Ti & Ll & Lc & ->).
    destruct (@year_rows_groups (w_files w') g year dates time_index cells G
                (fun d J => Y year dates d (or_introl eq_refl) J) Ti Ll Lc)
      as (g1 & -> & F1).
    exists (g1 ++ groups). cbn [List.concat map].
    rewrite concat_app, E. split; [reflexivity|]. now apply Forall2_app.
Qed.

(** The table [download] returns, before the translation of the sentinel,
    cut into the groups of the dates of the range. *)
Lemma download_groups w table w' :
  download env self w = (Ok table, w') ->
  exists groups,
    table = map mask_missing (List.concat groups) /\
    Forall2 (date_group env self (w_files w'))
            (date_range (start_date self) (end_date self)) groups.
Proof.
  intros H. pose proof (@download_snd _ _ _ _ _ H) as (_ & _ & Same).
  pose proof (download_fst env self w) as F. rewrite H in F. cbn [fst] in F.
  destruct (rmap (year_result env self w)
                 (year_to_timestamp (start_date self) (end_date self)))
    as [frames|e] eqn:R; [|discriminate].
  cbn [rbind] in F.
  assert (table = map mask_missing (List.concat frames)) as ->.
  { unfold assemble, pd_concat in F. destruct frames; [discriminate|].
    cbn [rbind] in F. now injection F. }
  destruct (@frames_groups w w' _ _ Same units_dates_year R) as (groups & E & G).
  destruct (year_to_timestamp_chunked (start_date self) (end_date self)) as (Cc & _).
  rewrite Cc in G. exists groups. split; [|exact G]. now rewrite E.
Qed.

Lemma date_group_length files d rows :
  date_group env self files d rows -> List.length rows = n_locations self.
Proof. intros (g & t & cells & _ & _ & _ & L & ->). now rewrite length_map. Qed.

End RowOrder.

(** C4. In the table [download] returns the DATE column lists the days of
    the range in order, each as many times as there are query locations, so
    every row of an earlier day stands before every row of a later day; and
    inside the group of a day the [j]-th row is the row of the [j]-th query
    location: it is read from the file the run has left for the year of the
    day, at the time index [get_time_index] gives for the day and in the
    grid cell [get_lat_lon_index] gives for that location, and it holds the
    day, the coordinates of the cell and its temperature (the missing
    marker when that is below the threshold). *)
Theorem download_row_order env self w table w' :
  download env self w = (Ok table, w') ->
  map DATE table
  = np_repeat (date_range (start_date self) (end_date self)) (n_locations self) /\
  (forall p q r1 r2,
      nth_error table p = Some r1 -> nth_error table q = Some r2 ->
      (ts_ordinal (DATE r1) < ts_ordinal (DATE r2))%Z -> (p < q)%nat) /\
  (forall i j d loc,
      nth_error (date_range (start_date self) (end_date self)) i = Some d ->
      nth_error (df_rows (locations self)) j = Some loc ->
      exists g t ci cj,
        dict_get String.eqb (w_files w') (local_path self (Timestamp_year d)) = Some g /\
        get_time_index (dataset_of g) [d] = Ok [t] /\
        get_lat_lon_index env (with_locations self [loc])
                          (nc_lat g) (map normalize_lon (nc_lon g))
        = Ok ([ci], [cj]) /\
        nth_error table (i * n_locations self + j)
        = Some (mask_missing
                  (mk_OutputRow d
                     (nth ci (nc_lat g) 0%Q)
                     (nth cj (map normalize_lon (nc_lon g)) 0%Q)
                     (item3 (nc_sst g) t ci cj)))).
Proof.
  intros H. pose proof H as H0.
  apply download_Ok in H as (output & w1 & Ho & -> & _).
  assert (map DATE (map mask_missing output)
          = np_repeat (date_range (start_date self) (end_date self)) (n_locations self))
    as Dates.
  { rewrite map_mask_missing_DATE.
    apply extracted_output_frames in Ho as (frames & -> & _ & F).
    rewrite (frames_DATE F).
    destruct (year_to_timestamp_chunked (start_date self) (end_date self)) as (Cc & _).
    now rewrite Cc. }
  split; [exact Dates|]. split.
  - intros p q r1 r2 N1 N2 Lt.
    apply (map_nth_error DATE) in N1, N2. rewrite Dates in N1, N2.
    eapply np_repeat_date_range_order; eauto.
  - intros i j d loc Nd Nl.
    assert (j < n_locations self)%nat as Lj
      by (unfold n_locations; apply nth_error_Some; congruence).
    destruct (@download_groups env self w _ w' H0) as (groups & E & F).
    destruct (Forall2_nth_error_l _ F Nd) as (rows & Nr & g & t & cells & G & Ti & Ll & Lc & ->).
    assert (Forall (fun l => List.length l = n_locations self) groups) as U.
    { apply Forall_forall. intros l I.
      apply In_nth_error in I as [k Nk].
      apply Forall2_flip in F.
      destruct (Forall2_nth_error_l _ F Nk) as (d' & _ & Gd).
      now apply date_group_length in Gd. }
    pose proof (nth_error_concat_uniform U _ Nr Lj) as Nc.
    destruct (nth_error cells j) as [c|] eqn:Ncell;
      [|apply nth_error_None in Ncell; lia].
    erewrite map_nth_error in Nc by exact Ncell.
    apply (map_nth_error mask_missing) in Nc.
    exists g, t, (fst c), (snd c).
    split; [exact G|]. split; [exact Ti|].
    split; [exact (@get_lat_lon_index_each env self _ _ cells j c loc Ll Ncell Nl)|].
    rewrite E. exact Nc.
Qed.

(** ** download: a location out of reach of the grid *)

Section OutOfReach.
Variables (env : environment) (self : SeaSurfaceTempDownloader).


End OutOfReach.


(* ------------------------------------------------------------------ *)
(** * The theorems at work on the small world *)

Lemma from_tuples_example :
  from_tuples (example_env mixed_sst) example_locations
              (ymd2ord 2010 12 30) (ymd2ord 2011 1 2) empty_world
  = (Ok example_self, mk_world [] [EvMkdtemp "/tmp/tmpsst"] []).
Proof. vm_compute. reflexivity. Qed.

Lemma example_run :
  download (example_env mixed_sst) example_self empty_world
  = (Ok example_table, example_world').
Proof. vm_compute. reflexivity. Qed.

Lemma example_table_length : List.length example_table = 8%nat.
Proof. reflexivity. Qed.

Lemma download_sentinel_translation_witness :
  PrimFloat.ltb SENTINEL THRESHOLD = true /\
  exists output w1,
    extracted_output (example_env mixed_sst) example_self empty_world = (Ok output, w1) /\
    Forall2 translated output example_table.
Proof.
  apply (@download_sentinel_translation
           (example_env mixed_sst) example_self empty_world example_table example_world').
  vm_compute. reflexivity.
Defined.

Lemma download_row_count_witness :
  download (example_env mixed_sst) example_self empty_world
  = (Ok example_table, example_world') /\
  List.length example_table = (4 * 2)%nat.
Proof.
  assert (download (example_env mixed_sst) example_self empty_world
          = (Ok example_table, example_world')) as Run
    by (vm_compute; reflexivity).
  split; [exact Run|].
  destruct (@download_row_count
              (example_env mixed_sst) example_self empty_world
              example_table example_world' Run) as (Rows & _ & _).
  rewrite Rows. vm_compute. reflexivity.
Defined.

Lemma download_row_order_witness :
  download (example_env mixed_sst) example_self empty_world
  = (Ok example_table, example_world') /\
  map DATE example_table
  = np_repeat (date_range (ymd2ord 2010 12 30) (ymd2ord 2011 1 2)) 2 /\
  exists g t ci cj,
    dict_get String.eqb (w_files example_world')
             (local_path example_self (Timestamp_year (midnight (ymd2ord 2011 1 1))))
    = Some g /\
    get_time_index (dataset_of g) [midnight (ymd2ord 2011 1 1)] = Ok [t] /\
    get_lat_lon_index (example_env mixed_sst)
                      (with_locations example_self [[PyInt 1; PyFloat (-169 # 1)]])
                      (nc_lat g) (map normalize_lon (nc_lon g))
    = Ok ([ci], [cj]) /\
    nth_error example_table (2 * n_locations example_self + 0)
    = Some (mask_missing
              (mk_OutputRow (midnight (ymd2ord 2011 1 1))
                 (nth ci (nc_lat g) 0%Q)
                 (nth cj (map normalize_lon (nc_lon g)) 0%Q)
                 (item3 (nc_sst g) t ci cj))).
Proof.
  assert (download (example_env mixed_sst) example_self empty_world
          = (Ok example_table, example_world')) as Run
    by (vm_compute; reflexivity).
  split; [exact Run|].
  destruct (@download_row_order
              (example_env mixed_sst) example_self empty_world
              example_table example_world' Run) as (Dates & _ & Rows).
  split; [exact Dates|].
  apply (Rows 2%nat 0%nat); reflexivity.
Defined.

Lemma get_time_index_exact_or_KeyError_witness :
  get_time_index three_days [noon_of_new_years_eve] = Ok [1%nat] /\
  get_time_index three_days [midnight (ymd2ord 2011 1 2)] = Raise KeyError.
Proof.
  assert (time_axis_valid three_days) as TV
    by (unfold time_axis_valid; repeat constructor).
  split.
  - assert (timestamps_valid [noon_of_new_years_eve]) as DV
      by (unfold timestamps_valid; repeat constructor).
    destruct (@get_time_index_exact_or_KeyError _ _ TV DV) as (Found & _ & _).
    destruct Found as (idx & E & _).
    + intros ts [<-|[]]. exists 1%nat, (ymd2ord 2010 12 31 - EPOCH_1800)%Z.
      split; reflexivity.
    + rewrite E. vm_compute in E. symmetry. exact E.
  - assert (timestamps_valid [midnight (ymd2ord 2011 1 2)]) as DV
      by (unfold timestamps_valid; repeat constructor).
    apply (@get_time_index_exact_or_KeyError _ _ TV DV).
    exists (midnight (ymd2ord 2011 1 2)). split; [left; reflexivity|].
    intros i (t & N & E). apply ord2ymd_inj in E.
    apply nth_error_In in N. cbn [three_days ds_time In] in N.
    destruct N as [<-|[<-|[<-|[]]]]; vm_compute in E; discriminate E.
Defined.

Lemma example_within_reach :
  Forall (within_reach [0%Q; 1%Q] [0%Q; (-170)%Q]) [(1%Q, (-169)%Q); (0%Q, 0%Q)].
Proof.
  repeat constructor; exists 0%Q, 0%Q;
    (split; [left; reflexivity|]; split; [left; reflexivity|reflexivity]).
Qed.

Lemma get_lat_lon_index_nearest_witness :
  get_lat_lon_index (example_env mixed_sst) example_self [0%Q; 1%Q] [0%Q; (-170)%Q]
  = Ok ([1; 0], [1; 0])%nat /\
  exists cells,
    get_lat_lon_index (example_env mixed_sst) example_self [0%Q; 1%Q] [0%Q; (-170)%Q]
    = Ok (map fst cells, map snd cells) /\
    Forall2 (nearest_cell [0%Q; 1%Q] [0%Q; (-170)%Q])
            [(1%Q, (-169)%Q); (0%Q, 0%Q)] cells /\
    nth_error cells 1 = Some (0, 0)%nat.
Proof.
  split; [vm_compute; reflexivity|].
  destruct (@get_lat_lon_index_nearest (example_env mixed_sst) example_self
              [0%Q; 1%Q] [0%Q; (-170)%Q] [(1%Q, (-169)%Q); (0%Q, 0%Q)])
    as (cells & E & N & X).
  - discriminate.
  - discriminate.
  - reflexivity.
  - exact example_within_reach.
  - exists cells. split; [exact E|]. split; [exact N|].
    inversion X as [|q1 c1 qs1 cs1 _ X1]; subst.
    inversion X1 as [|q2 c2 qs2 cs2 C2 _]; subst.
    cbn [nth_error]. f_equal.
    apply (C2 0%nat 0%nat 0%Q 0%Q); try reflexivity.
    intros [|[|i]] [|[|j]] a b Na Nb D; cbn [nth_error] in Na, Nb;
      try (injection Na as <-); try (injection Nb as <-);
      try congruence; try reflexivity;
      try (destruct i; discriminate); try (destruct j; discriminate).
Defined.

(** Among cells at the same computed distance the order of the tree
    decides. *)
Lemma tree_order_decides_ties :
  get_lat_lon_index dead_env centre_self quarter_degree_lat quarter_degree_lon
  = Ok ([1], [1])%nat /\
  get_lat_lon_index ninth_first_env centre_self quarter_degree_lat quarter_degree_lon
  = Ok ([1], [2])%nat.
Proof. split; vm_compute; reflexivity. Qed.

Lemma normalize_lon_spec_witness :
  normalize_lon 190 = Q_of_float (float_of_Q 190 - 360)%float /\
  (normalize_lon 190 == 190 - 360)%Q /\ (-180 <= normalize_lon 190 < 180)%Q /\
  normalize_lon (-170) = (-170)%Q.
Proof.
  destruct (normalize_lon_spec 190) as (_ & _ & Gt & In).
  destruct (normalize_lon_spec (-170)) as (_ & Le & _ & _).
  split; [apply Gt; reflexivity|].
  assert (binary64 190) as B by (unfold binary64; vm_compute; reflexivity).
  destruct (In B) as [Ex Rg]; [split; reflexivity|].
  split; [exact Ex|]. split; [exact Rg|].
  apply Le. split; discriminate.
Defined.


Lemma from_tuples_flat_wrong_length_witness :
  from_tuples (example_env mixed_sst) (PyList [PyInt 10; PyInt 20; PyInt 30])
              (ymd2ord 2010 12 30) (ymd2ord 2011 1 2) empty_world
  = (Raise ValueError, empty_world) /\
  download_sst (example_env mixed_sst) (ArgValue (PyList [PyInt 10; PyInt 20; PyInt 30]))
               (ymd2ord 2010 12 30) (ymd2ord 2011 1 2) empty_world
  = (Raise ValueError, empty_world).
Proof.
  destruct (@from_tuples_flat_wrong_length
              (example_env mixed_sst) (PyList [PyInt 10; PyInt 20; PyInt 30])
              (PyInt 10) [PyInt 20; PyInt 30]
              (ymd2ord 2010 12 30) (ymd2ord 2011 1 2) empty_world)
    as (_ & _ & FT & DS).
  - left. reflexivity.
  - reflexivity.
  - cbn. lia.
  - split; assumption.
Defined.

Lemma download_warns_on_raw_nulls_witness :
  exists output w1,
    extracted_output (example_env mixed_sst) example_self empty_world = (Ok output, w1) /\
    (Forall (fun raw => PrimFloat.is_nan (SST raw) = true) output ->
     w_warnings example_world' = w_warnings w1 ++ [ALL_NULL_WARNING]) /\
    (Exists (fun raw => PrimFloat.is_nan (SST raw) = false) output ->
     w_warnings example_world' = w_warnings w1).
Proof.
  apply (@download_warns_on_raw_nulls
           (example_env mixed_sst) example_self empty_world example_table example_world').
  vm_compute. reflexivity.
Defined.

Lemma example_grid_serves year dates :
  forallb (fun t => valid_ordinal (EPOCH_1800 + t)) (year_axis year) = true ->
  (forall ts, In ts dates ->
              exists i, points_at (dataset_of (example_grid year mixed_sst)) ts i) ->
  grid_serves (example_grid year mixed_sst) dates.
Proof.
  intros V Cover. split; [discriminate|]. split; [discriminate|].
  split; [|split; [exact Cover|reflexivity]].
  unfold time_axis_valid. apply Forall_forall. intros t I.
  rewrite forallb_forall in V. now apply V.
Qed.

Lemma example_grid_reaches year :
  grid_reaches (example_grid year mixed_sst) [(1%Q, (-169)%Q); (0%Q, 0%Q)].
Proof. exact example_within_reach. Qed.

Lemma download_succeeds_witness :
  exists table w',
    download (example_env mixed_sst) example_self empty_world = (Ok table, w') /\
    List.length table = 8%nat.
Proof.
  destruct (@download_succeeds (example_env mixed_sst) example_self empty_world
              [(1%Q, (-169)%Q); (0%Q, 0%Q)]) as (table & w' & E & L).
  - reflexivity.
  - vm_compute. discriminate.
  - reflexivity.
  - reflexivity.
  - reflexivity.
  - intros year dates I.
    change (year_to_timestamp (start_date example_self) (end_date example_self))
      with (year_to_timestamp (ymd2ord 2010 12 30) (ymd2ord 2011 1 2)) in I.
    vm_compute year_to_timestamp in I.
    destruct I as [I|[I|[]]]; injection I as <- <-.
    + exists (example_grid 2010 mixed_sst). split; [reflexivity|].
      split; [|apply example_grid_reaches].
      apply example_grid_serves; [vm_compute; reflexivity|].
      intros ts [<-|[<-|[]]]; [exists 363%nat|exists 364%nat];
        eexists; split; reflexivity.
    + exists (example_grid 2011 mixed_sst). split; [reflexivity|].
      split; [|apply example_grid_reaches].
      apply example_grid_serves; [vm_compute; reflexivity|].
      intros ts [<-|[<-|[]]]; [exists 0%nat|exists 1%nat];
        eexists; split; reflexivity.
  - exists table, w'. split; [exact E|]. rewrite L. reflexivity.
Defined.

(* ------------------------------------------------------------------ *)
(** * More of the theorems at work on the small world *)

Lemma download_file_operations_witness :
  download (example_env mixed_sst) example_self empty_world
  = (Ok example_table, example_world') /\
  w_trace example_world'
  = [EvExists "/tmp/tmpsst/sst.day.mean.2010.nc";
     EvUrlretrieve (NOAA_DIR ++ "sst.day.mean.2010.nc") "/tmp/tmpsst/sst.day.mean.2010.nc";
     EvOpenDataset "/tmp/tmpsst/sst.day.mean.2010.nc";
     EvExists "/tmp/tmpsst/sst.day.mean.2011.nc";
     EvUrlretrieve (NOAA_DIR ++ "sst.day.mean.2011.nc") "/tmp/tmpsst/sst.day.mean.2011.nc";
     EvOpenDataset "/tmp/tmpsst/sst.day.mean.2011.nc"].
Proof.
  assert (download (example_env mixed_sst) example_self empty_world
          = (Ok example_table, example_world')) as Run
    by (vm_compute; reflexivity).
  split; [exact Run|].
  rewrite (@download_file_operations
             (example_env mixed_sst) example_self empty_world
             example_table example_world' Run).
  vm_compute. reflexivity.
Defined.

Lemma download_keeps_local_files_witness :
  exists table w',
    download (example_env mixed_sst) example_self cached_world = (Ok table, w') /\
    dict_get String.eqb (w_files w') "/tmp/tmpsst/sst.day.mean.2010.nc"%string
    = Some (example_grid 2010 land_sst) /\
    exists g, dict_get String.eqb (w_files w') "/tmp/tmpsst/sst.day.mean.2011.nc"%string = Some g.
Proof.
  assert (exists table w',
             download (example_env mixed_sst) example_self cached_world = (Ok table, w'))
    as (table & w' & Run) by (eexists; eexists; vm_compute; reflexivity).
  exists table, w'. split; [exact Run|].
  destruct (@download_keeps_local_files
              (example_env mixed_sst) example_self cached_world table w' Run)
    as (Kept & Left & _).
  split.
  - apply Kept. reflexivity.
  - destruct (Left 2011%Z [midnight (ymd2ord 2011 1 1); midnight (ymd2ord 2011 1 2)])
      as (g & G & _).
    + vm_compute. right. left. reflexivity.
    + exists g. exact G.
Defined.

Lemma download_again_witness :
  download (example_env mixed_sst) example_self empty_world
  = (Ok example_table, example_world') /\
  exists w2, download dead_env example_self example_world' = (Ok example_table, w2).
Proof.
  assert (download (example_env mixed_sst) example_self empty_world
          = (Ok example_table, example_world')) as Run
    by (vm_compute; reflexivity).
  split; [exact Run|].
  destruct (@download_again (example_env mixed_sst) dead_env example_self empty_world
              example_table example_world' eq_refl Run) as (w2 & Again & _).
  exists w2. exact Again.
Defined.

Lemma download_unserved_year_witness :
  exists w', download (example_env mixed_sst) new_year_2012_self empty_world
             = (Raise URLError, w').
Proof.
  apply (@download_unserved_year
           (example_env mixed_sst) new_year_2012_self empty_world [(0%Q, 0%Q)]
           [(2011%Z, [midnight (ymd2ord 2011 12 31)])]
           2012%Z [midnight (ymd2ord 2012 1 1)] []).
  - reflexivity.
  - reflexivity.
  - reflexivity.
  - vm_compute. reflexivity.
  - intros y ds [I|[]]. injection I as <- <-.
    exists (example_grid 2011 mixed_sst). split; [reflexivity|]. split.
    + apply example_grid_serves; [vm_compute; reflexivity|].
      intros ts [<-|[]]. exists 364%nat. eexists. split; reflexivity.
    + repeat constructor. exists 0%Q, 0%Q.
      split; [left; reflexivity|]. split; [left; reflexivity|reflexivity].
  - reflexivity.
  - reflexivity.
Defined.

Lemma download_missing_date_witness :
  exists w', download short_leap_year_env end_of_2012_self empty_world
             = (Raise KeyError, w').
Proof.
  apply (@download_missing_date
           short_leap_year_env end_of_2012_self empty_world [(0%Q, 0%Q)]
           [] 2012%Z [midnight (ymd2ord 2012 12 30); midnight (ymd2ord 2012 12 31)] []
           (example_grid 2012 mixed_sst)).
  - reflexivity.
  - reflexivity.
  - reflexivity.
  - vm_compute. reflexivity.
  - intros y ds [].
  - reflexivity.
  - unfold time_axis_valid. apply Forall_forall. intros t I.
    assert (forallb (fun t => valid_ordinal (EPOCH_1800 + t)) (year_axis 2012) = true)
      as V by (vm_compute; reflexivity).
    rewrite forallb_forall in V. now apply V.
  - exists (midnight (ymd2ord 2012 12 31)). split; [right; left; reflexivity|].
    intros i (t & N & E). apply ord2ymd_inj in E.
    apply nth_error_In in N. cbn [dataset_of ds_time example_grid nc_time] in N.
    unfold year_axis in N. apply in_map_iff in N as (k & <- & K).
    apply in_seq in K. cbn [midnight ts_ordinal] in E.
    assert (ymd2ord 2012 12 31 = ymd2ord 2012 1 1 + 365)%Z as D by reflexivity.
    rewrite D in E. lia.
Defined.

Lemma init_selects_columns_witness :
  init (example_env mixed_sst) stations (ymd2ord 2010 12 30) (ymd2ord 2011 1 2)
       LAT_COL LON_COL empty_world
  = (Ok example_self, mk_world [] [EvMkdtemp "/tmp/tmpsst"] []).
Proof.
  apply (@init_selects_columns (example_env mixed_sst) stations
           (ymd2ord 2010 12 30) (ymd2ord 2011 1 2) LAT_COL LON_COL empty_world 2 1).
  - repeat constructor; cbn [In]; intuition discriminate.
  - reflexivity.
  - reflexivity.
Defined.

Lemma from_tuples_pairs_witness :
  from_tuples (example_env mixed_sst) example_locations
              (ymd2ord 2010 12 30) (ymd2ord 2011 1 2) empty_world
  = (Ok example_self, mk_world [] [EvMkdtemp "/tmp/tmpsst"] []).
Proof.
  apply (@from_tuples_pairs (example_env mixed_sst) example_locations
           [PyTuple [PyInt 1; PyFloat (-169 # 1)]; PyTuple [PyInt 0; PyInt 0]]
           [[PyInt 1; PyFloat (-169 # 1)]; [PyInt 0; PyInt 0]]
           (ymd2ord 2010 12 30) (ymd2ord 2011 1 2) empty_world).
  - left. reflexivity.
  - discriminate.
  - repeat (apply Forall2_cons; [split; [right; reflexivity|reflexivity]|]).
    apply Forall2_nil.
Defined.

Lemma from_tuples_single_pair_witness :
  from_tuples (example_env mixed_sst) (PyList [PyInt 10; PyInt 20])
              (ymd2ord 2010 12 30) (ymd2ord 2011 1 2) empty_world
  = (Ok (mk_SeaSurfaceTempDownloader NOAA_DIR "/tmp/tmpsst"
           (mk_DataFrame [LAT_COL; LON_COL] [[PyInt 10; PyInt 20]])
           (ymd2ord 2010 12 30) (ymd2ord 2011 1 2)),
     mk_world [] [EvMkdtemp "/tmp/tmpsst"] []).
Proof.
  apply (@from_tuples_single_pair (example_env mixed_sst) (PyList [PyInt 10; PyInt 20])
           (PyInt 10) (PyInt 20) (ymd2ord 2010 12 30) (ymd2ord 2011 1 2) empty_world).
  - left. reflexivity.
  - reflexivity.
Defined.

Lemma from_tuples_shape_witness :
  from_tuples (example_env mixed_sst) (PyList [PyList [PyInt 1]; PyList [PyInt 0; PyInt 0]])
              (ymd2ord 2010 12 30) (ymd2ord 2011 1 2) empty_world
  = (Ok (mk_SeaSurfaceTempDownloader NOAA_DIR "/tmp/tmpsst"
           (mk_DataFrame [LAT_COL; LON_COL] [[PyInt 1; PyNaN]; [PyInt 0; PyInt 0]])
           (ymd2ord 2010 12 30) (ymd2ord 2011 1 2)),
     mk_world [] [EvMkdtemp "/tmp/tmpsst"] []) /\
  Forall (fun row => List.length row = 2)
         [[PyInt 1; PyNaN]; [PyInt 0; PyInt 0]].
Proof.
  assert (from_tuples (example_env mixed_sst)
            (PyList [PyList [PyInt 1]; PyList [PyInt 0; PyInt 0]])
            (ymd2ord 2010 12 30) (ymd2ord 2011 1 2) empty_world
          = (Ok (mk_SeaSurfaceTempDownloader NOAA_DIR "/tmp/tmpsst"
                   (mk_DataFrame [LAT_COL; LON_COL] [[PyInt 1; PyNaN]; [PyInt 0; PyInt 0]])
                   (ymd2ord 2010 12 30) (ymd2ord 2011 1 2)),
             mk_world [] [EvMkdtemp "/tmp/tmpsst"] [])) as Run
    by (vm_compute; reflexivity).
  split; [exact Run|].
  exact (proj1 (proj2 (from_tuples_shape _ _ _ _ _ Run))).
Defined.

Lemma from_tuples_failure_witness :
  from_tuples (example_env mixed_sst) (PyList [])
              (ymd2ord 2010 12 30) (ymd2ord 2011 1 2) empty_world
  = (Raise IndexError, empty_world) /\
  (IndexError = IndexError <->
   PyList [] = PyList [] \/ PyList [] = PyTuple [] \/ PyList [] = PyStr EmptyString).
Proof.
  assert (from_tuples (example_env mixed_sst) (PyList [])
            (ymd2ord 2010 12 30) (ymd2ord 2011 1 2) empty_world
          = (Raise IndexError, empty_world)) as Run by reflexivity.
  split; [exact Run|].
  exact (proj2 (proj2 (@from_tuples_failure
                         (example_env mixed_sst) (PyList [])
                         (ymd2ord 2010 12 30) (ymd2ord 2011 1 2) empty_world
                         IndexError empty_world Run))).
Defined.

Lemma download_sst_pairs_as_frame_witness :
  download_sst (example_env mixed_sst) (ArgValue example_locations)
               (ymd2ord 2010 12 30) (ymd2ord 2011 1 2) empty_world
  = download_sst (example_env mixed_sst)
      (ArgDataFrame (mk_DataFrame [LAT_COL; LON_COL]
                       [[PyInt 1; PyFloat (-169 # 1)]; [PyInt 0; PyInt 0]]))
      (ymd2ord 2010 12 30) (ymd2ord 2011 1 2) empty_world.
Proof.
  apply (@download_sst_pairs_as_frame (example_env mixed_sst) example_locations
           [PyTuple [PyInt 1; PyFloat (-169 # 1)]; PyTuple [PyInt 0; PyInt 0]]).
  - left. reflexivity.
  - discriminate.
  - repeat (apply Forall2_cons; [split; [right; reflexivity|reflexivity]|]).
    apply Forall2_nil.
Defined.

Lemma get_time_index_last_occurrence_witness :
  get_time_index repeated_day [noon_of_new_years_eve] = Ok [2] /\
  Forall2 (fun ts i =>
             points_at repeated_day ts i /\
             forall j, points_at repeated_day ts j -> j <= i)
          [noon_of_new_years_eve] [2].
Proof.
  assert (get_time_index repeated_day [noon_of_new_years_eve] = Ok [2]) as Run
    by (vm_compute; reflexivity).
  split; [exact Run|].
  apply (@get_time_index_last_occurrence repeated_day [noon_of_new_years_eve] [2]).
  - unfold timestamps_valid. repeat constructor.
  - exact Run.
Defined.

Lemma remote_to_local_dir_mapping_years_witness :
  map fst (remote_to_local_dir_mapping example_self)
  = [(NOAA_DIR ++ "sst.day.mean.2010.nc")%string;
     (NOAA_DIR ++ "sst.day.mean.2011.nc")%string] /\
  List.length (remote_to_local_dir_mapping example_self) = 2.
Proof.
  destruct (@remote_to_local_dir_mapping_years example_self) as (Keys & Len & _).
  - vm_compute. discriminate.
  - split.
    + rewrite Keys. vm_compute. reflexivity.
    + rewrite Len. vm_compute. reflexivity.
Defined.

Lemma download_empty_range_witness :
  download (example_env mixed_sst) reversed_self empty_world
  = (Raise ValueError, empty_world).
Proof.
  apply (@download_empty_range (example_env mixed_sst) reversed_self empty_world).
  vm_compute. reflexivity.
Defined.

Lemma get_lat_lon_index_in_bounds_witness :
  get_lat_lon_index dead_env example_self [0%Q; 1%Q] [0%Q; (-170)%Q]
  = Ok ([1; 0], [1; 0]) /\
  Forall (fun i => i < 2) [1; 0].
Proof.
  assert (get_lat_lon_index dead_env example_self [0%Q; 1%Q] [0%Q; (-170)%Q]
          = Ok ([1; 0], [1; 0])) as Run by (vm_compute; reflexivity).
  split; [exact Run|].
  exact (proj1 (proj2 (proj2 (@get_lat_lon_index_in_bounds _ _ _ _ _ _ Run)))).
Defined.

Lemma download_to_local_once_witness :
  exists w1,
    download_to_local (example_env mixed_sst)
      (NOAA_DIR ++ "sst.day.mean.2010.nc") "/tmp/tmpsst/sst.day.mean.2010.nc" empty_world
    = (Ok tt, w1) /\
    dict_get String.eqb (w_files w1) "/tmp/tmpsst/sst.day.mean.2010.nc"%string
    = Some (example_grid 2010 mixed_sst) /\
    download_to_local dead_env "ftp://nowhere" "/tmp/tmpsst/sst.day.mean.2010.nc" w1
    = (Ok tt, mk_world (w_files w1)
                       (w_trace w1 ++ [EvExists "/tmp/tmpsst/sst.day.mean.2010.nc"])
                       (w_warnings w1)).
Proof.
  assert (exists w1,
             download_to_local (example_env mixed_sst)
               (NOAA_DIR ++ "sst.day.mean.2010.nc") "/tmp/tmpsst/sst.day.mean.2010.nc"
               empty_world = (Ok tt, w1))
    as (w1 & Run) by (eexists; vm_compute; reflexivity).
  exists w1. split; [exact Run|].
  destruct (@download_to_local_once (example_env mixed_sst)
              (NOAA_DIR ++ "sst.day.mean.2010.nc") "/tmp/tmpsst/sst.day.mean.2010.nc"
              empty_world w1 Run) as ((g & G & Src) & _ & Again).
  split; [|apply Again].
  rewrite G. f_equal. cbn in Src. vm_compute in Src. now injection Src.
Defined.

Lemma download_no_fill_value_witness :
  download (example_env mixed_sst) example_self empty_world
  = (Ok example_table, example_world') /\
  Forall (fun row => PrimFloat.eqb (SST row) SENTINEL = false) example_table.
Proof.
  assert (download (example_env mixed_sst) example_self empty_world
          = (Ok example_table, example_world')) as Run
    by (vm_compute; reflexivity).
  split; [exact Run|].
  eapply Forall_impl;
    [|exact (@download_no_fill_value (example_env mixed_sst) example_self empty_world
               example_table example_world' Run)].
  cbv beta. tauto.
Defined.

Lemma download_no_location_witness :
  exists w',
    download (example_env mixed_sst) nowhere_self empty_world = (Ok [], w') /\
    w_warnings w' = [ALL_NULL_WARNING].
Proof.
  assert (exists table w',
             download (example_env mixed_sst) nowhere_self empty_world = (Ok table, w'))
    as (table & w' & Run) by (eexists; eexists; vm_compute; reflexivity).
  destruct (@download_no_location (example_env mixed_sst) nowhere_self empty_world
              table w' eq_refl Run) as (-> & W).
  exists w'. split; [exact Run|exact W].
Defined.

Lemma download_raises_witness :
  exists w',
    download (example_env mixed_sst) reversed_self empty_world = (Raise ValueError, w') /\
    (ValueError = URLError \/ ValueError = OverflowError \/ ValueError = KeyError \/
     ValueError = ValueError \/ ValueError = IndexError).
Proof.
  assert (exists w',
             download (example_env mixed_sst) reversed_self empty_world
             = (Raise ValueError, w'))
    as (w' & Run) by (eexists; vm_compute; reflexivity).
  exists w'. split; [exact Run|].
  exact (@download_raises (example_env mixed_sst) reversed_self empty_world
           ValueError w' Run).
Defined.

